(** * URI Dereferencer: a shallow embedding of the client-side pipeline

    The development follows the JavaScript sources of the repository:
    - [dereferencer.js] (class [URIDereferencer]): URI extraction, local
      links, prefix shortening, the DESCRIBE query, the property table and
      the two best-effort lookups;
    - [map-viewer.js]: the WKT/EWKT literal parser and the reprojection of
      GeoJSON coordinates;
    - [config.js]: the [CONFIG] object.

    JavaScript strings are modelled by [string]; every character of this
    file is one code unit below 256.  Numbers are IEEE doubles ([float]),
    the SRID that [parseInt] reads included.
    A JavaScript computation either completes normally or throws an error
    carrying a message ([completion]). *)

From Stdlib Require Import String Ascii List Bool Arith NArith ZArith Lia.
From Stdlib Require Import Sorting.Sorted Sorting.Permutation Sorting.Mergesort.
From Stdlib Require Import Floats DecimalString.
Import ListNotations.

#[local] Open Scope string_scope.
#[local] Open Scope bool_scope.
#[local] Set Warnings "-inexact-float,-register-all".

(* ===================================================================== *)
(** ** The JavaScript layer *)
(* ===================================================================== *)

Module JS.

(** Outcome of evaluating a JavaScript expression or statement list. *)
Inductive completion (A : Type) : Type :=
| Normal (a : A)
| Throw (message : string).

Arguments Normal {A} a.
Arguments Throw {A} message.

Definition bindC {A B} (c : completion A) (k : A -> completion B) : completion B :=
  match c with
  | Normal a => k a
  | Throw m => Throw m
  end.

Definition mapC {A B} (f : A -> B) (c : completion A) : completion B :=
  bindC c (fun a => Normal (f a)).

(** [s.substring(n)]: the characters of [s] from index [n] on; the empty
    string once [n] reaches the length. *)
Fixpoint substring_from (n : nat) (s : string) : string :=
  match n, s with
  | 0, _ => s
  | S n', String _ s' => substring_from n' s'
  | S _, EmptyString => EmptyString
  end.

(** [s.startsWith(p)]. *)
Definition startsWith (s p : string) : bool := String.prefix p s.

(** A string in a boolean context: only the empty string is falsy. *)
Definition truthy (s : string) : bool := negb (s =? "").

(** [a || b] on strings. *)
Definition or_else (a b : string) : string := if truthy a then a else b.

(** A nullable string inside a template literal. *)
Definition template (o : option string) : string :=
  match o with
  | Some s => s
  | None => "null"
  end.

(** ECMAScript WhiteSpace and LineTerminator code units below 256: TAB, LF,
    VT, FF, CR, SP and NBSP.  [String.prototype.trim] and the regular
    expression class [\s] both use this set. *)
Definition isLineTerminator (c : ascii) : bool :=
  let n := nat_of_ascii c in Nat.eqb n 10 || Nat.eqb n 13.

Definition isWhiteSpace (c : ascii) : bool :=
  let n := nat_of_ascii c in
  (Nat.leb 9 n && Nat.leb n 13) || Nat.eqb n 32 || Nat.eqb n 160.

Fixpoint trimStart (s : string) : string :=
  match s with
  | String c s' => if isWhiteSpace c then trimStart s' else s
  | EmptyString => EmptyString
  end.

Fixpoint trimEnd (s : string) : string :=
  match s with
  | String c s' =>
      let t := trimEnd s' in
      if isWhiteSpace c && (t =? "") then EmptyString else String c t
  | EmptyString => EmptyString
  end.

Definition trim (s : string) : string := trimEnd (trimStart s).

(** The regular expression class [\d]. *)
Definition isDigit (c : ascii) : bool :=
  let n := nat_of_ascii c in Nat.leb 48 n && Nat.leb n 57.

(** Canonicalisation of the [/i] flag on the code units of this file:
    ASCII letters are compared in upper case. *)
Definition toUpper (c : ascii) : ascii :=
  let n := nat_of_ascii c in
  if Nat.leb 97 n && Nat.leb n 122 then ascii_of_nat (n - 32) else c.

Definition eqb_ci (a b : ascii) : bool := Ascii.eqb (toUpper a) (toUpper b).

(** The integer that a run of decimal digits denotes. *)
Definition digitValue (c : ascii) : N := N.of_nat (nat_of_ascii c - 48).

Definition decimal (digits : string) : N :=
  fold_left (fun acc c => (10 * acc + digitValue c)%N)
            (list_ascii_of_string digits) 0%N.

(** The Number value for an integer: the double nearest to it, a tie going
    to the even mantissa, and [Infinity] beyond the largest double.  An
    integer below 2^53 is a double itself. *)
Definition number_of_integer (n : N) : float :=
  SF2Prim (binary_normalize prec emax (Z.of_N n) 0%Z false).

(** [parseInt] on a run of decimal digits (the only argument the sources
    give it): a Number, so a run that denotes 2^53 or more is rounded.
    ECMAScript lets an engine approximate from the 21st significant digit
    on; the engines round every run correctly, which is what is modelled. *)
Definition parseInt (digits : string) : float :=
  number_of_integer (decimal digits).

(** [ToBoolean] of a Number: [0], [-0] and [NaN] are falsy. *)
Definition truthy_number (x : float) : bool :=
  negb (PrimFloat.eqb x 0 || PrimFloat.is_nan x).

(** The integer a Number is, when it is one below 2^53 ([-0] counts as
    [0]).  These are the Numbers whose text is their decimal digits. *)
Definition safe_integer (x : float) : option N :=
  match Prim2SF x with
  | S754_zero _ => Some 0%N
  | S754_finite false m e =>
      if (0 <=? e)%Z then
        let v := (Z.pos m * 2 ^ e)%Z in
        if (v <? 2 ^ 53)%Z then Some (Z.to_N v) else None
      else
        let d := (2 ^ (- e))%Z in
        if ((Z.pos m mod d =? 0) && (Z.pos m / d <? 2 ^ 53))%Z
        then Some (Z.to_N (Z.pos m / d)) else None
  | _ => None
  end.

End JS.

Export JS.

(* ===================================================================== *)
(** ** Data model: RDF terms, triples, GeoJSON geometries *)
(* ===================================================================== *)

Module RDF.

(** [termType] of an N3.js term. *)
Inductive termType : Type := NamedNode | BlankNode | Literal.

(** An N3.js term: every term has a [value]; literals also carry a language
    tag (possibly empty) and a datatype IRI. *)
Record term : Type := mkTerm {
  kind : termType;
  value : string;
  language : string;
  datatype : option string
}.

Record triple : Type := mkTriple {
  subject : term;
  predicate : term;
  object : term
}.

Definition iri (v : string) : term := mkTerm NamedNode v "" None.
Definition plain (v : string) : term :=
  mkTerm Literal v "" (Some "http://www.w3.org/2001/XMLSchema#string").

End RDF.

Export RDF.

Module GeoJSON.

(** A coordinate array.  [Pos x rest] is an array whose first element is the
    number [x] (a position); [Arr cs] is any other array: its elements are
    arrays again, or it is empty. *)
Inductive coords : Type :=
| Pos (x : float) (rest : list float)
| Arr (cs : list coords).

(** A geometry object as the WKT library returns it: simple and multi
    geometries carry [coordinates], a collection carries [geometries]. *)
Inductive geometry : Type :=
| Geometry (type : string) (coordinates : coords)
| GeometryCollection (geometries : list geometry).

Definition coordinates (g : geometry) : option coords :=
  match g with
  | Geometry _ c => Some c
  | GeometryCollection _ => None
  end.

Definition type (g : geometry) : string :=
  match g with
  | Geometry t _ => t
  | GeometryCollection _ => "GeometryCollection"
  end.

(** Nesting depth of a coordinate array below the position level. *)
Fixpoint depth (c : coords) : nat :=
  match c with
  | Pos _ _ => 0
  | Arr cs => S (fold_right (fun c' m => Nat.max (depth c') m) 0 cs)
  end.

(** The positions of a coordinate array, left to right. *)
Fixpoint positions (c : coords) : list (float * list float) :=
  match c with
  | Pos x rest => [(x, rest)]
  | Arr cs => flat_map positions cs
  end.

(** The array structure with the numbers erased. *)
Inductive shape : Type :=
| SPos
| SArr (ss : list shape).

Fixpoint shapeOf (c : coords) : shape :=
  match c with
  | Pos _ _ => SPos
  | Arr cs => SArr (map shapeOf cs)
  end.

End GeoJSON.

Export GeoJSON.

(* ===================================================================== *)
(** ** External collaborators *)
(* ===================================================================== *)

(** An HTTP exchange as [fetch] reports it: the promise rejects (network
    failure), or it resolves to a response with its [ok] flag, status text
    and body. *)
Inductive fetched : Type :=
| Rejected (message : string)
| Response (ok : bool) (statusText : string) (body : string).

(** One solution of a SPARQL JSON result: the bound variables with the
    [value] of their term. *)
Definition binding : Type := list (string * string).

(** What the page does not own: the browser's URI coding functions, the
    network, and the bundled libraries N3.js, betterknown, proj4 and the
    graph plugin.  A [Throw] of [bindings_of_json] stands for any failure of
    [response.json()] or of reaching [data.results.bindings] in the decoded
    value.  [Number_toString] is the text of a Number in a template
    literal; it is consulted only for a Number that is not an integer below
    2^53, whose shortest digits ECMAScript leaves in part to the engine. *)
Class Platform : Type := {
  decodeURIComponent : string -> completion string;
  encodeURIComponent : string -> string;
  Number_toString : float -> string;
  fetch : string -> string -> fetched;
  N3_parse : string -> completion (list triple);
  bindings_of_json : string -> completion (list binding);
  prefixes_of_json : string -> completion (list (string * string));
  wktToGeoJSON : string -> completion (option geometry);
  proj4 : string -> completion (float * list float -> completion (float * list float));
  graph_draw : list triple -> completion unit
}.

(** [config.js]. *)
Record Config : Type := mkConfig {
  SPARQL_ENDPOINT : string;
  ENTITY_NS : string;
  BASE_URI : string
}.

(** [window.location], as far as the sources read it. *)
Record Location : Type := mkLocation {
  origin : string;
  pathname : string
}.

(** [CONFIG] takes [BASE_URI] from the page's own origin. *)
Definition CONFIG_of (endpoint entity_ns : string) (loc : Location) : Config :=
  mkConfig endpoint entity_ns (origin loc).

(** The namespaces of [NS]. *)
Module NS.
Definition RDF : string := "http://www.w3.org/1999/02/22-rdf-syntax-ns#".
Definition RDFS : string := "http://www.w3.org/2000/01/rdf-schema#".
Definition OWL : string := "http://www.w3.org/2002/07/owl#".
Definition XSD : string := "http://www.w3.org/2001/XMLSchema#".
Definition GSP : string := "http://www.opengis.net/ont/geosparql#".
Definition GEO : string := "http://www.w3.org/2003/01/geo/wgs84_pos#".
End NS.

(* ===================================================================== *)
(** ** URI resolver and prefix shortener (pure part of [URIDereferencer]) *)
(* ===================================================================== *)

Module Resolver.

Section WithPlatform.
Context {P : Platform}.
Variable CONFIG : Config.
Variable location : Location.

(** [extractURIFromPath]: [None] is the JavaScript [null]. *)
Definition extractURIFromPath : completion (option string) :=
  let path := pathname location in
  let uri := substring_from 1 path in
  if negb (truthy uri) || (uri =? "/") then Normal None
  else if startsWith uri "http://" || startsWith uri "https://" then
    mapC Some (decodeURIComponent uri)
  else Normal (Some (BASE_URI CONFIG ++ "/" ++ uri)).

(** [makeLocalLink]. *)
Definition makeLocalLink (uri : string) : option string :=
  if negb (startsWith uri (ENTITY_NS CONFIG)) then None
  else if origin location =? ENTITY_NS CONFIG then
    Some (or_else (substring_from (String.length (ENTITY_NS CONFIG)) uri) "/")
  else Some ("/" ++ uri).

End WithPlatform.

(** [shortenURI]: the [for ... of Object.entries(PREFIXES)] loop, the entries
    in enumeration order, each a namespace with its prefix. *)
Fixpoint shortenURI (PREFIXES : list (string * string)) (uri : string) : string :=
  match PREFIXES with
  | [] => uri
  | (namespace, prefix) :: entries =>
      if startsWith uri namespace
      then prefix ++ ":" ++ substring_from (String.length namespace) uri
      else shortenURI entries uri
  end.

End Resolver.

Export Resolver.

(* ===================================================================== *)
(** ** The page: application object, document, map viewer, console *)
(* ===================================================================== *)

Module State.

(** The fields of a [URIDereferencer] instance. *)
Record App : Type := mkApp {
  resourceURI : option string;
  triples : list triple;
  types : list string;
  geometryNode : option string;
  wktLiteral : option string
}.

(** The document, as far as the sources touch it: [style.display] and
    [textContent] of the elements by id ([document.title] is kept under the
    key of that name), the rows of the property table, each a predicate with
    its values, and the items of the see-also list, each a resource with
    the type it was found by. *)
Record Page : Type := mkPage {
  display : string -> string;
  textContent : string -> string;
  properties_tbody : list (string * list term);
  see_also_list : list (string * string)
}.

(** The module variables of [map-viewer.js].  [geoJsonLayer] holds the
    geometry the layer was built from; [geojson] is the parsed geometry
    object in its present state; [epsg_requests] lists the SRIDs whose
    projection definition was asked of epsg.io. *)
Record Viewer : Type := mkViewer {
  the_map : bool;
  geoJsonLayer : option geometry;
  geojson : option geometry;
  epsg_requests : list float
}.

Record World : Type := mkWorld {
  this : App;
  document : Page;
  PREFIXES : list (string * string);
  viewer : Viewer;
  console : list (string * string)
}.

Definition constructor : App := mkApp None [] [] None None.

Definition upd {A} (id : string) (v : A) (f : string -> A) : string -> A :=
  fun i => if i =? id then v else f i.

(** Computations of the page: they read and write the [World], and complete
    normally or throw; what was written before a throw stays written. *)
Definition M (A : Type) : Type := World -> completion A * World.

Definition ret {A} (a : A) : M A := fun w => (Normal a, w).

Definition bind {A B} (m : M A) (k : A -> M B) : M B :=
  fun w =>
    match m w with
    | (Normal a, w') => k a w'
    | (Throw e, w') => (Throw e, w')
    end.

Definition throw {A} (e : string) : M A := fun w => (Throw e, w).

Definition try_catch {A} (m : M A) (handler : string -> M A) : M A :=
  fun w =>
    match m w with
    | (Normal a, w') => (Normal a, w')
    | (Throw e, w') => handler e w'
    end.

Definition lift {A} (c : completion A) : M A := fun w => (c, w).

Definition gets {A} (f : World -> A) : M A := fun w => (Normal (f w), w).

Definition modify (f : World -> World) : M unit := fun w => (Normal tt, f w).

Definition on_this (f : App -> App) : M unit :=
  modify (fun w => mkWorld (f (this w)) (document w) (PREFIXES w) (viewer w) (console w)).

Definition on_document (f : Page -> Page) : M unit :=
  modify (fun w => mkWorld (this w) (f (document w)) (PREFIXES w) (viewer w) (console w)).

Definition on_viewer (f : Viewer -> Viewer) : M unit :=
  modify (fun w => mkWorld (this w) (document w) (PREFIXES w) (f (viewer w)) (console w)).

Definition set_PREFIXES (p : list (string * string)) : M unit :=
  modify (fun w => mkWorld (this w) (document w) p (viewer w) (console w)).

(** [console.warn] and [console.error]: the level and the text. *)
Definition console_log (level text : string) : M unit :=
  modify (fun w => mkWorld (this w) (document w) (PREFIXES w) (viewer w)
                           (console w ++ [(level, text)])).

Definition set_resourceURI (v : option string) : M unit :=
  on_this (fun a => mkApp v (triples a) (types a) (geometryNode a) (wktLiteral a)).

Definition set_triples (v : list triple) : M unit :=
  on_this (fun a => mkApp (resourceURI a) v (types a) (geometryNode a) (wktLiteral a)).

Definition set_types (v : list string) : M unit :=
  on_this (fun a => mkApp (resourceURI a) (triples a) v (geometryNode a) (wktLiteral a)).

Definition set_geometryNode (v : option string) : M unit :=
  on_this (fun a => mkApp (resourceURI a) (triples a) (types a) v (wktLiteral a)).

Definition set_wktLiteral (v : option string) : M unit :=
  on_this (fun a => mkApp (resourceURI a) (triples a) (types a) (geometryNode a) v).

(** [document.getElementById(id).style.display = v]. *)
Definition set_display (id v : string) : M unit :=
  on_document (fun d => mkPage (upd id v (display d)) (textContent d)
                               (properties_tbody d) (see_also_list d)).

(** [document.getElementById(id).textContent = v]. *)
Definition set_textContent (id v : string) : M unit :=
  on_document (fun d => mkPage (display d) (upd id v (textContent d))
                               (properties_tbody d) (see_also_list d)).

Definition set_properties_tbody (rows : list (string * list term)) : M unit :=
  on_document (fun d => mkPage (display d) (textContent d) rows (see_also_list d)).

Definition set_see_also_list (items : list (string * string)) : M unit :=
  on_document (fun d => mkPage (display d) (textContent d) (properties_tbody d) items).

Definition set_the_map (b : bool) : M unit :=
  on_viewer (fun v => mkViewer b (geoJsonLayer v) (geojson v) (epsg_requests v)).

Definition set_geoJsonLayer (l : option geometry) : M unit :=
  on_viewer (fun v => mkViewer (the_map v) l (geojson v) (epsg_requests v)).

Definition set_geojson (g : option geometry) : M unit :=
  on_viewer (fun v => mkViewer (the_map v) (geoJsonLayer v) g (epsg_requests v)).

Definition set_epsg_requests (r : list float) : M unit :=
  on_viewer (fun v => mkViewer (the_map v) (geoJsonLayer v) (geojson v) r).

End State.

Export State.

Notation "x <- m ;; k" := (bind m (fun x => k))
  (at level 61, m at next level, right associativity).
Notation "m ;; k" := (bind m (fun _ => k))
  (at level 61, right associativity).

(* ===================================================================== *)
(** ** [map-viewer.js] *)
(* ===================================================================== *)

Module MapViewer.

(** *** The two regular expressions of [parseWKT] *)

(** A literal pattern under the [/i] flag, anchored at the start: the text
    after the match. *)
Fixpoint strip_ci (literal s : string) : option string :=
  match literal, s with
  | EmptyString, _ => Some s
  | String a literal', String b s' =>
      if eqb_ci a b then strip_ci literal' s' else None
  | String _ _, EmptyString => None
  end.

(** The longest run of digits at the start (what a greedy [\d+] takes
    first) and the text after it. *)
Fixpoint digits_run (s : string) : string * string :=
  match s with
  | String c s' =>
      if isDigit c then let (d, r) := digits_run s' in (String c d, r)
      else (EmptyString, s)
  | EmptyString => (EmptyString, EmptyString)
  end.

Fixpoint no_line_terminator (s : string) : bool :=
  match s with
  | String c s' => negb (isLineTerminator c) && no_line_terminator s'
  | EmptyString => true
  end.

(** [(.+)$]: the whole remaining text, non-empty and on one line. *)
Definition dot_plus_end (s : string) : bool :=
  truthy s && no_line_terminator s.

(** [\s*(.+)$]: the greedy star gives a character back only when the rest
    cannot match. *)
Fixpoint spaces_dot_plus_end (s : string) : option string :=
  match s with
  | EmptyString => None
  | String c s' =>
      match (if isWhiteSpace c then spaces_dot_plus_end s' else None) with
      | Some rest => Some rest
      | None => if dot_plus_end s then Some s else None
      end
  end.

(** [/^SRID=(\d+);(.+)$/i]: the two captures.  No shorter run of digits can
    be followed by the semicolon, so [\d+] never backtracks. *)
Definition match_ewkt (s : string) : option (string * string) :=
  match strip_ci "SRID=" s with
  | Some t =>
      match digits_run t with
      | (String d ds, String ";" rest) =>
          if dot_plus_end rest then Some (String d ds, rest) else None
      | _ => None
      end
  | None => None
  end.

(** [/^<http:\/\/www\.opengis\.net\/def\/crs\/EPSG\/0\/(\d+)>\s+(.+)$/i]. *)
Definition match_ogc (s : string) : option (string * string) :=
  match strip_ci "<http://www.opengis.net/def/crs/EPSG/0/" s with
  | Some t =>
      match digits_run t with
      | (String d ds, String ">" (String c rest)) =>
          if isWhiteSpace c
          then option_map (pair (String d ds)) (spaces_dot_plus_end rest)
          else None
      | _ => None
      end
  | None => None
  end.

Section WithPlatform.
Context {P : Platform}.

(** [parseWKT]: the pair [{ geojson, srid }]. *)
Definition parseWKT (wktLiteral : string) : completion (option geometry * option float) :=
  let wkt := trim wktLiteral in
  let srid : option float := None in
  let '(srid, wkt) :=
    match match_ewkt wkt with
    | Some (digits, rest) => (Some (parseInt digits), rest)
    | None => (srid, wkt)
    end in
  let '(srid, wkt) :=
    match match_ogc wkt with
    | Some (digits, rest) => (Some (parseInt digits), rest)
    | None => (srid, wkt)
    end in
  bindC (wktToGeoJSON wkt) (fun geojson => Normal (geojson, srid)).

(** The table [commonProjections], read as [commonProjections[srid]]: the
    key of a Number is its text, which is one of the seven keys exactly for
    the seven doubles they denote. *)
Definition commonProjections (srid : float) : option string :=
  if PrimFloat.eqb srid 4326 then Some "+proj=longlat +datum=WGS84 +no_defs"
  else if PrimFloat.eqb srid 3857 then Some "+proj=merc +a=6378137 +b=6378137 +lat_ts=0.0 +lon_0=0.0 +x_0=0.0 +y_0=0 +k=1.0 +units=m +nadgrids=@null +wktext +no_defs"
  else if PrimFloat.eqb srid 31370 then Some "+proj=lcc +lat_1=51.16666723333333 +lat_2=49.8333339 +lat_0=90 +lon_0=4.367486666666666 +x_0=150000.013 +y_0=5400088.438 +ellps=intl +towgs84=-106.869,52.2978,-103.724,0.3366,-0.457,1.8422,-1.2747 +units=m +no_defs"
  else if PrimFloat.eqb srid 4258 then Some "+proj=longlat +ellps=GRS80 +no_defs"
  else if PrimFloat.eqb srid 3035 then Some "+proj=laea +lat_0=52 +lon_0=10 +x_0=4321000 +y_0=3210000 +ellps=GRS80 +units=m +no_defs"
  else if PrimFloat.eqb srid 25832 then Some "+proj=utm +zone=32 +ellps=GRS80 +units=m +no_defs"
  else if PrimFloat.eqb srid 25833 then Some "+proj=utm +zone=33 +ellps=GRS80 +units=m +no_defs"
  else None.

(** [coords.map(f)] for an [f] that may throw: left to right, the first
    throw ends the call. *)
Definition mapC_list {A B} (f : A -> completion B) : list A -> completion (list B) :=
  fix go (l : list A) : completion (list B) :=
    match l with
    | [] => Normal []
    | a :: l' => bindC (f a) (fun b => bindC (go l') (fun bs => Normal (b :: bs)))
    end.

(** The inner function [transformCoords] of [transformGeoJSON], for the
    converter [transform] that [proj4(fromProj, toProj)] returned. *)
Fixpoint transformCoords
  (transform : float * list float -> completion (float * list float))
  (coords : coords) : completion GeoJSON.coords :=
  match coords with
  | Pos x rest => mapC (fun p => Pos (fst p) (snd p)) (transform (x, rest))
  | Arr cs => mapC Arr (mapC_list (transformCoords transform) cs)
  end.

(** [transformGeoJSON(geojson, fromProj, 'EPSG:4326')], where [fromProj]
    names the projection defined by [definition]: the geometry object after
    the call.  A throw leaves the object as it was. *)
Definition transformGeoJSON (geojson : geometry) (definition : string) : completion geometry :=
  match geojson with
  | GeometryCollection _ => Normal geojson
  | Geometry t c =>
      bindC (proj4 definition) (fun transform =>
      bindC (transformCoords transform c) (fun c' =>
      Normal (Geometry t c')))
  end.

(** A Number inside a template literal: the decimal digits of an integer
    below 2^53, and the engine's text of any other Number. *)
Definition template_number (x : float) : string :=
  match safe_integer x with
  | Some n => NilEmpty.string_of_uint (N.to_uint n)
  | None => Number_toString x
  end.

(** The condition [srid && srid !== 4326]: [null] is falsy, and so is a
    Number that is zero. *)
Definition srid_and_not_4326 (srid : option float) : bool :=
  match srid with
  | Some x => truthy_number x && negb (PrimFloat.eqb x 4326)
  | None => false
  end.

(** The moment [transformGeoJSON] is applied to the parsed geometry object
    held in [geojson]. *)
Definition transform_in_place (definition : string) : M unit :=
  g <- gets (fun w => geojson (viewer w)) ;;
  match g with
  | Some g0 =>
      g' <- lift (transformGeoJSON g0 definition) ;;
      set_geojson (Some g')
  | None => ret tt
  end.

(** [transformCoordinates(geojson, sourceSRID)].  For an identifier outside
    the table the request to epsg.io is issued and the function returns;
    the answer is handled by [epsg_answer]. *)
Definition transformCoordinates (sourceSRID : float) : M unit :=
  match commonProjections sourceSRID with
  | None =>
      console_log "log" ("Fetching EPSG:" ++ template_number sourceSRID
                         ++ " definition from epsg.io...") ;;
      r <- gets (fun w => epsg_requests (viewer w)) ;;
      set_epsg_requests (r ++ [sourceSRID])
  | Some sourceProj => transform_in_place sourceProj
  end.

(** The [then]/[catch] chain on the request of [transformCoordinates], run
    when the request settles. *)
Definition epsg_answer (sourceSRID : float) : M unit :=
  match fetch ("https://epsg.io/" ++ template_number sourceSRID ++ ".proj4") "" with
  | Rejected e =>
      console_log "error" ("Failed to fetch EPSG:" ++ template_number sourceSRID ++ ": " ++ e)
  | Response _ _ proj4def =>
      try_catch (transform_in_place proj4def)
        (fun e => console_log "error"
           ("Failed to fetch EPSG:" ++ template_number sourceSRID ++ ": " ++ e))
  end.

(** [addGeoJSONToMap(geojson)]: the layer is built from the object as it is
    at the call. *)
Definition addGeoJSONToMap : M unit :=
  g <- gets (fun w => geojson (viewer w)) ;;
  set_geoJsonLayer g.

(** [initializeMap(wktLiteral)].  The calls into Leaflet ([L.map],
    [L.tileLayer], [fitBounds]) are taken to succeed. *)
Definition initializeMap (wktLiteral : string) : M unit :=
  try_catch
    (parsed <- lift (parseWKT wktLiteral) ;;
     match fst parsed with
     | None => console_log "error" "Failed to parse WKT"
     | Some g =>
         set_geojson (Some g) ;;
         set_the_map true ;;
         (if srid_and_not_4326 (snd parsed)
          then match snd parsed with
               | Some srid => transformCoordinates srid
               | None => ret tt
               end
          else ret tt) ;;
         addGeoJSONToMap
     end)
    (fun error => console_log "error" ("Error initializing map: " ++ error)).

End WithPlatform.

End MapViewer.

Export MapViewer.

(* ===================================================================== *)
(** ** [dereferencer.js]: the stateful part of [URIDereferencer] *)
(* ===================================================================== *)

(** The default comparison of [Array.prototype.sort] on strings: code unit
    by code unit, a proper prefix first. *)
Module KeyOrder <: Orders.TotalLeBool.
Definition t : Type := string.
Definition leb : string -> string -> bool := String.leb.
Definition leb_total : forall a b, leb a b = true \/ leb b a = true :=
  String.leb_total.
End KeyOrder.

Module KeySort := Mergesort.Sort KeyOrder.

Module Dereferencer.

(** Own properties of a plain object, in insertion order.  [obj_get] is the
    read [o[k]] of an own property ([None] when the object has none of
    that name), [obj_set] the write [o[k] = v]. *)
Fixpoint obj_get {V : Type} (k : string) (o : list (string * V)) : option V :=
  match o with
  | [] => None
  | (k', v) :: o' => if k' =? k then Some v else obj_get k o'
  end.

Fixpoint obj_set {V : Type} (k : string) (v : V) (o : list (string * V)) : list (string * V) :=
  match o with
  | [] => [(k, v)]
  | (k', v') :: o' => if k' =? k then (k, v) :: o' else (k', v') :: obj_set k v o'
  end.

Definition keys {V : Type} (o : list (string * V)) : list string := List.map fst o.

(** [s === o] for a string [s] and a nullable string [o]. *)
Definition strict_eq (s : string) (o : option string) : bool :=
  match o with
  | Some u => s =? u
  | None => false
  end.

(** The names every plain object inherits from [Object.prototype].  Read
    through an object that has no own property of the name, each gives a
    function, and [__proto__] the prototype object: a truthy value that has
    no [push]. *)
Definition Object_prototype : list string :=
  ["constructor"; "__defineGetter__"; "__defineSetter__"; "hasOwnProperty";
   "__lookupGetter__"; "__lookupSetter__"; "isPrototypeOf";
   "propertyIsEnumerable"; "toString"; "valueOf"; "__proto__";
   "toLocaleString"].

Definition inherited (k : string) : bool :=
  existsb (String.eqb k) Object_prototype.

(** The body of the [forEach] of [renderProperties], on [grouped = {}] as
    it stands.  [grouped[pred]] finds the own property or else the
    inherited one: under an inherited name nothing is stored, and the call
    of [push] on what is found throws a [TypeError]. *)
Definition group_triple (resourceURI : option string)
  (grouped : list (string * list term)) (triple : triple)
  : completion (list (string * list term)) :=
  if strict_eq (value (subject triple)) resourceURI then
    let pred := value (predicate triple) in
    let grouped1 :=
      match obj_get pred grouped with
      | Some _ => grouped
      | None => if inherited pred then grouped else obj_set pred [] grouped
      end in
    match obj_get pred grouped1 with
    | Some values => Normal (obj_set pred (values ++ [object triple])%list grouped1)
    | None => Throw "grouped[pred].push is not a function"
    end
  else Normal grouped.

(** [array.forEach] with a callback that updates a variable and may throw:
    the first throw ends the loop. *)
Fixpoint forEachC {A S : Type} (f : S -> A -> completion S) (l : list A) (s : S)
  : completion S :=
  match l with
  | [] => Normal s
  | a :: l' => bindC (f s a) (forEachC f l')
  end.

Definition grouped_of (resourceURI : option string) (triples : list triple)
  : completion (list (string * list term)) :=
  forEachC (group_triple resourceURI) triples [].

(** The rows appended to the table body: one for each key of [grouped], the
    keys sorted, with the values stored under the key.  The keys are
    distinct, so the sorted list does not depend on the order in which
    [Object.keys] enumerates them. *)
Definition rows_of (grouped : list (string * list term)) : list (string * list term) :=
  List.map (fun predicate =>
              (predicate, match obj_get predicate grouped with
                          | Some values => values
                          | None => []
                          end))
           (KeySort.sort (keys grouped)).

Definition newline : string := String (ascii_of_nat 10) EmptyString.

Fixpoint indent (n : nat) : string :=
  match n with
  | 0 => EmptyString
  | S n' => String " " (indent n')
  end.

Section WithPlatform.
Context {P : Platform}.
Variable CONFIG : Config.
Variable location : Location.

(** [showError(message)]. *)
Definition showError (message : string) : M unit :=
  set_display "loading" "none" ;;
  set_textContent "error-message" message ;;
  set_display "error" "block".

(** [loadPrefixes()]. *)
Definition loadPrefixes : M unit :=
  try_catch
    (match fetch "/assets/data/prefixes.json" "" with
     | Rejected e => throw e
     | Response ok _ body =>
         if ok then (p <- lift (prefixes_of_json body) ;; set_PREFIXES p)
         else ret tt
     end)
    (fun _ => console_log "warn" "Could not load prefixes.json, using defaults").

(** [displayURI()]. *)
Definition displayURI : M unit :=
  u <- gets (fun w => resourceURI (this w)) ;;
  set_textContent "uri-display" (template u) ;;
  set_textContent "document.title" ("Resource: " ++ template u).

(** [executeSPARQLQuery(query)]. *)
Definition executeSPARQLQuery (query : string) : M (list triple) :=
  let url := SPARQL_ENDPOINT CONFIG ++ "?query=" ++ encodeURIComponent query in
  match fetch url "application/n-triples" with
  | Rejected e => throw e
  | Response ok statusText ntriples =>
      if negb ok then throw ("SPARQL query failed: " ++ statusText)
      else lift (N3_parse ntriples)
  end.

(** [parseResource()]. *)
Definition parseResource : M unit :=
  ts <- gets (fun w => triples (this w)) ;;
  set_types (List.map (fun t => value (object t))
               (filter (fun t => value (predicate t) =? NS.RDF ++ "type") ts)) ;;
  let geometryTriples :=
    filter (fun t => value (predicate t) =? NS.GSP ++ "hasGeometry") ts in
  match geometryTriples with
  | t :: _ => set_geometryNode (Some (value (object t)))
  | [] => ret tt
  end.

(** [renderProperties()]. *)
Definition renderProperties : M unit :=
  set_properties_tbody [] ;;
  a <- gets this ;;
  grouped <- lift (grouped_of (resourceURI a) (triples a)) ;;
  set_properties_tbody (rows_of grouped) ;;
  set_display "properties" "block".

(** [initializeGraph(quads, ...)] of [graph-viewer.js]. *)
Definition initializeGraph (quads : list triple) : M unit :=
  match quads with
  | [] => ret tt
  | _ :: _ =>
      lift (graph_draw quads) ;;
      set_display "graph-section" "block"
  end.

(** The [try] block of [checkForGeometry()]. *)
Definition geometry_lookup (node : option string) : M unit :=
  let wktQuery :=
    newline ++ indent 16 ++ "SELECT ?wkt WHERE {" ++
    newline ++ indent 20 ++ "<" ++ template node ++ "> <" ++ NS.GSP ++ "asWKT> ?wkt ." ++
    newline ++ indent 16 ++ "}" ++
    newline ++ indent 12 in
  let url := SPARQL_ENDPOINT CONFIG ++ "?query=" ++ encodeURIComponent wktQuery in
  match fetch url "application/sparql-results+json" with
  | Rejected e => throw e
  | Response ok _ body =>
      if negb ok then throw "WKT query failed"
      else
        bindings <- lift (bindings_of_json body) ;;
        match bindings with
        | [] => ret tt
        | b :: _ =>
            match obj_get "wkt" b with
            | None => throw "Cannot read properties of undefined (reading 'value')"
            | Some wkt =>
                set_wktLiteral (Some wkt) ;;
                set_textContent "wkt-code" wkt ;;
                set_display "map" "block" ;;
                initializeMap wkt
            end
        end
  end.

(** [checkForGeometry()].  [map-viewer.js] has put [initializeMap] on
    [window], so the [typeof] test holds. *)
Definition checkForGeometry : M unit :=
  node <- gets (fun w => geometryNode (this w)) ;;
  if negb (match node with Some n => truthy n | None => false end) then ret tt
  else
    try_catch (geometry_lookup node)
      (fun error => console_log "error" ("Error fetching geometry: " ++ error)).

(** [renderSeeAlso(resources, typeURI)]. *)
Definition renderSeeAlso (resources : list string) (typeURI : string) : M unit :=
  set_display "see-also-loading" "none" ;;
  set_see_also_list [] ;;
  set_see_also_list (List.map (fun resourceURI => (resourceURI, typeURI)) resources) ;;
  set_display "see-also" "block".

(** The [try] block of [loadSameClassResources()]. *)
Definition same_class_lookup (typeURI : string) : M unit :=
  u <- gets (fun w => resourceURI (this w)) ;;
  let sameClassQuery :=
    newline ++ indent 16 ++ "SELECT DISTINCT ?resource WHERE {" ++
    newline ++ indent 20 ++ "?resource a <" ++ typeURI ++ "> ." ++
    newline ++ indent 20 ++ "FILTER(?resource != <" ++ template u ++ ">)" ++
    newline ++ indent 16 ++ "}" ++
    newline ++ indent 16 ++ "LIMIT 10" ++
    newline ++ indent 12 in
  let url := SPARQL_ENDPOINT CONFIG ++ "?query=" ++ encodeURIComponent sameClassQuery in
  match fetch url "application/sparql-results+json" with
  | Rejected e => throw e
  | Response ok _ body =>
      if negb ok then throw "Same-class query failed"
      else
        bindings <- lift (bindings_of_json body) ;;
        resources <- lift (mapC_list
          (fun b => match obj_get "resource" b with
                    | Some v => Normal v
                    | None => Throw "Cannot read properties of undefined (reading 'value')"
                    end) bindings) ;;
        match resources with
        | [] => ret tt
        | _ :: _ => renderSeeAlso resources typeURI
        end
  end.

(** [loadSameClassResources()]. *)
Definition loadSameClassResources : M unit :=
  tys <- gets (fun w => types (this w)) ;;
  match tys with
  | [] => ret tt
  | typeURI :: _ =>
      try_catch (same_class_lookup typeURI)
        (fun error =>
           console_log "error" ("Error loading same-class resources: " ++ error) ;;
           set_display "see-also-loading" "none")
  end.

(** [loadResource()]. *)
Definition loadResource : M unit :=
  try_catch
    (set_display "loading" "block" ;;
     u <- gets (fun w => resourceURI (this w)) ;;
     let describeQuery := "DESCRIBE <" ++ template u ++ ">" in
     ts <- executeSPARQLQuery describeQuery ;;
     match ts with
     | [] => showError ("No data found for resource: " ++ template u)
     | _ :: _ =>
         set_triples ts ;;
         parseResource ;;
         renderProperties ;;
         try_catch (initializeGraph ts)
           (fun graphError => console_log "warn" ("Graph rendering failed: " ++ graphError)) ;;
         checkForGeometry ;;
         loadSameClassResources ;;
         set_display "loading" "none"
     end)
    (fun error =>
       console_log "error" ("Error loading resource: " ++ error) ;;
       showError ("Failed to load resource: " ++ error)).

(** [init()].  The click handlers installed by [setupRDFFormatLinks] and
    [setupCopyButton] run only on a later click and are left out. *)
Definition init : M unit :=
  loadPrefixes ;;
  uri <- lift (extractURIFromPath CONFIG location) ;;
  set_resourceURI uri ;;
  if negb (match uri with Some u => truthy u | None => false end)
  then showError "No URI specified. Please provide a resource URI in the path."
  else displayURI ;; loadResource.

End WithPlatform.

End Dereferencer.

Export Dereferencer.

(* ===================================================================== *)
(** ** [dereferencer.js]: link markup and raw RDF downloads *)
(* ===================================================================== *)

Module Rendering.

(** [s.split(':')]: the pieces between the colons, at least one. *)
Fixpoint split_colon (s : string) : list string :=
  match s with
  | EmptyString => [EmptyString]
  | String c s' =>
      if Ascii.eqb c ":" then EmptyString :: split_colon s'
      else match split_colon s' with
           | piece :: pieces => String c piece :: pieces
           | [] => [String c EmptyString]
           end
  end.

(** [pieces.join(':')]. *)
Definition join_colon (pieces : list string) : string := String.concat ":" pieces.

(** The double quote of the HTML attributes. *)
Definition dq : string := String (ascii_of_nat 34) EmptyString.

Section WithConfig.
Variable CONFIG : Config.
Variable location : Location.
Variable PREFIXES : list (string * string).

(** [localLink || uri] and [localLink ? '' : ' target=...']. *)
Definition href_of (localLink : option string) (uri : string) : string :=
  match localLink with
  | Some l => or_else l uri
  | None => uri
  end.

Definition target_of (localLink : option string) : string :=
  if match localLink with Some l => truthy l | None => false end
  then EmptyString
  else " target=" ++ dq ++ "_blank" ++ dq ++ " rel=" ++ dq ++ "noopener noreferrer" ++ dq.

(** [formatURI(uri)]: the markup of the link. *)
Definition formatURI (uri : string) : string :=
  let shortened := shortenURI PREFIXES uri in
  let localLink := makeLocalLink CONFIG location uri in
  let href := href_of localLink uri in
  let target := target_of localLink in
  if negb (shortened =? uri) then
    let parts := split_colon shortened in
    "<a href=" ++ dq ++ href ++ dq ++ " class=" ++ dq ++ "property-uri" ++ dq
    ++ " title=" ++ dq ++ uri ++ dq ++ target ++ ">"
    ++ "<span class=" ++ dq ++ "property-prefix" ++ dq ++ ">"
    ++ hd EmptyString parts ++ ":</span>"
    ++ "<span class=" ++ dq ++ "property-label" ++ dq ++ ">"
    ++ join_colon (tl parts) ++ "</span></a>"
  else
    "<a href=" ++ dq ++ href ++ dq ++ " class=" ++ dq ++ "property-uri" ++ dq
    ++ " title=" ++ dq ++ uri ++ dq ++ target ++ ">" ++ uri ++ "</a>".

End WithConfig.

Section WithPlatform.
Context {P : Platform}.
Variable CONFIG : Config.

(** The table [formats] of [setupRDFFormatLinks]: element id, [Accept]
    header and label. *)
Definition formats : list (string * (string * string)) :=
  [("link-turtle", ("text/turtle", "Turtle"));
   ("link-rdfxml", ("application/rdf+xml", "RDF/XML"));
   ("link-jsonld", ("application/ld+json", "JSON-LD"))].

(** [showRDFFormat(accept, label)]. *)
Definition showRDFFormat (accept label : string) : M unit :=
  set_textContent "rdf-viewer-title" label ;;
  set_textContent "rdf-code" "Loading..." ;;
  set_display "rdf-viewer" "block" ;;
  try_catch
    (u <- gets (fun w => resourceURI (this w)) ;;
     let query := "DESCRIBE <" ++ template u ++ ">" in
     let url := SPARQL_ENDPOINT CONFIG ++ "?query=" ++ encodeURIComponent query in
     match fetch url accept with
     | Rejected e => throw e
     | Response ok statusText body =>
         if negb ok then throw statusText
         else set_textContent "rdf-code" body
     end)
    (fun err => set_textContent "rdf-code" ("Error fetching " ++ label ++ ": " ++ err)).

(** The click handler that [setupRDFFormatLinks] installs on the element
    [id]; nothing happens on an element outside the table. *)
Definition format_link_clicked (id : string) : M unit :=
  match obj_get id formats with
  | Some fmt => showRDFFormat (fst fmt) (snd fmt)
  | None => ret tt
  end.

(** The click handler of [rdf-close]. *)
Definition rdf_close_clicked : M unit := set_display "rdf-viewer" "none".

End WithPlatform.

End Rendering.

Export Rendering.

(* ===================================================================== *)
(** ** [dereferencer.js]: the elements of values and of the see-also list *)
(* ===================================================================== *)

Module Elements.

(** An [a] element as the two functions fill it in; [None] is a property
    that was not set.  [a_onclick] is the address the click handler
    assigns to [window.location.href]. *)
Record Anchor : Type := mkAnchor {
  a_className : string;
  a_title : string;
  a_textContent : string;
  a_href : string;
  a_target : option string;
  a_rel : option string;
  a_onclick : option string
}.

(** The children of the [span] that [formatValue] returns. *)
Inductive Child : Type :=
  | Link (a : Anchor)
  | Span (className textContent : string).

Record ValueSpan : Type := mkValueSpan {
  span_children : list Child;
  span_textContent : option string
}.

Section WithConfig.
Variable CONFIG : Config.
Variable location : Location.
Variable PREFIXES : list (string * string).

(** [formatValue(node)]. *)
Definition formatValue (node : term) : ValueSpan :=
  match kind node with
  | NamedNode =>
      let localLink := makeLocalLink CONFIG location (value node) in
      let link :=
        match localLink with
        | Some l =>
            if truthy l
            then mkAnchor "value-uri" (value node) (shortenURI PREFIXES (value node))
                          l None None (Some l)
            else mkAnchor "value-uri" (value node) (shortenURI PREFIXES (value node))
                          (value node) (Some "_blank") (Some "noopener noreferrer") None
        | None =>
            mkAnchor "value-uri" (value node) (shortenURI PREFIXES (value node))
                     (value node) (Some "_blank") (Some "noopener noreferrer") None
        end in
      mkValueSpan [Link link] None
  | Literal =>
      let literalSpan := [Span "value-literal" (value node)] in
      let langSpan :=
        if truthy (language node)
        then [Span "value-lang" ("@" ++ language node)] else [] in
      let dtSpan :=
        match datatype node with
        | Some d =>
            if negb (d =? NS.XSD ++ "string")
            then [Span "value-datatype" ("^^" ++ shortenURI PREFIXES d)] else []
        | None => []
        end in
      mkValueSpan (literalSpan ++ langSpan ++ dtSpan)%list None
  | BlankNode => mkValueSpan [] (Some (value node))
  end.

(** The link and the type line of one item of [renderSeeAlso]. *)
Definition resource_link (resourceURI : string) : Anchor :=
  let localLink := makeLocalLink CONFIG location resourceURI in
  match localLink with
  | Some l =>
      if truthy l
      then mkAnchor "resource-link" resourceURI (shortenURI PREFIXES resourceURI)
                    l None None (Some l)
      else mkAnchor "resource-link" resourceURI (shortenURI PREFIXES resourceURI)
                    resourceURI (Some "_blank") (Some "noopener noreferrer") None
  | None =>
      mkAnchor "resource-link" resourceURI (shortenURI PREFIXES resourceURI)
               resourceURI (Some "_blank") (Some "noopener noreferrer") None
  end.

Definition resource_type (typeURI : string) : string :=
  "Type: " ++ shortenURI PREFIXES typeURI.

End WithConfig.

End Elements.

Export Elements.

(* ===================================================================== *)
(** ** [graph-viewer.js] *)
(* ===================================================================== *)

Module GraphViewer.

(** A term of a SPARQL-style binding, as the graph plugin reads it;
    [None] is [undefined]. *)
Record bound : Type := mkBound {
  bound_value : string;
  bound_type : string;
  bound_datatype : option string;
  bound_lang : option string
}.

Record graph_binding : Type := mkGraphBinding {
  binding_subject : bound;
  binding_predicate : bound;
  binding_object : bound
}.

(** [quadsToBindings(quads)]. *)
Definition quadsToBindings (quads : list triple) : list graph_binding :=
  List.map
    (fun q =>
       mkGraphBinding
         (mkBound (value (subject q))
                  (match kind (subject q) with BlankNode => "bnode" | _ => "uri" end)
                  None None)
         (mkBound (value (predicate q)) "uri" None None)
         (mkBound (value (object q))
                  (match kind (object q) with
                   | Literal => "literal"
                   | BlankNode => "bnode"
                   | NamedNode => "uri"
                   end)
                  (datatype (object q))
                  (if truthy (language (object q))
                   then Some (language (object q)) else None)))
    quads.

(** [Object.fromEntries(Object.entries(prefixes).map(([uri, name]) => [name, uri]))]:
    the prefix map the plugin expects, from prefix name to namespace. *)
Definition invertedPrefixes (prefixes : list (string * string)) : list (string * string) :=
  fold_left (fun o entry => obj_set (snd entry) (fst entry) o) prefixes [].

End GraphViewer.

Export GraphViewer.

(* ===================================================================== *)
(** ** Vocabulary of the statements *)
(* ===================================================================== *)

(** The values stored under a key; none for an absent key. *)
Definition values_under (p : string) (grouped : list (string * list term)) : list term :=
  match obj_get p grouped with
  | Some values => values
  | None => []
  end.

(** A triple of the resource whose predicate names a property inherited
    from [Object.prototype], and a list that holds one. *)
Definition clash (resourceURI : option string) (t : triple) : bool :=
  strict_eq (value (subject t)) resourceURI && inherited (value (predicate t)).

Definition clashes (resourceURI : option string) (ts : list triple) : bool :=
  existsb (clash resourceURI) ts.

(** The grouping of triples none of which clashes: every key is an own
    property. *)
Definition group_own (resourceURI : option string)
  (grouped : list (string * list term)) (t : triple) : list (string * list term) :=
  if strict_eq (value (subject t)) resourceURI then
    let pred := value (predicate t) in
    let grouped1 :=
      match obj_get pred grouped with
      | None => obj_set pred [] grouped
      | Some _ => grouped
      end in
    match obj_get pred grouped1 with
    | Some values => obj_set pred (values ++ [object t])%list grouped1
    | None => grouped1
    end
  else grouped.

Definition own_groups (resourceURI : option string) (ts : list triple)
  : list (string * list term) :=
  fold_left (group_own resourceURI) ts [].

(** A triple whose subject is the resource and whose predicate is [p]. *)
Definition about (resourceURI : option string) (p : string) (t : triple) : bool :=
  strict_eq (value (subject t)) resourceURI && (value (predicate t) =? p).

(** Every character of [s] satisfies [f]. *)
Fixpoint all_chars (f : ascii -> bool) (s : string) : bool :=
  match s with
  | String c s' => f c && all_chars f s'
  | EmptyString => true
  end.

(** [s] begins with a character that satisfies [f]. *)
Definition head_is (f : ascii -> bool) (s : string) : bool :=
  match s with
  | String c _ => f c
  | EmptyString => false
  end.

(** [s] is [literal] up to the case of ASCII letters. *)
Fixpoint same_ci (literal s : string) : bool :=
  match literal, s with
  | EmptyString, EmptyString => true
  | String a literal', String b s' => eqb_ci a b && same_ci literal' s'
  | _, _ => false
  end.

(** The result of [parseWKT] when the WKT library is handed [text] and the
    spatial reference found is [srid]. *)
Definition parsed_as {P : Platform} (srid : option float) (text : string)
  : completion (option geometry * option float) :=
  bindC (wktToGeoJSON text) (fun geojson => Normal (geojson, srid)).

(** The page-level error state and the property table are the same in two
    worlds. *)
Definition same_primary (w w' : World) : Prop :=
  display (document w') "error" = display (document w) "error" /\
  textContent (document w') "error-message"
  = textContent (document w) "error-message" /\
  display (document w') "properties" = display (document w) "properties" /\
  properties_tbody (document w') = properties_tbody (document w).

(** A computation that leaves the error state and the property table
    alone, however it completes. *)
Definition keeps_primary {A : Type} (m : M A) : Prop :=
  forall w, same_primary w (snd (m w)).

(** A step that never throws. *)
Definition swallows (m : M unit) : Prop :=
  forall w, fst (m w) = Normal tt.

(** A step that completes normally whatever happens inside it, and leaves
    the error state and the property table alone. *)
Definition isolated (m : M unit) : Prop :=
  forall w, fst (m w) = Normal tt /\ same_primary w (snd (m w)).

(** The URL of the DESCRIBE request for the resource of the page. *)
Definition describe_url {P : Platform} (CONFIG : Config) (w : World) : string :=
  SPARQL_ENDPOINT CONFIG ++ "?query="
  ++ encodeURIComponent ("DESCRIBE <" ++ template (resourceURI (this w)) ++ ">").

(** The URL of the request for the WKT literal of a geometry node. *)
Definition wkt_url {P : Platform} (CONFIG : Config) (node : option string) : string :=
  SPARQL_ENDPOINT CONFIG ++ "?query="
  ++ encodeURIComponent
       (newline ++ indent 16 ++ "SELECT ?wkt WHERE {" ++
        newline ++ indent 20 ++ "<" ++ template node ++ "> <" ++ NS.GSP ++ "asWKT> ?wkt ." ++
        newline ++ indent 16 ++ "}" ++
        newline ++ indent 12).

(** What [initializeMap] logs for a literal it cannot show: the WKT library
    throws on it, or returns no geometry for it, or the conversion of its
    geometry from a projection of the built-in table throws. *)
Definition map_failure {P : Platform} (wktLiteral text : string) : Prop :=
  (exists e, parseWKT wktLiteral = Throw e /\
             text = "Error initializing map: " ++ e) \/
  (exists srid, parseWKT wktLiteral = Normal (None, srid) /\
                text = "Failed to parse WKT") \/
  (exists g x definition e,
     parseWKT wktLiteral = Normal (Some g, Some x) /\
     srid_and_not_4326 (Some x) = true /\
     commonProjections x = Some definition /\
     transformGeoJSON g definition = Throw e /\
     text = "Error initializing map: " ++ e).

(** A geometry pointer that [checkForGeometry] follows: neither [null] nor
    empty. *)
Definition points_somewhere (node : option string) : bool :=
  match node with
  | Some n => truthy n
  | None => false
  end.

(** The URL of the request for the resources of a type other than the
    resource of the page. *)
Definition same_class_url {P : Platform} (CONFIG : Config)
  (typeURI : string) (resourceURI : option string) : string :=
  SPARQL_ENDPOINT CONFIG ++ "?query="
  ++ encodeURIComponent
       (newline ++ indent 16 ++ "SELECT DISTINCT ?resource WHERE {" ++
        newline ++ indent 20 ++ "?resource a <" ++ typeURI ++ "> ." ++
        newline ++ indent 20 ++ "FILTER(?resource != <" ++ template resourceURI ++ ">)" ++
        newline ++ indent 16 ++ "}" ++
        newline ++ indent 16 ++ "LIMIT 10" ++
        newline ++ indent 12).

(** The [?resource] values of a list of solutions, when every solution
    binds the variable. *)
Definition resources_of (bindings : list binding) : completion (list string) :=
  mapC_list
    (fun b => match obj_get "resource" b with
              | Some v => Normal v
              | None => Throw "Cannot read properties of undefined (reading 'value')"
              end) bindings.

(** What [parseResource] reads of a triple. *)
Definition predicate_and_object (t : triple) : term * term :=
  (predicate t, object t).

(** An SRID that is not the number zero: no SRID, or a truthy Number. *)
Definition not_zero (srid : option float) : Prop :=
  forall x, srid = Some x -> truthy_number x = true.

(** A string with a colon in it. *)
Fixpoint has_colon (s : string) : bool :=
  match s with
  | String c s' => Ascii.eqb c ":" || has_colon s'
  | EmptyString => false
  end.

(** The term kind a binding type stands for. *)
Definition kind_of_type (t : string) : termType :=
  if t =? "literal" then Literal
  else if t =? "bnode" then BlankNode
  else NamedNode.

(** The N3.js term a bound term of the graph plugin stands for, and the
    quad of a binding. *)
Definition term_of_bound (b : bound) : term :=
  mkTerm (kind_of_type (bound_type b)) (bound_value b)
         (match bound_lang b with Some l => l | None => EmptyString end)
         (bound_datatype b).

Definition quad_of_binding (b : graph_binding) : triple :=
  mkTriple (term_of_bound (binding_subject b))
           (term_of_bound (binding_predicate b))
           (term_of_bound (binding_object b)).

(** A term that is an IRI or a blank node, as the subject of an RDF triple
    is, and a term that is an IRI, as its predicate is. *)
Definition resource_term (t : term) : bool :=
  match kind t, datatype t with
  | Literal, _ => false
  | _, Some _ => false
  | _, None => language t =? ""
  end.

Definition iri_term (t : term) : bool :=
  match kind t with NamedNode => resource_term t | _ => false end.

Definition rdf_quad (q : triple) : bool :=
  resource_term (subject q) && iri_term (predicate q).

(* ===================================================================== *)
(** ** Test doubles *)
(* ===================================================================== *)

(** Stand-ins for the external collaborators, used only to run the code on
    concrete inputs: a percent-decoder for escapes below 0x80 (a malformed
    or larger escape is reported as [URIError]), a table of WKT texts, a
    converter that shifts the first ordinate, and a network and parsers
    supplied by each example. *)
Module Doubles.

Definition hexValue (c : ascii) : option nat :=
  let n := nat_of_ascii c in
  if Nat.leb 48 n && Nat.leb n 57 then Some (n - 48)
  else if Nat.leb 65 n && Nat.leb n 70 then Some (n - 55)
  else if Nat.leb 97 n && Nat.leb n 102 then Some (n - 87)
  else None.

Fixpoint decode_ascii (s : string) : completion string :=
  match s with
  | EmptyString => Normal EmptyString
  | String "%"%char (String h (String l rest)) =>
      match hexValue h, hexValue l with
      | Some a, Some b =>
          if Nat.ltb (16 * a + b) 128
          then mapC (String (ascii_of_nat (16 * a + b))) (decode_ascii rest)
          else Throw "URI malformed"
      | _, _ => Throw "URI malformed"
      end
  | String c rest =>
      if Ascii.eqb c "%"%char then Throw "URI malformed"
      else mapC (String c) (decode_ascii rest)
  end.

Definition point (x y : float) : geometry := Geometry "Point" (Pos x [y]).

Definition wkt_table (wkt : string) : completion (option geometry) :=
  if wkt =? "POINT(150000 150000)" then Normal (Some (point 150000 150000))
  else if wkt =? "POINT(4.35 50.85)" then Normal (Some (point 4.35 50.85))
  else if wkt =? "POINT(1 2)" then Normal (Some (point 1 2))
  else if wkt =? "LINESTRING(0 0,1 1)"
       then Normal (Some (Geometry "LineString" (Arr [Pos 0 [0%float]; Pos 1 [1%float]])))
  else if wkt =? "GEOMETRYCOLLECTION(POINT(1 2))"
       then Normal (Some (GeometryCollection [point 1 2]))
  else if wkt =? "POINT EMPTY" then Normal None
  else Throw "Invalid WKT".

(** The text of two Numbers that are no integers below 2^53. *)
Definition numbers_table (x : float) : string :=
  if PrimFloat.eqb x 9007199254740992 then "9007199254740992"
  else if PrimFloat.eqb x 1e21 then "1e+21"
  else "Infinity".

Definition shift (p : float * list float) : completion (float * list float) :=
  Normal (PrimFloat.add (fst p) 1, snd p).

Definition test_platform
  (net : string -> string -> fetched)
  (ntriples : string -> completion (list triple))
  (results : string -> completion (list binding)) : Platform :=
  {| decodeURIComponent := decode_ascii;
     encodeURIComponent := fun s => s;
     Number_toString := numbers_table;
     fetch := net;
     N3_parse := ntriples;
     bindings_of_json := results;
     prefixes_of_json := fun _ => Normal [];
     wktToGeoJSON := wkt_table;
     proj4 := fun _ => Normal shift;
     graph_draw := fun _ => Normal tt |}.

(** A platform with no network. *)
Definition offline : Platform :=
  test_platform (fun _ _ => Rejected "Failed to fetch")
                (fun _ => Normal []) (fun _ => Normal []).

(** The page served in production, at the entity namespace, and in
    testing, on a local port; [CONFIG] as [config.js] sets it on each. *)
Definition production (path : string) : Location :=
  mkLocation "https://data.matdata.eu" path.

Definition testing (path : string) : Location :=
  mkLocation "http://localhost:8080" path.

Definition example_CONFIG : Config :=
  CONFIG_of "https://jena.matdata.eu/rinf/sparql" "https://data.matdata.eu"
            (production "/").

Definition testing_CONFIG : Config :=
  CONFIG_of "https://jena.matdata.eu/rinf/sparql" "https://data.matdata.eu"
            (testing "/").

(** A page on which every section is hidden and nothing is loaded. *)
Definition blank : World :=
  mkWorld constructor (mkPage (fun _ => "none") (fun _ => "") [] [])
          [] (mkViewer false None None []) [].

Definition with_app (a : App) (w : World) : World :=
  mkWorld a (document w) (PREFIXES w) (viewer w) (console w).

(** An endpoint that answers every query with one solution binding [?wkt]
    to a text that is no WKT. *)
Definition garbled_geometry : Platform :=
  test_platform (fun _ _ => Response true "OK" "{}")
                (fun _ => Normal [])
                (fun _ => Normal [[("wkt", "POINT(")]]).

(** An endpoint that has nothing about any resource. *)
Definition empty_endpoint : Platform :=
  test_platform (fun _ _ => Response true "OK" "")
                (fun _ => Normal []) (fun _ => Normal []).

(** An endpoint that is out of service. *)
Definition unavailable : Platform :=
  test_platform (fun _ _ => Response false "Service Unavailable" "")
                (fun _ => Normal []) (fun _ => Normal []).

(** A page whose resource points to a geometry and has a type. *)
Definition with_geometry : World :=
  with_app
    (mkApp (Some "http://example.org/r") [] ["http://example.org/C"]
           (Some "http://example.org/g") None)
    blank.

(** A page that has only resolved its resource. *)
Definition resolved : World :=
  with_app (mkApp (Some "http://example.org/r") [] [] None None) blank.

(** An endpoint that knows two more resources of every type. *)
Definition related_endpoint : Platform :=
  test_platform (fun _ _ => Response true "OK" "{}")
                (fun _ => Normal [])
                (fun _ => Normal [[("resource", "http://example.org/a")];
                                  [("resource", "http://example.org/b")]]).

(** An endpoint whose answers are no N-Triples. *)
Definition garbled_endpoint : Platform :=
  test_platform (fun _ _ => Response true "OK" "<http://example.org/r> <")
                (fun _ => Throw "Unexpected end of input")
                (fun _ => Normal []).

(** Two descriptions that differ in their subjects only. *)
Definition described (s : string) : World :=
  with_app
    (mkApp (Some "http://example.org/r")
       [mkTriple (iri s) (iri (NS.RDF ++ "type")) (iri "http://example.org/C");
        mkTriple (iri s) (iri (NS.GSP ++ "hasGeometry")) (iri "http://example.org/g")]
       [] None None)
    blank.

(** Two responses with the same values for each property of the resource,
    in a different interleaving and with a triple about another subject. *)
Definition interleaved_a : World :=
  with_app
    (mkApp (Some "http://example.org/r")
       [mkTriple (iri "http://example.org/r") (iri "http://example.org/p") (plain "1");
        mkTriple (iri "http://example.org/r") (iri "http://example.org/q") (plain "2");
        mkTriple (iri "http://example.org/r") (iri "http://example.org/p") (plain "3")]
       [] None None)
    blank.

Definition interleaved_b : World :=
  with_app
    (mkApp (Some "http://example.org/r")
       [mkTriple (iri "http://example.org/s") (iri "http://example.org/p") (plain "0");
        mkTriple (iri "http://example.org/r") (iri "http://example.org/q") (plain "2");
        mkTriple (iri "http://example.org/r") (iri "http://example.org/p") (plain "1");
        mkTriple (iri "http://example.org/r") (iri "http://example.org/p") (plain "3")]
       [] None None)
    blank.

(** A description of the resource with a label and, under the relative
    IRI [<constructor>], one more value; and an endpoint that returns it. *)
Definition constructor_triples : list triple :=
  [mkTriple (iri "http://example.org/r") (iri (NS.RDFS ++ "label")) (plain "r");
   mkTriple (iri "http://example.org/r") (iri "constructor") (plain "x")].

Definition constructor_predicate : World :=
  with_app (mkApp (Some "http://example.org/r") constructor_triples [] None None)
           blank.

Definition constructor_endpoint : Platform :=
  test_platform (fun _ _ => Response true "OK" "")
                (fun _ => Normal constructor_triples) (fun _ => Normal []).

(** A resource with two values of one property. *)
Definition two_values : World :=
  with_app
    (mkApp (Some "http://example.org/r")
       [mkTriple (iri "http://example.org/r") (iri "http://example.org/p")
                 (plain "first");
        mkTriple (iri "http://example.org/r") (iri "http://example.org/p")
                 (plain "second")]
       [] None None)
    blank.

End Doubles.

(** Libraries that fail: a WKT reader that throws on every text but one, a
    [proj4] that refuses a definition that is no projection string and whose
    converters refuse every position, and a network that answers every
    request with an error page. *)
Module Faults.

Definition failing_libraries : Platform :=
  {| decodeURIComponent := Doubles.decode_ascii;
     encodeURIComponent := fun s => s;
     Number_toString := Doubles.numbers_table;
     fetch := fun _ _ => Response false "Not Found" "<html>";
     N3_parse := fun _ => Normal [];
     bindings_of_json := fun _ => Normal [];
     prefixes_of_json := fun _ => Throw "Unexpected token < in JSON";
     wktToGeoJSON := fun wkt =>
       if wkt =? "POINT(1 2)" then Normal (Some (Doubles.point 1 2))
       else Throw "Invalid WKT";
     proj4 := fun definition =>
       if startsWith definition "+proj="
       then Normal (fun _ => Throw "coordinates must be finite numbers")
       else Throw "Could not parse to valid json";
     graph_draw := fun _ => Normal tt |}.

(** A page whose map shows a point read from a literal with SRID 27700. *)
Definition drawn : World :=
  mkWorld constructor (mkPage (fun _ => "none") (fun _ => "") [] []) []
          (mkViewer true (Some (Doubles.point 1 2)) (Some (Doubles.point 1 2))
                    [27700%float]) [].

End Faults.

(* ===================================================================== *)
(** * Properties *)
(* ===================================================================== *)

(** ** Strings *)

Lemma startsWith_append (p r : string) : startsWith (p ++ r) p = true.
Proof.
  unfold startsWith. induction p as [|a p IH]; simpl.
  - now destruct r.
  - destruct (ascii_dec a a) as [_|n]; [exact IH | now elim n].
Qed.

Lemma substring_from_append (p r : string) :
  substring_from (String.length p) (p ++ r) = r.
Proof. induction p as [|a p IH]; simpl; [reflexivity | exact IH]. Qed.

Lemma startsWith_split (s p : string) :
  startsWith s p = true -> s = p ++ substring_from (String.length p) s.
Proof.
  unfold startsWith. revert s.
  induction p as [|a p IH]; intros s H.
  - reflexivity.
  - destruct s as [|b s]; simpl in H; [discriminate|].
    destruct (ascii_dec a b) as [->|]; [|discriminate].
    simpl. f_equal. now apply IH.
Qed.

Lemma startsWith_iff (s p : string) :
  startsWith s p = true <-> exists r, s = p ++ r.
Proof.
  split.
  - intros H. eexists. now apply startsWith_split.
  - intros [r ->]. apply startsWith_append.
Qed.

Lemma truthy_false (s : string) : truthy s = false <-> s = "".
Proof.
  unfold truthy. destruct (String.eqb_spec s ""); simpl; split; congruence.
Qed.

Lemma or_else_slash (s : string) :
  or_else s "/" = if s =? "" then "/" else s.
Proof. unfold or_else, truthy. now destruct (s =? ""). Qed.

(** ** URI resolver *)

Section ResolverFacts.
Context {P : Platform}.
Variable CONFIG : Config.

Lemma extractURIFromPath_unfold (o r : string) :
  extractURIFromPath CONFIG (mkLocation o (String "/" r)) =
    if (r =? "") || (r =? "/") then Normal None
    else if startsWith r "http://" || startsWith r "https://"
         then mapC Some (decodeURIComponent r)
         else Normal (Some (BASE_URI CONFIG ++ "/" ++ r)).
Proof.
  unfold extractURIFromPath, truthy. simpl pathname. simpl substring_from.
  now rewrite negb_involutive.
Qed.

(** C1, as amended.  Let [r] be the request path with its leading slash
    removed.  If [r] is empty or is the single character [/] (the path was
    empty, [/] or [//]), [extractURIFromPath] yields [null], the "no URI
    supplied" signal.  If [r] begins with [http://] or [https://], the
    outcome is that of percent-decoding [r]: the decoded string, or the
    decoder's error.  For every other [r], [ftp://...] included, it
    returns the base origin, a slash and [r], undecoded. *)
Theorem extractURIFromPath_resolves (o r : string) :
  extractURIFromPath CONFIG (mkLocation o "") = Normal None /\
  (r = "" \/ r = "/" ->
   extractURIFromPath CONFIG (mkLocation o ("/" ++ r)) = Normal None) /\
  (startsWith r "http://" = true \/ startsWith r "https://" = true ->
   extractURIFromPath CONFIG (mkLocation o ("/" ++ r))
   = mapC Some (decodeURIComponent r)) /\
  (r <> "" -> r <> "/" ->
   startsWith r "http://" = false -> startsWith r "https://" = false ->
   extractURIFromPath CONFIG (mkLocation o ("/" ++ r))
   = Normal (Some (BASE_URI CONFIG ++ "/" ++ r))).
Proof.
  split; [reflexivity|].
  change ("/" ++ r) with (String "/" r).
  rewrite extractURIFromPath_unfold.
  repeat split.
  - intros [-> | ->]; reflexivity.
  - intros H.
    assert (Hp : startsWith r "http://" || startsWith r "https://" = true)
      by (apply orb_true_iff; exact H).
    rewrite Hp.
    destruct (String.eqb_spec r "") as [->|_];
      [destruct H as [H|H]; cbv in H; discriminate|].
    destruct (String.eqb_spec r "/") as [->|_];
      [destruct H as [H|H]; cbv in H; discriminate|].
    reflexivity.
  - intros H1 H2 H3 H4.
    apply String.eqb_neq in H1, H2. now rewrite H1, H2, H3, H4.
Qed.

End ResolverFacts.

(** C1, as stated, fails on the path [//]: there [r] is [/], which is not
    empty and carries no scheme, yet the result is [null] and not the base
    origin followed by [//]. *)
Lemma extractURIFromPath_double_slash :
  "/" <> "" /\
  startsWith "/" "http://" = false /\ startsWith "/" "https://" = false /\
  extractURIFromPath (P := Doubles.offline) Doubles.example_CONFIG
    (Doubles.production ("/" ++ "/")) = Normal None /\
  extractURIFromPath (P := Doubles.offline) Doubles.example_CONFIG
    (Doubles.production ("/" ++ "/"))
  <> Normal (Some (BASE_URI Doubles.example_CONFIG ++ "/" ++ "/")).
Proof. repeat split; try reflexivity; discriminate. Qed.

Lemma extractURIFromPath_resolves_witness :
  extractURIFromPath (P := Doubles.offline) Doubles.testing_CONFIG
    (Doubles.testing "/http://example.org/a%20b")
  = Normal (Some "http://example.org/a b") /\
  extractURIFromPath (P := Doubles.offline) Doubles.example_CONFIG
    (Doubles.production "/ftp://example.org/a%20b")
  = Normal (Some "https://data.matdata.eu/ftp://example.org/a%20b").
Proof.
  split.
  - exact (proj1 (proj2 (proj2
      (extractURIFromPath_resolves (P := Doubles.offline) Doubles.testing_CONFIG
         "http://localhost:8080" "http://example.org/a%20b")))
      (or_introl eq_refl)).
  - apply (proj2 (proj2 (proj2
      (extractURIFromPath_resolves (P := Doubles.offline) Doubles.example_CONFIG
         "https://data.matdata.eu" "ftp://example.org/a%20b"))));
      (discriminate || reflexivity).
Defined.

(** ** Local links *)

(** C2.  [makeLocalLink(u)] is non-null exactly when [u] starts with the
    entity namespace [N].  When the page's origin equals [N] the link is
    what follows [N] in [u], or [/] when nothing follows; when the origin
    differs from [N] the link is [/] followed by the whole of [u]. *)
Theorem makeLocalLink_local_iff_prefix (CONFIG : Config) (location : Location) (u : string) :
  (makeLocalLink CONFIG location u <> None <->
   startsWith u (ENTITY_NS CONFIG) = true) /\
  (origin location = ENTITY_NS CONFIG ->
   forall suffix, u = ENTITY_NS CONFIG ++ suffix ->
   makeLocalLink CONFIG location u = Some (if suffix =? "" then "/" else suffix)) /\
  (origin location <> ENTITY_NS CONFIG ->
   startsWith u (ENTITY_NS CONFIG) = true ->
   makeLocalLink CONFIG location u = Some ("/" ++ u)).
Proof.
  unfold makeLocalLink. repeat split.
  - destruct (startsWith u (ENTITY_NS CONFIG)); simpl;
      [reflexivity | intros H; now elim H].
  - intros ->. simpl. destruct (origin location =? ENTITY_NS CONFIG); discriminate.
  - intros Ho suffix ->.
    rewrite startsWith_append, substring_from_append, or_else_slash. simpl.
    apply String.eqb_eq in Ho. now rewrite Ho.
  - intros Ho ->. simpl. apply String.eqb_neq in Ho. now rewrite Ho.
Qed.

Lemma makeLocalLink_local_iff_prefix_witness :
  makeLocalLink Doubles.example_CONFIG (Doubles.production "/x")
    "https://data.matdata.eu/_net_1" = Some "/_net_1" /\
  makeLocalLink Doubles.example_CONFIG (Doubles.production "/x")
    "https://data.matdata.eu" = Some "/" /\
  makeLocalLink Doubles.testing_CONFIG (Doubles.testing "/x")
    "https://data.matdata.eu/_net_1" = Some "/https://data.matdata.eu/_net_1".
Proof.
  split; [|split].
  - exact (proj1 (proj2 (makeLocalLink_local_iff_prefix Doubles.example_CONFIG
             (Doubles.production "/x") "https://data.matdata.eu/_net_1"))
             eq_refl "/_net_1" eq_refl).
  - exact (proj1 (proj2 (makeLocalLink_local_iff_prefix Doubles.example_CONFIG
             (Doubles.production "/x") "https://data.matdata.eu"))
             eq_refl "" eq_refl).
  - apply (proj2 (proj2 (makeLocalLink_local_iff_prefix Doubles.testing_CONFIG
             (Doubles.testing "/x") "https://data.matdata.eu/_net_1")));
      [discriminate | reflexivity].
Defined.

(** ** Prefix shortening *)

Lemma shortenURI_no_match (PREFIXES : list (string * string)) (uri : string) :
  (forall e, In e PREFIXES -> startsWith uri (fst e) = false) ->
  shortenURI PREFIXES uri = uri.
Proof.
  induction PREFIXES as [|[namespace prefix] entries IH]; intros H; simpl.
  - reflexivity.
  - pose proof (H (namespace, prefix) (or_introl eq_refl)) as Hn.
    simpl in Hn. rewrite Hn.
    apply IH. intros e He. apply H. now right.
Qed.

Lemma shortenURI_skip (before rest : list (string * string)) (uri : string) :
  (forall e, In e before -> startsWith uri (fst e) = false) ->
  shortenURI (before ++ rest) uri = shortenURI rest uri.
Proof.
  induction before as [|[namespace prefix] before IH]; intros H; simpl.
  - reflexivity.
  - pose proof (H (namespace, prefix) (or_introl eq_refl)) as Hn.
    simpl in Hn. rewrite Hn.
    apply IH. intros e He. apply H. now right.
Qed.

(** Either some entry is the first to match, or none matches. *)
Lemma shortenURI_scan (PREFIXES : list (string * string)) (uri : string) :
  (exists before namespace prefix after,
     PREFIXES = (before ++ (namespace, prefix) :: after)%list /\
     (forall e, In e before -> startsWith uri (fst e) = false) /\
     startsWith uri namespace = true) \/
  (forall e, In e PREFIXES -> startsWith uri (fst e) = false).
Proof.
  induction PREFIXES as [|[namespace prefix] entries IH].
  - right. intros e [].
  - destruct (startsWith uri namespace) eqn:E.
    + left. exists [], namespace, prefix, entries. repeat split; [intros e []|exact E].
    + destruct IH as [(before & ns & pr & after & -> & Hb & Hm)|Hn].
      * left. exists ((namespace, prefix) :: before), ns, pr, after.
        repeat split; [|exact Hm].
        intros e [<-|He]; [exact E|now apply Hb].
      * right. intros e [<-|He]; [exact E|now apply Hn].
Qed.

(** C7.  [shortenURI] returns the prefix, a colon and what follows the
    namespace in the URI, for the first entry in the scan whose namespace
    the URI starts with; it returns the URI itself when no namespace
    matches.  Hence a result that matches no namespace is returned
    unchanged when shortened again.  The two cases are exhaustive. *)
Theorem shortenURI_first_match (PREFIXES : list (string * string)) (uri : string) :
  (forall before namespace prefix after suffix,
     PREFIXES = (before ++ (namespace, prefix) :: after)%list ->
     (forall e, In e before -> startsWith uri (fst e) = false) ->
     uri = namespace ++ suffix ->
     shortenURI PREFIXES uri = prefix ++ ":" ++ suffix) /\
  ((forall e, In e PREFIXES -> startsWith uri (fst e) = false) ->
   shortenURI PREFIXES uri = uri) /\
  ((forall e, In e PREFIXES -> startsWith (shortenURI PREFIXES uri) (fst e) = false) ->
   shortenURI PREFIXES (shortenURI PREFIXES uri) = shortenURI PREFIXES uri) /\
  ((exists before namespace prefix after,
      PREFIXES = (before ++ (namespace, prefix) :: after)%list /\
      (forall e, In e before -> startsWith uri (fst e) = false) /\
      startsWith uri namespace = true) \/
   (forall e, In e PREFIXES -> startsWith uri (fst e) = false)).
Proof.
  split; [|split; [|split]].
  - intros before namespace prefix after suffix -> Hb ->.
    rewrite shortenURI_skip by exact Hb. simpl.
    now rewrite startsWith_append, substring_from_append.
  - apply shortenURI_no_match.
  - apply shortenURI_no_match.
  - apply shortenURI_scan.
Qed.

Lemma shortenURI_first_match_witness :
  shortenURI [("http://www.w3.org/2000/01/rdf-schema#", "rdfs");
              ("http://www.w3.org/", "w3")]
             "http://www.w3.org/2000/01/rdf-schema#label" = "rdfs:label" /\
  shortenURI [("http://www.w3.org/2000/01/rdf-schema#", "rdfs")] "rdfs:label"
  = "rdfs:label".
Proof.
  split.
  - exact (proj1 (shortenURI_first_match
             [("http://www.w3.org/2000/01/rdf-schema#", "rdfs");
              ("http://www.w3.org/", "w3")]
             "http://www.w3.org/2000/01/rdf-schema#label")
           [] "http://www.w3.org/2000/01/rdf-schema#" "rdfs"
           [("http://www.w3.org/", "w3")] "label" eq_refl
           (fun e (H : In e []) => match H with end) eq_refl).
  - apply (proj1 (proj2 (shortenURI_first_match
             [("http://www.w3.org/2000/01/rdf-schema#", "rdfs")] "rdfs:label"))).
    intros e [<-|[]]. reflexivity.
Defined.

(** ** The geometry pointer *)

Lemma filter_none {A} (f : A -> bool) (l : list A) :
  (forall x, In x l -> f x = false) -> filter f l = [].
Proof.
  induction l as [|x l IH]; intros H; simpl; [reflexivity|].
  rewrite (H x (or_introl eq_refl)). apply IH. intros y Hy. apply H. now right.
Qed.

Lemma filter_first {A} (f : A -> bool) (before after : list A) (x : A) :
  (forall y, In y before -> f y = false) -> f x = true ->
  filter f (before ++ x :: after) = x :: filter f after.
Proof.
  intros Hb Hx. rewrite filter_app, (filter_none f before Hb). simpl.
  now rewrite Hx.
Qed.

Lemma parseResource_run (w : World) :
  fst (parseResource w) = Normal tt /\
  geometryNode (this (snd (parseResource w))) =
    match filter (fun t => value (predicate t) =? NS.GSP ++ "hasGeometry")
                 (triples (this w)) with
    | t :: _ => Some (value (object t))
    | [] => geometryNode (this w)
    end.
Proof.
  cbv beta iota zeta delta
    [parseResource bind gets set_types set_geometryNode on_this modify ret].
  destruct (filter (fun t => value (predicate t) =? NS.GSP ++ "hasGeometry")
                   (triples (this w))); split; reflexivity.
Qed.

(** C6.  After [parseResource], the geometry pointer is (the value of) the
    object of the first triple, in source order, whose predicate is
    [gsp:hasGeometry] -- later such triples are not used -- and it is
    [null], as the constructor left it, when there is no such triple. *)
Theorem parseResource_first_hasGeometry (w : World) :
  let ts := triples (this w) in
  let hasGeometry := fun t => value (predicate t) =? NS.GSP ++ "hasGeometry" in
  let w' := snd (parseResource w) in
  fst (parseResource w) = Normal tt /\
  (forall before t after,
     ts = (before ++ t :: after)%list ->
     (forall t', In t' before -> hasGeometry t' = false) ->
     hasGeometry t = true ->
     geometryNode (this w') = Some (value (object t))) /\
  ((forall t, In t ts -> hasGeometry t = false) ->
   geometryNode (this w) = None ->
   geometryNode (this w') = None) /\
  geometryNode constructor = None.
Proof.
  intros ts hasGeometry w'. subst w'.
  destruct (parseResource_run w) as [Hr Hg]. fold ts hasGeometry in Hg.
  split; [exact Hr|]. split; [|split; [|reflexivity]].
  - intros before t after E Hb Ht.
    now rewrite Hg, E, (filter_first hasGeometry before after t Hb Ht).
  - intros Hn H0. now rewrite Hg, (filter_none hasGeometry ts Hn).
Qed.

Lemma parseResource_first_hasGeometry_witness :
  geometryNode (this (snd (parseResource
    (Doubles.with_app
       (mkApp (Some "http://example.org/r")
          [mkTriple (iri "http://example.org/r") (iri (NS.RDF ++ "type"))
                    (iri "http://example.org/C");
           mkTriple (iri "http://example.org/r") (iri (NS.GSP ++ "hasGeometry"))
                    (iri "http://example.org/g1");
           mkTriple (iri "http://example.org/r") (iri (NS.GSP ++ "hasGeometry"))
                    (iri "http://example.org/g2")]
          [] None None)
       Doubles.blank))))
  = Some "http://example.org/g1".
Proof.
  apply (proj1 (proj2 (parseResource_first_hasGeometry _))
           [mkTriple (iri "http://example.org/r") (iri (NS.RDF ++ "type"))
                     (iri "http://example.org/C")]
           (mkTriple (iri "http://example.org/r") (iri (NS.GSP ++ "hasGeometry"))
                     (iri "http://example.org/g1"))
           [mkTriple (iri "http://example.org/r") (iri (NS.GSP ++ "hasGeometry"))
                     (iri "http://example.org/g2")]).
  - reflexivity.
  - intros t' [<-|[]]. reflexivity.
  - reflexivity.
Defined.

(** ** Property grouping *)

(** *** The order of the rows *)

Lemma ascii_compare_lt_trans (a b c : ascii) :
  Ascii.compare a b = Lt -> Ascii.compare b c = Lt -> Ascii.compare a c = Lt.
Proof.
  unfold Ascii.compare. rewrite !N.compare_lt_iff. apply N.lt_trans.
Qed.

Lemma string_compare_lt_trans (s1 : string) :
  forall s2 s3,
    String.compare s1 s2 = Lt -> String.compare s2 s3 = Lt ->
    String.compare s1 s3 = Lt.
Proof.
  induction s1 as [|a s1 IH]; intros [|b s2] [|c s3]; simpl;
    try discriminate; try reflexivity.
  destruct (Ascii.compare a b) eqn:Eab; try discriminate;
    destruct (Ascii.compare b c) eqn:Ebc; try discriminate; intros H12 H23.
  - apply Ascii.compare_eq_iff in Eab, Ebc. subst.
    assert (E : Ascii.compare c c = Eq) by (unfold Ascii.compare; apply N.compare_refl).
    rewrite E. now apply IH with s2.
  - apply Ascii.compare_eq_iff in Eab. subst. now rewrite Ebc.
  - apply Ascii.compare_eq_iff in Ebc. subst. now rewrite Eab.
  - now rewrite (ascii_compare_lt_trans a b c Eab Ebc).
Qed.

Lemma string_leb_cases (a b : string) :
  String.leb a b = true <-> a = b \/ String.ltb a b = true.
Proof.
  unfold String.leb, String.ltb. split.
  - destruct (String.compare a b) eqn:E; simpl; intros H; try discriminate.
    + left. now apply String.compare_eq_iff.
    + now right.
  - intros [->|H].
    + destruct (String.compare b b) eqn:E; try reflexivity.
      pose proof (String.compare_antisym b b) as A. rewrite E in A.
      simpl in A. discriminate.
    + now destruct (String.compare a b).
Qed.

Lemma string_ltb_trans (a b c : string) :
  String.ltb a b = true -> String.ltb b c = true -> String.ltb a c = true.
Proof.
  unfold String.ltb.
  destruct (String.compare a b) eqn:Eab; try discriminate.
  destruct (String.compare b c) eqn:Ebc; try discriminate.
  now rewrite (string_compare_lt_trans a b c Eab Ebc).
Qed.

Lemma string_leb_trans (a b c : string) :
  String.leb a b = true -> String.leb b c = true -> String.leb a c = true.
Proof.
  rewrite !string_leb_cases.
  intros [->|Hab] [->|Hbc]; auto.
  right. now apply string_ltb_trans with b.
Qed.

Lemma string_ltb_irrefl (a : string) : String.ltb a a = false.
Proof.
  unfold String.ltb. destruct (String.compare a a) eqn:E; try reflexivity.
  pose proof (String.compare_antisym a a) as A. rewrite E in A.
  simpl in A. discriminate.
Qed.

(** The sorted keys: a permutation of the keys, in ascending order. *)
Lemma sort_keys_sorted (l : list string) :
  StronglySorted (fun a b => String.leb a b = true) (KeySort.sort l).
Proof.
  apply KeySort.StronglySorted_sort.
  intros a b c. apply string_leb_trans.
Qed.

Lemma sort_keys_In (l : list string) (k : string) :
  In k (KeySort.sort l) <-> In k l.
Proof.
  split; apply Permutation_in;
    [apply Permutation_sym|]; apply KeySort.Permuted_sort.
Qed.

Lemma sort_keys_NoDup (l : list string) : NoDup l -> NoDup (KeySort.sort l).
Proof. apply Permutation_NoDup, KeySort.Permuted_sort. Qed.

Lemma StronglySorted_strict (l : list string) :
  NoDup l -> StronglySorted (fun a b => String.leb a b = true) l ->
  StronglySorted (fun a b => String.ltb a b = true) l.
Proof.
  induction l as [|a l IH]; intros Hn Hs; [constructor|].
  inversion Hn as [|? ? Ha Hl]; subst.
  inversion Hs as [|? ? Hs' Hall]; subst.
  constructor; [now apply IH|].
  rewrite Forall_forall in *. intros b Hb.
  destruct (proj1 (string_leb_cases a b) (Hall b Hb)) as [->|H]; [contradiction|exact H].
Qed.

(** Two strictly ascending lists with the same elements are equal: the
    result of sorting distinct keys does not depend on the sorting
    algorithm, nor on the order in which the keys were enumerated. *)
Lemma strictly_sorted_unique (l : list string) :
  forall l',
    StronglySorted (fun a b => String.ltb a b = true) l ->
    StronglySorted (fun a b => String.ltb a b = true) l' ->
    (forall k, In k l <-> In k l') -> l = l'.
Proof.
  induction l as [|a l IH]; intros [|a' l'] Hs Hs' Hin.
  - reflexivity.
  - destruct (proj2 (Hin a') (or_introl eq_refl)).
  - destruct (proj1 (Hin a) (or_introl eq_refl)).
  - inversion Hs as [|? ? Hl Ha]; subst. inversion Hs' as [|? ? Hl' Ha']; subst.
    rewrite Forall_forall in Ha, Ha'.
    assert (E : a = a').
    { destruct (proj1 (Hin a) (or_introl eq_refl)) as [E|H1]; [now symmetry|].
      destruct (proj2 (Hin a') (or_introl eq_refl)) as [E|H2]; [exact E|].
      pose proof (string_ltb_trans a a' a (Ha a' H2) (Ha' a H1)) as C.
      rewrite string_ltb_irrefl in C. discriminate. }
    subst a'. f_equal. apply IH; try assumption.
    intros k. split; intros Hk.
    + destruct (proj1 (Hin k) (or_intror Hk)) as [E|H]; [|exact H].
      subst k. pose proof (Ha a Hk) as C.
      rewrite string_ltb_irrefl in C. discriminate.
    + destruct (proj2 (Hin k) (or_intror Hk)) as [E|H]; [|exact H].
      subst k. pose proof (Ha' a Hk) as C.
      rewrite string_ltb_irrefl in C. discriminate.
Qed.

Lemma sort_keys_order_independent (l l' : list string) :
  NoDup l -> Permutation l l' -> KeySort.sort l = KeySort.sort l'.
Proof.
  intros Hn Hp. apply strictly_sorted_unique.
  - apply StronglySorted_strict; [now apply sort_keys_NoDup | apply sort_keys_sorted].
  - apply StronglySorted_strict; [|apply sort_keys_sorted].
    apply sort_keys_NoDup. now apply Permutation_NoDup with l.
  - intros k. rewrite !sort_keys_In. split; apply Permutation_in;
      [exact Hp | now apply Permutation_sym].
Qed.

(** *** Reads and writes of the [grouped] object *)

Section ObjectFacts.
Context {V : Type}.
Implicit Types (o : list (string * V)) (k : string) (v : V).

Lemma obj_get_set_same o k v : obj_get k (obj_set k v o) = Some v.
Proof.
  induction o as [|[k' v'] o IH]; simpl.
  - now rewrite String.eqb_refl.
  - destruct (k' =? k) eqn:E; simpl; [now rewrite String.eqb_refl | now rewrite E].
Qed.

Lemma obj_get_set_other o k k' v :
  k' <> k -> obj_get k' (obj_set k v o) = obj_get k' o.
Proof.
  intros Hne. induction o as [|[k0 v0] o IH]; simpl.
  - destruct (String.eqb_spec k k'); [congruence | reflexivity].
  - destruct (String.eqb_spec k0 k) as [->|]; simpl.
    + destruct (String.eqb_spec k k'); [congruence|reflexivity].
    + now rewrite IH.
Qed.

Lemma obj_get_None o k : obj_get k o = None <-> ~ In k (keys o).
Proof.
  induction o as [|[k0 v0] o IH]; simpl.
  - tauto.
  - destruct (String.eqb_spec k0 k) as [->|Hne].
    + split; [discriminate | intros H; elim H; now left].
    + rewrite IH. tauto.
Qed.

Lemma keys_obj_set_In o k k' v :
  In k' (keys (obj_set k v o)) <-> k' = k \/ In k' (keys o).
Proof.
  induction o as [|[k0 v0] o IH]; simpl.
  - intuition.
  - destruct (String.eqb_spec k0 k) as [->|]; simpl; [intuition|].
    rewrite IH. intuition.
Qed.

Lemma keys_obj_set_NoDup o k v : NoDup (keys o) -> NoDup (keys (obj_set k v o)).
Proof.
  induction o as [|[k0 v0] o IH]; simpl; intros H.
  - repeat constructor. intros [].
  - inversion H as [|? ? Hn Hd]; subst.
    destruct (String.eqb_spec k0 k) as [->|Hne]; simpl.
    + now constructor.
    + constructor; [|now apply IH].
      fold (keys (obj_set k v o)). rewrite keys_obj_set_In.
      intros [->|Hin]; [congruence | contradiction].
Qed.

End ObjectFacts.

Section GroupingFacts.
Variable resourceURI : option string.

Lemma group_own_values grouped t p :
  values_under p (group_own resourceURI grouped t)
  = (values_under p grouped ++ (if about resourceURI p t then [object t] else []))%list.
Proof.
  unfold group_own, about, values_under.
  destruct (strict_eq (value (subject t)) resourceURI); simpl;
    [|now rewrite app_nil_r].
  destruct (String.eqb_spec (value (predicate t)) p) as [->|Hne].
  - destruct (obj_get p grouped) as [vs|] eqn:E.
    + now rewrite E, obj_get_set_same.
    + now rewrite obj_get_set_same, obj_get_set_same.
  - assert (Hne' : p <> value (predicate t)) by congruence.
    destruct (obj_get (value (predicate t)) grouped) as [vs|] eqn:E.
    + now rewrite E, obj_get_set_other, app_nil_r.
    + now rewrite obj_get_set_same, !obj_get_set_other, app_nil_r.
Qed.

Lemma group_own_keys grouped t p :
  In p (keys (group_own resourceURI grouped t))
  <-> In p (keys grouped) \/ about resourceURI p t = true.
Proof.
  unfold group_own, about.
  destruct (strict_eq (value (subject t)) resourceURI); simpl;
    [|intuition discriminate].
  rewrite String.eqb_eq.
  destruct (obj_get (value (predicate t)) grouped) as [vs|] eqn:E.
  - rewrite E, keys_obj_set_In.
    assert (In (value (predicate t)) (keys grouped)).
    { destruct (in_dec string_dec (value (predicate t)) (keys grouped)) as [|n];
        [assumption|]. apply obj_get_None in n. congruence. }
    intuition (subst; auto).
  - rewrite obj_get_set_same, !keys_obj_set_In. intuition.
Qed.

Lemma group_own_NoDup grouped t :
  NoDup (keys grouped) -> NoDup (keys (group_own resourceURI grouped t)).
Proof.
  intros H. unfold group_own.
  destruct (strict_eq (value (subject t)) resourceURI); [|exact H].
  destruct (obj_get (value (predicate t)) grouped) as [vs|] eqn:E.
  - rewrite E. now apply keys_obj_set_NoDup.
  - rewrite obj_get_set_same. now apply keys_obj_set_NoDup, keys_obj_set_NoDup.
Qed.

Lemma fold_group_values ts : forall grouped p,
  values_under p (fold_left (group_own resourceURI) ts grouped)
  = (values_under p grouped
     ++ List.map object (filter (about resourceURI p) ts))%list.
Proof.
  induction ts as [|t ts IH]; intros grouped p; simpl.
  - now rewrite app_nil_r.
  - rewrite IH, group_own_values, <- app_assoc.
    now destruct (about resourceURI p t).
Qed.

Lemma fold_group_keys ts : forall grouped p,
  In p (keys (fold_left (group_own resourceURI) ts grouped))
  <-> In p (keys grouped) \/ exists t, In t ts /\ about resourceURI p t = true.
Proof.
  induction ts as [|t ts IH]; intros grouped p; simpl.
  - split; [now left | intros [H|(t & [] & _)]; exact H].
  - rewrite IH, group_own_keys. split.
    + intros [[H|H]|(t' & Hin & H)]; eauto.
    + intros [H|(t' & [<-|Hin] & H)]; eauto.
Qed.

Lemma fold_group_NoDup ts : forall grouped,
  NoDup (keys grouped) ->
  NoDup (keys (fold_left (group_own resourceURI) ts grouped)).
Proof.
  induction ts as [|t ts IH]; intros grouped H; simpl; [exact H|].
  now apply IH, group_own_NoDup.
Qed.

Lemma group_triple_own grouped t :
  clash resourceURI t = false ->
  group_triple resourceURI grouped t = Normal (group_own resourceURI grouped t).
Proof.
  unfold clash, group_triple, group_own.
  destruct (strict_eq (value (subject t)) resourceURI); [|reflexivity].
  cbn [andb]. intros Hi. rewrite Hi.
  destruct (obj_get (value (predicate t)) grouped) as [vs|] eqn:E.
  - now rewrite E.
  - now rewrite obj_get_set_same.
Qed.

Lemma group_triple_clash grouped t :
  clash resourceURI t = true ->
  obj_get (value (predicate t)) grouped = None ->
  group_triple resourceURI grouped t
  = Throw "grouped[pred].push is not a function".
Proof.
  unfold clash, group_triple. intros H E.
  apply andb_true_iff in H as [Hs Hi]. now rewrite Hs, E, Hi, E.
Qed.

(** The loop throws exactly when a triple clashes; otherwise it builds the
    groups of own properties. *)
Lemma forEach_group_cases ts : forall grouped,
  (forall k, In k (keys grouped) -> inherited k = false) ->
  forEachC (group_triple resourceURI) ts grouped =
    if clashes resourceURI ts
    then Throw "grouped[pred].push is not a function"
    else Normal (fold_left (group_own resourceURI) ts grouped).
Proof.
  induction ts as [|t ts IH]; intros grouped Hk; [reflexivity|].
  cbn [forEachC clashes existsb fold_left].
  destruct (clash resourceURI t) eqn:Ec; cbn [orb].
  - rewrite group_triple_clash; [reflexivity | exact Ec |].
    apply obj_get_None. intros Hin. apply Hk in Hin.
    unfold clash in Ec. apply andb_true_iff in Ec as [_ Hi]. congruence.
  - rewrite (group_triple_own _ _ Ec). cbn [bindC]. apply IH.
    intros k Hin. apply group_own_keys in Hin as [Hin|Ha]; [now apply Hk|].
    unfold about in Ha. apply andb_true_iff in Ha as [Hs He].
    apply String.eqb_eq in He. subst k.
    unfold clash in Ec. now rewrite Hs in Ec.
Qed.

End GroupingFacts.

(** *** The rendered table *)

Lemma StronglySorted_map {A B} (R : A -> A -> Prop) (R' : B -> B -> Prop)
  (f : A -> B) (l : list A) :
  (forall a b, R a b -> R' (f a) (f b)) ->
  StronglySorted R l -> StronglySorted R' (List.map f l).
Proof.
  intros Hf. induction 1 as [|a l Hs IH Hall]; simpl; constructor; [exact IH|].
  rewrite Forall_forall in *. intros b Hb.
  apply in_map_iff in Hb as (x & <- & Hx). auto.
Qed.

Lemma rows_of_In grouped p vs :
  In (p, vs) (rows_of grouped)
  <-> In p (keys grouped) /\ vs = values_under p grouped.
Proof.
  unfold rows_of. rewrite in_map_iff. split.
  - intros (k & E & Hk). inversion E; subst.
    split; [now apply sort_keys_In | reflexivity].
  - intros [Hk ->]. exists p. split; [reflexivity | now apply sort_keys_In].
Qed.

Lemma rows_of_sorted grouped :
  NoDup (keys grouped) ->
  StronglySorted (fun r1 r2 => String.ltb (fst r1) (fst r2) = true) (rows_of grouped).
Proof.
  intros Hn. unfold rows_of.
  apply StronglySorted_map with (R := fun a b => String.ltb a b = true);
    [auto|].
  apply StronglySorted_strict; [now apply sort_keys_NoDup | apply sort_keys_sorted].
Qed.

Lemma grouped_of_cases (resourceURI : option string) (ts : list triple) :
  grouped_of resourceURI ts =
    if clashes resourceURI ts
    then Throw "grouped[pred].push is not a function"
    else Normal (own_groups resourceURI ts).
Proof. apply forEach_group_cases. intros k []. Qed.

Lemma renderProperties_ok (w : World) grouped :
  grouped_of (resourceURI (this w)) (triples (this w)) = Normal grouped ->
  renderProperties w =
    (Normal tt,
     mkWorld (this w)
       (mkPage (upd "properties" "block" (display (document w)))
               (textContent (document w)) (rows_of grouped)
               (see_also_list (document w)))
       (PREFIXES w) (viewer w) (console w)).
Proof.
  intros H.
  cbv beta iota zeta delta
    [renderProperties bind gets lift set_properties_tbody set_display
     on_document modify].
  cbn [this document PREFIXES viewer console display textContent
       properties_tbody see_also_list].
  now rewrite H.
Qed.

Lemma renderProperties_throw (w : World) e :
  grouped_of (resourceURI (this w)) (triples (this w)) = Throw e ->
  renderProperties w =
    (Throw e,
     mkWorld (this w)
       (mkPage (display (document w)) (textContent (document w)) []
               (see_also_list (document w)))
       (PREFIXES w) (viewer w) (console w)).
Proof.
  intros H.
  cbv beta iota zeta delta
    [renderProperties bind gets lift set_properties_tbody set_display
     on_document modify].
  cbn [this document PREFIXES viewer console display textContent
       properties_tbody see_also_list].
  now rewrite H.
Qed.

Lemma renderProperties_run (w : World) :
  clashes (resourceURI (this w)) (triples (this w)) = false ->
  fst (renderProperties w) = Normal tt /\
  properties_tbody (document (snd (renderProperties w)))
  = rows_of (own_groups (resourceURI (this w)) (triples (this w))).
Proof.
  intros Hc.
  rewrite (renderProperties_ok w (own_groups (resourceURI (this w)) (triples (this w))));
    [now split|].
  now rewrite grouped_of_cases, Hc.
Qed.

(** X24.  When no triple of the resource has a predicate named like a
    property of [Object.prototype], [renderProperties] completes, and the
    rows of the property table are built only from the triples whose
    subject is the current resource: each row carries, for its predicate,
    the objects of exactly those triples with that predicate, in source
    order; every predicate of such a triple has a row; and the rows stand
    in strictly ascending lexicographic order of the predicate string, so
    each predicate has one row.  In particular two triples of the resource
    that share a predicate give one row with the two objects in their
    original order.  When some triple of the resource has such a
    predicate, [renderProperties] throws a [TypeError] with the table body
    cleared and the section's display untouched. *)
Theorem renderProperties_groups_by_predicate (w : World) :
  let uri := resourceURI (this w) in
  let ts := triples (this w) in
  let rows := properties_tbody (document (snd (renderProperties w))) in
  (clashes uri ts = false ->
   fst (renderProperties w) = Normal tt /\
   (forall p vs, In (p, vs) rows ->
      vs = List.map object (filter (about uri p) ts) /\ vs <> []) /\
   (forall t, In t ts -> strict_eq (value (subject t)) uri = true ->
      exists vs, In (value (predicate t), vs) rows) /\
   StronglySorted (fun r1 r2 => String.ltb (fst r1) (fst r2) = true) rows /\
   (forall s p o1 o2,
      uri = Some (value s) -> ts = [mkTriple s p o1; mkTriple s p o2] ->
      rows = [(value p, [o1; o2])])) /\
  (clashes uri ts = true ->
   fst (renderProperties w) = Throw "grouped[pred].push is not a function" /\
   rows = [] /\
   display (document (snd (renderProperties w))) "properties"
   = display (document w) "properties").
Proof.
  intros uri ts rows. split.
  - intros Hc.
    destruct (renderProperties_run w Hc) as [Hr Hrows].
    fold uri ts rows in Hrows.
    split; [exact Hr|]. rewrite Hrows. unfold own_groups.
    split; [|split; [|split]].
    + intros p vs Hin. apply rows_of_In in Hin as [Hk ->].
      rewrite fold_group_values. split; [reflexivity|].
      apply fold_group_keys in Hk as [[]|(t & Hin & Ht)].
      simpl. intros E. apply map_eq_nil in E.
      assert (In t (filter (about uri p) ts)) as Hf
        by (apply filter_In; now split).
      rewrite E in Hf. exact Hf.
    + intros t Hin Hs. eexists. apply rows_of_In. split; [|reflexivity].
      apply fold_group_keys. right. exists t. split; [exact Hin|].
      unfold about. now rewrite Hs, String.eqb_refl.
    + apply rows_of_sorted, fold_group_NoDup. constructor.
    + intros s p o1 o2 -> ->. simpl. unfold group_own. simpl.
      rewrite !String.eqb_refl. simpl. rewrite !String.eqb_refl. simpl.
      rewrite !String.eqb_refl. unfold rows_of. simpl.
      now rewrite String.eqb_refl.
  - intros Hc. subst rows.
    rewrite (renderProperties_throw w "grouped[pred].push is not a function");
      [now repeat split|].
    fold uri ts. now rewrite grouped_of_cases, Hc.
Qed.

Lemma renderProperties_groups_by_predicate_witness :
  properties_tbody (document (snd (renderProperties Doubles.two_values)))
  = [("http://example.org/p", [plain "first"; plain "second"])].
Proof.
  exact (proj2 (proj2 (proj2 (proj2
           (proj1 (renderProperties_groups_by_predicate Doubles.two_values)
              eq_refl))))
           (iri "http://example.org/r") (iri "http://example.org/p")
           (plain "first") (plain "second") eq_refl eq_refl).
Defined.

(** C5, at the failing input.  For a description that states a label of
    the resource and, under the relative IRI [<constructor>], one more
    value, no mapping from predicate to values is built: the read
    [grouped["constructor"]] finds the function every object inherits, no
    list is stored, and [push] throws.  [renderProperties] ends in a
    [TypeError] with the table body cleared -- the label has no row -- and
    the load of such a description ends in the page-level error. *)
Theorem renderProperties_throws_on_constructor :
  clashes (Some "http://example.org/r") Doubles.constructor_triples = true /\
  fst (renderProperties Doubles.constructor_predicate)
  = Throw "grouped[pred].push is not a function" /\
  properties_tbody (document (snd (renderProperties Doubles.constructor_predicate)))
  = [] /\
  fst (loadResource (P := Doubles.constructor_endpoint) Doubles.example_CONFIG
         Doubles.resolved) = Normal tt /\
  display (document (snd (loadResource (P := Doubles.constructor_endpoint)
                            Doubles.example_CONFIG Doubles.resolved))) "error"
  = "block" /\
  textContent (document (snd (loadResource (P := Doubles.constructor_endpoint)
                                Doubles.example_CONFIG Doubles.resolved)))
    "error-message"
  = "Failed to load resource: grouped[pred].push is not a function" /\
  properties_tbody (document (snd (loadResource (P := Doubles.constructor_endpoint)
                                     Doubles.example_CONFIG Doubles.resolved)))
  = [].
Proof.
  split; [reflexivity|]. split; [reflexivity|]. split; [reflexivity|].
  split; [reflexivity|]. split; [reflexivity|]. split; reflexivity.
Qed.

(** ** The spatial literal parser *)

(** *** What the two regular expressions accept *)

Lemma strip_ci_complete (literal p t : string) :
  same_ci literal p = true -> strip_ci literal (p ++ t) = Some t.
Proof.
  revert p. induction literal as [|a literal IH]; intros [|b p] H; simpl in *;
    try discriminate.
  - reflexivity.
  - apply andb_true_iff in H as [Hc Hs]. rewrite Hc. now apply IH.
Qed.

Lemma strip_ci_sound (literal s t : string) :
  strip_ci literal s = Some t ->
  exists p, s = p ++ t /\ same_ci literal p = true.
Proof.
  revert s. induction literal as [|a literal IH]; intros s H; simpl in H.
  - exists "". split; [simpl; congruence | reflexivity].
  - destruct s as [|b s]; [discriminate|].
    destruct (eqb_ci a b) eqn:E; [|discriminate].
    destruct (IH s H) as (p & -> & Hp).
    exists (String b p). simpl. now rewrite E, Hp.
Qed.

Lemma digits_run_complete (d r : string) :
  all_chars isDigit d = true -> head_is isDigit r = false ->
  digits_run (d ++ r) = (d, r).
Proof.
  intros Hd Hr. induction d as [|c d IH].
  - destruct r as [|c r]; [reflexivity|].
    cbn [head_is] in Hr. cbn [append digits_run]. now rewrite Hr.
  - cbn [all_chars] in Hd. apply andb_true_iff in Hd as [Hc Hd].
    cbn [append digits_run]. now rewrite Hc, IH.
Qed.

Lemma digits_run_sound (s d r : string) :
  digits_run s = (d, r) ->
  s = d ++ r /\ all_chars isDigit d = true /\ head_is isDigit r = false.
Proof.
  revert d r. induction s as [|c s IH]; intros d r H; cbn [digits_run] in H.
  - inversion H. now subst.
  - destruct (isDigit c) eqn:E.
    + destruct (digits_run s) as [d' r'].
      inversion H; subst. destruct (IH d' r eq_refl) as (-> & Hd & Hr).
      cbn [append all_chars]. now rewrite E, Hd.
    + inversion H; subst. cbn [append all_chars head_is]. now rewrite E.
Qed.

Lemma dot_plus_end_iff (s : string) :
  dot_plus_end s = true <-> s <> "" /\ no_line_terminator s = true.
Proof.
  unfold dot_plus_end, truthy.
  destruct (String.eqb_spec s ""); simpl; intuition congruence.
Qed.

Lemma spaces_dot_plus_end_complete (ws r : string) :
  all_chars isWhiteSpace ws = true -> head_is isWhiteSpace r = false ->
  r <> "" -> no_line_terminator r = true ->
  spaces_dot_plus_end (ws ++ r) = Some r.
Proof.
  intros Hws Hr Hne Hl. induction ws as [|c ws IH].
  - destruct r as [|c r]; [congruence|].
    cbn [head_is] in Hr. cbn [append spaces_dot_plus_end]. rewrite Hr.
    assert (H : dot_plus_end (String c r) = true)
      by (apply dot_plus_end_iff; now split).
    now rewrite H.
  - cbn [all_chars] in Hws. apply andb_true_iff in Hws as [Hc Hws].
    cbn [append spaces_dot_plus_end]. now rewrite Hc, IH.
Qed.

Lemma spaces_dot_plus_end_sound (s r : string) :
  spaces_dot_plus_end s = Some r ->
  exists ws, s = ws ++ r /\ all_chars isWhiteSpace ws = true /\
             r <> "" /\ no_line_terminator r = true.
Proof.
  revert r. induction s as [|c s IH]; intros r H; [discriminate|].
  cbn [spaces_dot_plus_end] in H.
  destruct (isWhiteSpace c) eqn:Ec.
  - destruct (spaces_dot_plus_end s) as [r'|] eqn:Es.
    + inversion H; subst. destruct (IH r eq_refl) as (ws & -> & Hws & Hr).
      exists (String c ws). cbn [append all_chars]. now rewrite Ec, Hws.
    + destruct (dot_plus_end (String c s)) eqn:Ed; [|discriminate].
      inversion H; subst. exists "". apply dot_plus_end_iff in Ed.
      now cbn [append all_chars].
  - destruct (dot_plus_end (String c s)) eqn:Ed; [|discriminate].
    inversion H; subst. exists "". apply dot_plus_end_iff in Ed.
    now cbn [append all_chars].
Qed.

(** The EWKT pattern accepts exactly the texts [SRID=<digits>;<rest>], the
    letters of [SRID] in either case, the digits at least one, the rest
    non-empty and on one line. *)
Lemma match_ewkt_iff (s d r : string) :
  match_ewkt s = Some (d, r) <->
  exists p, s = p ++ d ++ ";" ++ r /\ same_ci "SRID=" p = true /\
            d <> "" /\ all_chars isDigit d = true /\
            r <> "" /\ no_line_terminator r = true.
Proof.
  unfold match_ewkt. split.
  - destruct (strip_ci "SRID=" s) as [t|] eqn:Es; [|discriminate].
    destruct (digits_run t) as [[|c ds] [|c' rest]] eqn:Ed; try discriminate.
    destruct (Ascii.eqb_spec c' ";") as [->|Hne].
    + destruct (dot_plus_end rest) eqn:Er; [|discriminate].
      intros H. inversion H; subst.
      apply strip_ci_sound in Es as (p & -> & Hp).
      apply digits_run_sound in Ed as (-> & Hd & _).
      apply dot_plus_end_iff in Er as [Hr1 Hr2].
      exists p. repeat split; try assumption. discriminate.
    + intros H. exfalso. revert H.
      destruct c' as [[] [] [] [] [] [] [] []]; try discriminate.
      now elim Hne.
  - intros (p & -> & Hp & Hne & Hd & Hr1 & Hr2).
    rewrite (strip_ci_complete _ _ _ Hp).
    rewrite (digits_run_complete d (";" ++ r) Hd eq_refl).
    destruct d as [|c ds]; [congruence|]. simpl.
    assert (H : dot_plus_end r = true) by (apply dot_plus_end_iff; now split).
    now rewrite H.
Qed.

(** The OGC pattern accepts only texts [<.../EPSG/0/<digits>> <rest>],
    the URI in either case, with white space before a non-empty rest on one
    line; and it accepts every such text whose rest does not begin with
    white space, capturing that rest. *)
Lemma match_ogc_sound (s d r : string) :
  match_ogc s = Some (d, r) ->
  exists p ws, s = p ++ d ++ ">" ++ ws ++ r /\
    same_ci "<http://www.opengis.net/def/crs/EPSG/0/" p = true /\
    d <> "" /\ all_chars isDigit d = true /\
    ws <> "" /\ all_chars isWhiteSpace ws = true /\
    r <> "" /\ no_line_terminator r = true.
Proof.
  unfold match_ogc.
  destruct (strip_ci _ s) as [t|] eqn:Es; [|discriminate].
  destruct (digits_run t) as [[|c ds] [|c' [|w rest]]] eqn:Ed; try discriminate;
    try (destruct c' as [[] [] [] [] [] [] [] []]; discriminate).
  destruct (Ascii.eqb_spec c' ">") as [->|Hne].
  - destruct (isWhiteSpace w) eqn:Ew; [|discriminate].
    destruct (spaces_dot_plus_end rest) as [r'|] eqn:Er; [|discriminate].
    intros H. inversion H; subst.
    apply strip_ci_sound in Es as (p & -> & Hp).
    apply digits_run_sound in Ed as (-> & Hd & _).
    apply spaces_dot_plus_end_sound in Er as (ws & -> & Hws & Hr1 & Hr2).
    exists p, (String w ws). simpl. rewrite Ew, Hws.
    repeat split; try assumption; discriminate.
  - intros H. exfalso. revert H.
    destruct c' as [[] [] [] [] [] [] [] []]; try discriminate.
    now elim Hne.
Qed.

Lemma match_ogc_complete (p d ws r : string) :
  same_ci "<http://www.opengis.net/def/crs/EPSG/0/" p = true ->
  d <> "" -> all_chars isDigit d = true ->
  ws <> "" -> all_chars isWhiteSpace ws = true ->
  head_is isWhiteSpace r = false -> r <> "" -> no_line_terminator r = true ->
  match_ogc (p ++ d ++ ">" ++ ws ++ r) = Some (d, r).
Proof.
  intros Hp Hd1 Hd2 Hw1 Hw2 Hr0 Hr1 Hr2. unfold match_ogc.
  rewrite (strip_ci_complete _ _ _ Hp).
  rewrite (digits_run_complete d (">" ++ ws ++ r) Hd2 eq_refl).
  destruct d as [|c ds]; [congruence|].
  destruct ws as [|w ws]; [congruence|]. simpl.
  simpl in Hw2. apply andb_true_iff in Hw2 as [Hw Hws]. rewrite Hw.
  now rewrite (spaces_dot_plus_end_complete ws r Hws Hr0 Hr1 Hr2).
Qed.

(** *** Format detection *)

Lemma ogc_excludes_ewkt (p t : string) :
  same_ci "<http://www.opengis.net/def/crs/EPSG/0/" p = true ->
  match_ewkt (p ++ t) = None.
Proof.
  destruct p as [|b p]; [discriminate|].
  cbn [same_ci]. intros H. apply andb_true_iff in H as [Hb _].
  unfold match_ewkt. cbn [append strip_ci].
  destruct b as [[] [] [] [] [] [] [] []]; try discriminate Hb; reflexivity.
Qed.

Section ParserFacts.
Context {P : Platform}.

Lemma parseWKT_unfold (wktLiteral : string) :
  parseWKT wktLiteral =
    match match_ewkt (trim wktLiteral) with
    | Some (d1, r1) =>
        match match_ogc r1 with
        | Some (d2, r2) => parsed_as (Some (parseInt d2)) r2
        | None => parsed_as (Some (parseInt d1)) r1
        end
    | None =>
        match match_ogc (trim wktLiteral) with
        | Some (d2, r2) => parsed_as (Some (parseInt d2)) r2
        | None => parsed_as None (trim wktLiteral)
        end
    end.
Proof.
  unfold parseWKT, parsed_as.
  destruct (match_ewkt (trim wktLiteral)) as [[d1 r1]|].
  - now destruct (match_ogc r1) as [[d2 r2]|].
  - now destruct (match_ogc (trim wktLiteral)) as [[d2 r2]|].
Qed.

(** C3, as amended.  [parseWKT] first tests the trimmed literal for the
    EWKT form [SRID=<digits>;<rest>] ([SRID] in either case) and then tests
    the text that remains for the OGC CRS-URI form.  The SRID is the
    Number that [parseInt] reads from the captured digits: the double
    nearest to the integer they denote, which is that integer when it is
    below 2^53.  A literal of the EWKT form whose rest is not of the OGC
    form yields the Number of its digits as SRID and its rest as WKT text;
    when the rest is of the OGC form, the Number of the OGC digits is the
    SRID and the text after the URI is the WKT text; a literal of the OGC
    form alone yields the Number of the OGC digits; with neither form the
    SRID is null and the trimmed literal is the WKT text.  In particular
    [SRID=31370;POINT(150000 150000)] yields SRID 31370 with the geometry
    the WKT library reads from [POINT(150000 150000)], and
    [POINT(4.35 50.85)] yields SRID null with the geometry read from that
    same text. *)
Theorem parseWKT_detects_format (wktLiteral : string) :
  let s := trim wktLiteral in
  (forall p d r,
     s = p ++ d ++ ";" ++ r -> same_ci "SRID=" p = true ->
     d <> "" -> all_chars isDigit d = true ->
     r <> "" -> no_line_terminator r = true ->
     match_ogc r = None ->
     parseWKT wktLiteral = parsed_as (Some (parseInt d)) r) /\
  (forall p d p' d' ws r,
     s = p ++ d ++ ";" ++ p' ++ d' ++ ">" ++ ws ++ r ->
     same_ci "SRID=" p = true -> d <> "" -> all_chars isDigit d = true ->
     same_ci "<http://www.opengis.net/def/crs/EPSG/0/" p' = true ->
     d' <> "" -> all_chars isDigit d' = true ->
     ws <> "" -> all_chars isWhiteSpace ws = true ->
     no_line_terminator (p' ++ d' ++ ">" ++ ws ++ r) = true ->
     head_is isWhiteSpace r = false -> r <> "" ->
     no_line_terminator r = true ->
     parseWKT wktLiteral = parsed_as (Some (parseInt d')) r) /\
  (forall p d ws r,
     s = p ++ d ++ ">" ++ ws ++ r ->
     same_ci "<http://www.opengis.net/def/crs/EPSG/0/" p = true ->
     d <> "" -> all_chars isDigit d = true ->
     ws <> "" -> all_chars isWhiteSpace ws = true ->
     head_is isWhiteSpace r = false -> r <> "" ->
     no_line_terminator r = true ->
     parseWKT wktLiteral = parsed_as (Some (parseInt d)) r) /\
  (match_ewkt s = None -> match_ogc s = None ->
   parseWKT wktLiteral = parsed_as None s) /\
  parseWKT "SRID=31370;POINT(150000 150000)"
  = parsed_as (Some 31370%float) "POINT(150000 150000)" /\
  parseWKT "POINT(4.35 50.85)" = parsed_as None "POINT(4.35 50.85)".
Proof.
  intros s. rewrite parseWKT_unfold. fold s.
  split; [|split; [|split; [|split; [|split]]]].
  - intros p d r E Hp Hd1 Hd2 Hr1 Hr2 Hogc.
    assert (H : match_ewkt s = Some (d, r))
      by (apply match_ewkt_iff; exists p; auto 10).
    now rewrite H, Hogc.
  - intros p d p' d' ws r E Hp Hd1 Hd2 Hp' Hd1' Hd2' Hw1 Hw2 Hl Hr0 Hr1 Hr2.
    assert (H : match_ewkt s = Some (d, p' ++ d' ++ ">" ++ ws ++ r)).
    { apply match_ewkt_iff. exists p. repeat split; auto.
      destruct p'; discriminate. }
    rewrite H.
    now rewrite (match_ogc_complete p' d' ws r Hp' Hd1' Hd2' Hw1 Hw2 Hr0 Hr1 Hr2).
  - intros p d ws r E Hp Hd1 Hd2 Hw1 Hw2 Hr0 Hr1 Hr2.
    rewrite E, (ogc_excludes_ewkt p _ Hp).
    now rewrite (match_ogc_complete p d ws r Hp Hd1 Hd2 Hw1 Hw2 Hr0 Hr1 Hr2).
  - intros H1 H2. now rewrite H1, H2.
  - rewrite parseWKT_unfold. reflexivity.
  - rewrite parseWKT_unfold. reflexivity.
Qed.

End ParserFacts.

(** C3, as stated, fails on a literal that carries both prefixes: the EWKT
    pattern matches first, yet the SRID is the one of the OGC prefix and not
    the captured EWKT digits, and the OGC prefix is stripped as well. *)
Lemma parseWKT_both_prefixes :
  match_ewkt "SRID=31370;<http://www.opengis.net/def/crs/EPSG/0/4326> POINT(1 2)"
  = Some ("31370", "<http://www.opengis.net/def/crs/EPSG/0/4326> POINT(1 2)") /\
  parseWKT (P := Doubles.offline)
    "SRID=31370;<http://www.opengis.net/def/crs/EPSG/0/4326> POINT(1 2)"
  = Normal (Some (Doubles.point 1 2), Some 4326%float) /\
  parseWKT (P := Doubles.offline)
    "SRID=31370;<http://www.opengis.net/def/crs/EPSG/0/4326> POINT(1 2)"
  <> parsed_as (P := Doubles.offline) (Some 31370%float)
       "<http://www.opengis.net/def/crs/EPSG/0/4326> POINT(1 2)".
Proof. split; [reflexivity|]. split; [reflexivity|]. discriminate. Qed.

Lemma parseWKT_detects_format_witness :
  parseWKT (P := Doubles.offline) "srid=31370;POINT(150000 150000)"
  = Normal (Some (Doubles.point 150000 150000), Some 31370%float) /\
  parseWKT (P := Doubles.offline)
    "<http://www.opengis.net/def/crs/epsg/0/4326>  POINT(1 2)"
  = Normal (Some (Doubles.point 1 2), Some 4326%float) /\
  parseWKT (P := Doubles.offline) " POINT(4.35 50.85) "
  = Normal (Some (Doubles.point 4.35 50.85), None).
Proof.
  split; [|split].
  - apply (proj1 (parseWKT_detects_format (P := Doubles.offline)
                    "srid=31370;POINT(150000 150000)")
             "srid=" "31370" "POINT(150000 150000)");
      (reflexivity || discriminate).
  - apply (proj1 (proj2 (proj2 (parseWKT_detects_format (P := Doubles.offline)
                    "<http://www.opengis.net/def/crs/epsg/0/4326>  POINT(1 2)")))
             "<http://www.opengis.net/def/crs/epsg/0/" "4326" "  " "POINT(1 2)");
      (reflexivity || discriminate).
  - apply (proj1 (proj2 (proj2 (proj2 (parseWKT_detects_format
                    (P := Doubles.offline) " POINT(4.35 50.85) ")))));
      reflexivity.
Defined.

(** The SRID is a double: digits that denote an integer of 2^53 or more are
    rounded, to [Infinity] in the end, and such a Number is not printed in
    plain digits by the page itself. *)
Lemma parseInt_is_a_double :
  parseInt "31370" = 31370%float /\
  safe_integer (parseInt "31370") = Some 31370%N /\
  parseInt "9007199254740993" = 9007199254740992%float /\
  safe_integer (parseInt "9007199254740993") = None /\
  parseInt "1000000000000000000000" = 1e21%float /\
  safe_integer (parseInt "1000000000000000000000") = None /\
  parseWKT (P := Doubles.offline) "SRID=9007199254740993;POINT(1 2)"
  = Normal (Some (Doubles.point 1 2), Some 9007199254740992%float).
Proof.
  split; [reflexivity|]. split; [reflexivity|]. split; [reflexivity|].
  split; [reflexivity|]. split; [reflexivity|]. split; reflexivity.
Qed.

(** ** Reprojection *)

(** *** Induction on coordinate arrays *)

Section CoordsInduction.
Variable Q : coords -> Prop.
Hypothesis Q_Pos : forall x rest, Q (Pos x rest).
Hypothesis Q_Arr : forall cs, Forall Q cs -> Q (Arr cs).

Fixpoint coords_nested_ind (c : coords) : Q c :=
  match c with
  | Pos x rest => Q_Pos x rest
  | Arr cs =>
      Q_Arr cs
        ((fix all (l : list coords) : Forall Q l :=
            match l with
            | [] => Forall_nil Q
            | c' :: l' => Forall_cons c' (coords_nested_ind c') (all l')
            end) cs)
  end.

End CoordsInduction.

Lemma mapC_list_cons {A B} (f : A -> completion B) (a : A) (l : list A) :
  mapC_list f (a :: l)
  = bindC (f a) (fun b => bindC (mapC_list f l) (fun bs => Normal (b :: bs))).
Proof. reflexivity. Qed.

Lemma mapC_list_Normal_inv {A B} (f : A -> completion B) (a : A) (l : list A) (r : list B) :
  mapC_list f (a :: l) = Normal r ->
  exists b bs, f a = Normal b /\ mapC_list f l = Normal bs /\ r = b :: bs.
Proof.
  rewrite mapC_list_cons. destruct (f a) as [b|]; [|discriminate]. simpl.
  destruct (mapC_list f l) as [bs|]; [|discriminate]. simpl.
  intros H. inversion H. now exists b, bs.
Qed.

Lemma mapC_list_app {A B} (f : A -> completion B) (l1 l2 : list A) (r1 r2 : list B) :
  mapC_list f l1 = Normal r1 -> mapC_list f l2 = Normal r2 ->
  mapC_list f (l1 ++ l2)%list = Normal (r1 ++ r2)%list.
Proof.
  revert r1. induction l1 as [|a l1 IH]; intros r1 H1 H2.
  - inversion H1. exact H2.
  - apply mapC_list_Normal_inv in H1 as (b & bs & Hb & Hbs & ->).
    simpl app. rewrite mapC_list_cons, Hb. simpl.
    now rewrite (IH bs Hbs H2).
Qed.

Lemma mapC_list_total {A B} (f : A -> completion B) (l : list A) :
  (forall a, In a l -> exists b, f a = Normal b) ->
  exists r, mapC_list f l = Normal r.
Proof.
  induction l as [|a l IH]; intros H.
  - now exists [].
  - destruct (H a (or_introl eq_refl)) as [b Hb].
    destruct IH as [bs Hbs]; [intros x Hx; apply H; now right|].
    exists (b :: bs). now rewrite mapC_list_cons, Hb, Hbs.
Qed.

Lemma depth_of_shape (c : coords) :
  forall c', shapeOf c' = shapeOf c -> depth c' = depth c.
Proof.
  induction c as [x rest|cs IH] using coords_nested_ind; intros [x' rest'|cs'] E;
    simpl in E; try discriminate; [reflexivity|].
  inversion E as [E']. clear E. simpl. f_equal.
  revert cs' E'. induction IH as [|c cs Hc _ IHcs]; intros [|c' cs'] E;
    simpl in E; try discriminate; [reflexivity|].
  inversion E. simpl. f_equal; auto.
Qed.

Section TransformFacts.
Context {P : Platform}.
Variable transform : float * list float -> completion (float * list float).

(** A successful [transformCoords] keeps the array structure and replaces
    each position, in order, by the converter's result for it. *)
Lemma transformCoords_Normal (c : coords) :
  forall c', transformCoords transform c = Normal c' ->
    shapeOf c' = shapeOf c /\
    mapC_list transform (positions c) = Normal (positions c').
Proof.
  induction c as [x rest|cs IH] using coords_nested_ind; intros c' H.
  - cbn [transformCoords] in H. unfold mapC in H.
    destruct (transform (x, rest)) as [[x' rest']|] eqn:E; [|discriminate].
    simpl in H. inversion H; subst. simpl. now rewrite E.
  - cbn [transformCoords] in H. unfold mapC in H.
    destruct (mapC_list (transformCoords transform) cs) as [cs'|] eqn:E;
      [|discriminate].
    simpl in H. inversion H; subst. clear H. simpl.
    revert cs' E. induction IH as [|c cs Hc _ IHcs]; intros cs' E.
    + inversion E. now split.
    + apply mapC_list_Normal_inv in E as (c' & cs0 & Hc' & Hcs0 & ->).
      destruct (Hc c' Hc') as [Hs Hp].
      destruct (IHcs cs0 Hcs0) as [Hss Hps].
      split.
      * simpl. inversion Hss. now rewrite Hs.
      * simpl. now apply mapC_list_app.
Qed.

(** [transformCoords] succeeds when the converter succeeds on every
    position. *)
Lemma transformCoords_total (c : coords) :
  (forall p, In p (positions c) -> exists q, transform p = Normal q) ->
  exists c', transformCoords transform c = Normal c'.
Proof.
  induction c as [x rest|cs IH] using coords_nested_ind; intros H.
  - destruct (H (x, rest) (or_introl eq_refl)) as [[x' rest'] E].
    exists (Pos x' rest'). cbn [transformCoords]. now rewrite E.
  - assert (Hcs : exists cs', mapC_list (transformCoords transform) cs = Normal cs').
    { apply mapC_list_total. intros c Hc.
      rewrite Forall_forall in IH. apply (IH c Hc).
      intros p Hp. apply H. simpl. apply in_flat_map. now exists c. }
    destruct Hcs as [cs' E]. exists (Arr cs').
    cbn [transformCoords]. now rewrite E.
Qed.

End TransformFacts.

(** *** [transformGeoJSON] and [initializeMap] *)

Section MapFacts.
Context {P : Platform}.

Lemma transformGeoJSON_Normal (t : string) (c : coords) (definition : string) (g' : geometry) :
  transformGeoJSON (Geometry t c) definition = Normal g' ->
  exists transform c',
    proj4 definition = Normal transform /\ g' = Geometry t c' /\
    shapeOf c' = shapeOf c /\ depth c' = depth c /\
    mapC_list transform (positions c) = Normal (positions c').
Proof.
  cbn [transformGeoJSON]. destruct (proj4 definition) as [transform|]; [|discriminate].
  cbn [bindC]. destruct (transformCoords transform c) as [c'|] eqn:E; [|discriminate].
  cbn [bindC]. intros H. inversion H; subst.
  destruct (transformCoords_Normal transform c c' E) as [Hs Hp].
  exists transform, c'. repeat split; auto. now apply depth_of_shape.
Qed.

Lemma transformGeoJSON_total (t : string) (c : coords) (definition : string)
  (transform : float * list float -> completion (float * list float)) :
  proj4 definition = Normal transform ->
  (forall p, In p (positions c) -> exists q, transform p = Normal q) ->
  exists g', transformGeoJSON (Geometry t c) definition = Normal g'.
Proof.
  intros Hd Hp. destruct (transformCoords_total transform c Hp) as [c' E].
  exists (Geometry t c'). cbn [transformGeoJSON].
  rewrite Hd. cbn [bindC]. now rewrite E.
Qed.

Lemma srid_and_not_4326_iff (srid : option float) :
  srid_and_not_4326 srid = true <->
  exists x, srid = Some x /\ truthy_number x = true /\
            PrimFloat.eqb x 4326 = false.
Proof.
  unfold srid_and_not_4326. destruct srid as [x|].
  - rewrite andb_true_iff, negb_true_iff. split.
    + intros [H0 H1]. now exists x.
    + intros (y & E & H0 & H1). inversion E; subst. now split.
  - split; [discriminate | intros (x & E & _); discriminate].
Qed.

(** The page after [initializeMap] on a literal that parses. *)
Lemma initializeMap_untransformed w wktLiteral g srid :
  parseWKT wktLiteral = Normal (Some g, srid) ->
  srid_and_not_4326 srid = false ->
  initializeMap wktLiteral w =
    (Normal tt,
     mkWorld (this w) (document w) (PREFIXES w)
       (mkViewer true (Some g) (Some g) (epsg_requests (viewer w))) (console w)).
Proof.
  intros H Hs. unfold initializeMap, try_catch, bind, lift.
  rewrite H. cbn [fst snd]. now rewrite Hs.
Qed.

Lemma initializeMap_from_table w wktLiteral g n definition g' :
  parseWKT wktLiteral = Normal (Some g, Some n) ->
  srid_and_not_4326 (Some n) = true ->
  commonProjections n = Some definition ->
  transformGeoJSON g definition = Normal g' ->
  initializeMap wktLiteral w =
    (Normal tt,
     mkWorld (this w) (document w) (PREFIXES w)
       (mkViewer true (Some g') (Some g') (epsg_requests (viewer w))) (console w)).
Proof.
  intros H Hs Hd Ht. unfold initializeMap, try_catch, bind, lift.
  rewrite H. cbn [fst snd]. rewrite Hs.
  unfold transformCoordinates. rewrite Hd.
  unfold transform_in_place, bind, gets, lift. cbn. now rewrite Ht.
Qed.

Lemma initializeMap_requests_definition w wktLiteral g n :
  parseWKT wktLiteral = Normal (Some g, Some n) ->
  srid_and_not_4326 (Some n) = true ->
  commonProjections n = None ->
  initializeMap wktLiteral w =
    (Normal tt,
     mkWorld (this w) (document w) (PREFIXES w)
       (mkViewer true (Some g) (Some g) (epsg_requests (viewer w) ++ [n]))
       (console w ++ [("log", "Fetching EPSG:" ++ template_number n
                                ++ " definition from epsg.io...")])).
Proof.
  intros H Hs Hd. unfold initializeMap, try_catch, bind, lift.
  rewrite H. cbn [fst snd]. rewrite Hs.
  unfold transformCoordinates. now rewrite Hd.
Qed.

Lemma epsg_answer_transforms w n ok statusText proj4def g g' :
  fetch ("https://epsg.io/" ++ template_number n ++ ".proj4") "" =
    Response ok statusText proj4def ->
  geojson (viewer w) = Some g ->
  transformGeoJSON g proj4def = Normal g' ->
  fst (epsg_answer n w) = Normal tt /\
  geojson (viewer (snd (epsg_answer n w))) = Some g'.
Proof.
  intros Hf Hg Ht. unfold epsg_answer. rewrite Hf.
  unfold try_catch, transform_in_place, bind, gets, lift. cbn.
  rewrite Hg. cbn. rewrite Ht. now split.
Qed.

(** C4, as amended.  For a literal that parses to a geometry and an SRID
    that is not the number zero, coordinate transformation is undertaken
    exactly when the SRID is non-null and different from 4326.  With no
    SRID, or with the SRID 4326, the geometry is drawn as parsed and no
    projection is requested.  For a non-zero SRID other than 4326 that the
    built-in table holds, the geometry object is transformed before it is
    drawn; for one the table does not hold, its definition is requested
    and the transformation is applied to the geometry object when the
    answer arrives.  A transformation of a geometry with a [coordinates]
    field that succeeds replaces every position of the coordinate tree, in
    order, by the converter's result for it, nested arrays element-wise,
    with the array structure and the nesting depth preserved exactly; and
    it succeeds whenever the converter is available and succeeds on every
    position.  What is done with the SRID zero is not part of the
    statement. *)
Theorem reprojection_condition_and_shape
  (w : World) (wktLiteral : string) (g : geometry) (srid : option float) :
  parseWKT wktLiteral = Normal (Some g, srid) ->
  let w' := snd (initializeMap wktLiteral w) in
  (not_zero srid ->
   (srid_and_not_4326 srid = true <->
    exists x, srid = Some x /\ PrimFloat.eqb x 4326 = false)) /\
  (srid = None \/ (exists x, srid = Some x /\ PrimFloat.eqb x 4326 = true) ->
   geoJsonLayer (viewer w') = Some g /\ geojson (viewer w') = Some g /\
   epsg_requests (viewer w') = epsg_requests (viewer w) /\
   console w' = console w) /\
  (forall x definition g',
     srid = Some x -> truthy_number x = true -> PrimFloat.eqb x 4326 = false ->
     commonProjections x = Some definition ->
     transformGeoJSON g definition = Normal g' ->
     geoJsonLayer (viewer w') = Some g' /\ geojson (viewer w') = Some g') /\
  (forall x,
     srid = Some x -> truthy_number x = true -> PrimFloat.eqb x 4326 = false ->
     commonProjections x = None ->
     epsg_requests (viewer w') = (epsg_requests (viewer w) ++ [x])%list /\
     geojson (viewer w') = Some g /\
     forall ok statusText proj4def g',
       fetch ("https://epsg.io/" ++ template_number x ++ ".proj4") "" =
         Response ok statusText proj4def ->
       transformGeoJSON g proj4def = Normal g' ->
       geojson (viewer (snd (epsg_answer x w'))) = Some g') /\
  (forall t c definition g',
     g = Geometry t c -> transformGeoJSON g definition = Normal g' ->
     exists transform c',
       proj4 definition = Normal transform /\ g' = Geometry t c' /\
       shapeOf c' = shapeOf c /\ depth c' = depth c /\
       mapC_list transform (positions c) = Normal (positions c')) /\
  (forall t c definition transform,
     g = Geometry t c -> proj4 definition = Normal transform ->
     (forall p, In p (positions c) -> exists q, transform p = Normal q) ->
     exists g', transformGeoJSON g definition = Normal g').
Proof.
  intros Hparse w'. subst w'.
  split; [|split; [|split; [|split; [|split]]]].
  - intros Hz. rewrite srid_and_not_4326_iff. split.
    + intros (x & E & _ & H). now exists x.
    + intros (x & E & H). exists x. split; [exact E|]. split; [|exact H].
      now apply Hz.
  - intros Hs.
    assert (Hf : srid_and_not_4326 srid = false).
    { destruct Hs as [->|(x & -> & H)]; [reflexivity|].
      cbn [srid_and_not_4326]. rewrite H. apply andb_false_r. }
    now rewrite (initializeMap_untransformed w _ g srid Hparse Hf).
  - intros x definition g' -> Hz Hx Hd Ht.
    assert (Hs : srid_and_not_4326 (Some x) = true)
      by (cbn [srid_and_not_4326]; now rewrite Hz, Hx).
    now rewrite (initializeMap_from_table w _ g x definition g' Hparse Hs Hd Ht).
  - intros x -> Hz Hx Hd.
    assert (Hs : srid_and_not_4326 (Some x) = true)
      by (cbn [srid_and_not_4326]; now rewrite Hz, Hx).
    rewrite (initializeMap_requests_definition w _ g x Hparse Hs Hd).
    cbn [snd viewer epsg_requests geojson].
    split; [reflexivity|]. split; [reflexivity|].
    intros ok statusText proj4def g' Hf Ht.
    now apply (epsg_answer_transforms _ x ok statusText proj4def g g').
  - intros t c definition g' ->. apply transformGeoJSON_Normal.
  - intros t c definition transform ->. apply transformGeoJSON_total.
Qed.

(** C10.  [transformGeoJSON] leaves a geometry object without a top-level
    [coordinates] field -- a geometry collection -- as it is, whatever the
    projection; so a geometry collection is drawn with the coordinates it
    was parsed with, whatever its SRID, and the answer to a requested
    projection definition does not change it either. *)
Theorem transformGeoJSON_skips_collections :
  (forall g definition,
     coordinates g = None -> transformGeoJSON g definition = Normal g) /\
  (forall w wktLiteral gs srid,
     parseWKT wktLiteral = Normal (Some (GeometryCollection gs), srid) ->
     let w' := snd (initializeMap wktLiteral w) in
     geoJsonLayer (viewer w') = Some (GeometryCollection gs) /\
     geojson (viewer w') = Some (GeometryCollection gs)) /\
  (forall w n gs,
     geojson (viewer w) = Some (GeometryCollection gs) ->
     geojson (viewer (snd (epsg_answer n w))) = Some (GeometryCollection gs)).
Proof.
  split; [|split].
  - intros [t c|gs] definition H; [discriminate | reflexivity].
  - intros w wktLiteral gs srid Hparse w'. subst w'.
    destruct (srid_and_not_4326 srid) eqn:Hs.
    + destruct srid as [n|]; [|discriminate].
      destruct (commonProjections n) as [definition|] eqn:Hd.
      * now rewrite (initializeMap_from_table w _ _ n definition
                       (GeometryCollection gs) Hparse Hs Hd eq_refl).
      * now rewrite (initializeMap_requests_definition w _ _ n Hparse Hs Hd).
    + now rewrite (initializeMap_untransformed w _ _ srid Hparse Hs).
  - intros w n gs Hg. unfold epsg_answer.
    destruct (fetch _ "") as [e|ok statusText proj4def]; [exact Hg|].
    unfold try_catch, transform_in_place, bind, gets, lift. cbn.
    rewrite Hg. reflexivity.
Qed.

End MapFacts.

(** C4, as stated, fails where the code, by design, does not transform:
    a geometry collection has no [coordinates] field and is drawn with the
    coordinates it was parsed with, although its SRID 31370 is non-null and
    differs from 4326 and the converter would move its point; and a
    geometry with the SRID 27700, which the table does not hold, is drawn
    as parsed, the transformation waiting for a definition from epsg.io
    that, when the request fails, never comes. *)
Lemma reprojection_not_performed_on_every_geometry :
  parseWKT (P := Doubles.offline) "SRID=31370;GEOMETRYCOLLECTION(POINT(1 2))"
  = Normal (Some (GeometryCollection [Doubles.point 1 2]), Some 31370%float) /\
  transformGeoJSON (P := Doubles.offline) (Doubles.point 1 2)
    "+proj=longlat +datum=WGS84 +no_defs"
  = Normal (Doubles.point 2 2) /\
  geoJsonLayer (viewer (snd (initializeMap (P := Doubles.offline)
     "SRID=31370;GEOMETRYCOLLECTION(POINT(1 2))" Doubles.blank)))
  = Some (GeometryCollection [Doubles.point 1 2]) /\
  parseWKT (P := Doubles.offline) "SRID=27700;POINT(1 2)"
  = Normal (Some (Doubles.point 1 2), Some 27700%float) /\
  geoJsonLayer (viewer (snd (initializeMap (P := Doubles.offline)
                               "SRID=27700;POINT(1 2)" Doubles.blank)))
  = Some (Doubles.point 1 2) /\
  geojson (viewer (snd (epsg_answer (P := Doubles.offline) 27700
            (snd (initializeMap (P := Doubles.offline)
                    "SRID=27700;POINT(1 2)" Doubles.blank)))))
  = Some (Doubles.point 1 2).
Proof.
  split; [reflexivity|]. split; [reflexivity|]. split; [reflexivity|].
  split; [reflexivity|]. split; reflexivity.
Qed.

(** The test [srid && srid !== 4326] takes the SRID zero for no SRID:
    [parseInt] reads the number 0 from [SRID=0;...], which is falsy, so the
    geometry is drawn as parsed, with no transformation applied and no
    projection definition requested. *)
Lemma reprojection_skipped_for_srid_zero :
  parseWKT (P := Doubles.offline) "SRID=0;POINT(1 2)"
  = Normal (Some (Doubles.point 1 2), Some 0%float) /\
  geoJsonLayer (viewer (snd (initializeMap (P := Doubles.offline)
                               "SRID=0;POINT(1 2)" Doubles.blank)))
  = Some (Doubles.point 1 2) /\
  geojson (viewer (snd (initializeMap (P := Doubles.offline)
                          "SRID=0;POINT(1 2)" Doubles.blank)))
  = Some (Doubles.point 1 2) /\
  epsg_requests (viewer (snd (initializeMap (P := Doubles.offline)
                                "SRID=0;POINT(1 2)" Doubles.blank))) = [] /\
  console (snd (initializeMap (P := Doubles.offline)
                  "SRID=0;POINT(1 2)" Doubles.blank)) = [].
Proof.
  split; [reflexivity|]. split; [reflexivity|]. split; [reflexivity|].
  split; reflexivity.
Qed.

Lemma reprojection_condition_and_shape_witness :
  geoJsonLayer (viewer (snd (initializeMap (P := Doubles.offline)
                               "SRID=31370;LINESTRING(0 0,1 1)" Doubles.blank)))
  = Some (Geometry "LineString" (Arr [Pos 1 [0%float]; Pos 2 [1%float]])) /\
  geojson (viewer (snd (initializeMap (P := Doubles.offline)
                          "SRID=31370;LINESTRING(0 0,1 1)" Doubles.blank)))
  = Some (Geometry "LineString" (Arr [Pos 1 [0%float]; Pos 2 [1%float]])).
Proof.
  exact (proj1 (proj2 (proj2
           (reprojection_condition_and_shape (P := Doubles.offline)
              Doubles.blank "SRID=31370;LINESTRING(0 0,1 1)"
              (Geometry "LineString" (Arr [Pos 0 [0%float]; Pos 1 [1%float]]))
              (Some 31370%float) eq_refl)))
           31370%float
           "+proj=lcc +lat_1=51.16666723333333 +lat_2=49.8333339 +lat_0=90 +lon_0=4.367486666666666 +x_0=150000.013 +y_0=5400088.438 +ellps=intl +towgs84=-106.869,52.2978,-103.724,0.3366,-0.457,1.8422,-1.2747 +units=m +no_defs"
           (Geometry "LineString" (Arr [Pos 1 [0%float]; Pos 2 [1%float]]))
           eq_refl eq_refl eq_refl eq_refl eq_refl).
Defined.

Lemma transformGeoJSON_skips_collections_witness :
  geoJsonLayer (viewer (snd (initializeMap (P := Doubles.offline)
     "SRID=31370;GEOMETRYCOLLECTION(POINT(1 2))" Doubles.blank)))
  = Some (GeometryCollection [Doubles.point 1 2]) /\
  geojson (viewer (snd (initializeMap (P := Doubles.offline)
     "SRID=31370;GEOMETRYCOLLECTION(POINT(1 2))" Doubles.blank)))
  = Some (GeometryCollection [Doubles.point 1 2]).
Proof.
  exact (proj1 (proj2 (transformGeoJSON_skips_collections (P := Doubles.offline)))
           Doubles.blank "SRID=31370;GEOMETRYCOLLECTION(POINT(1 2))"
           [Doubles.point 1 2] (Some 31370%float) eq_refl).
Defined.

(** ** The orchestrator *)

(** *** Frame rules for the error state and the property table *)

Lemma same_primary_refl (w : World) : same_primary w w.
Proof. now repeat split. Qed.

Lemma same_primary_trans (w1 w2 w3 : World) :
  same_primary w1 w2 -> same_primary w2 w3 -> same_primary w1 w3.
Proof.
  intros (A1 & B1 & C1 & D1) (A2 & B2 & C2 & D2).
  repeat split; etransitivity; eassumption.
Qed.

Section FrameRules.
Context {A B : Type}.

Lemma keeps_ret (a : A) : keeps_primary (ret a).
Proof. intros w. apply same_primary_refl. Qed.

Lemma keeps_throw (e : string) : keeps_primary (@throw A e).
Proof. intros w. apply same_primary_refl. Qed.

Lemma keeps_lift (c : completion A) : keeps_primary (lift c).
Proof. intros w. apply same_primary_refl. Qed.

Lemma keeps_gets (f : World -> A) : keeps_primary (gets f).
Proof. intros w. apply same_primary_refl. Qed.

Lemma keeps_bind (m : M A) (k : A -> M B) :
  keeps_primary m -> (forall a, keeps_primary (k a)) -> keeps_primary (bind m k).
Proof.
  intros Hm Hk w. unfold bind. specialize (Hm w).
  destruct (m w) as [[a|e] w1]; [|exact Hm].
  apply same_primary_trans with w1; [exact Hm | apply Hk].
Qed.

Lemma keeps_try_catch (m : M A) (handler : string -> M A) :
  keeps_primary m -> (forall e, keeps_primary (handler e)) ->
  keeps_primary (try_catch m handler).
Proof.
  intros Hm Hh w. unfold try_catch. specialize (Hm w).
  destruct (m w) as [[a|e] w1]; [exact Hm|].
  apply same_primary_trans with w1; [exact Hm | apply Hh].
Qed.

End FrameRules.

Lemma keeps_on_this (f : App -> App) : keeps_primary (on_this f).
Proof. intros w. now repeat split. Qed.

Lemma keeps_on_viewer (f : Viewer -> Viewer) : keeps_primary (on_viewer f).
Proof. intros w. now repeat split. Qed.

Lemma keeps_console_log (level text : string) : keeps_primary (console_log level text).
Proof. intros w. now repeat split. Qed.

Lemma keeps_set_display (id v : string) :
  ("error" =? id) = false -> ("properties" =? id) = false ->
  keeps_primary (set_display id v).
Proof.
  intros H1 H2 w. unfold same_primary. cbn. unfold upd. now rewrite H1, H2.
Qed.

Lemma keeps_set_textContent (id v : string) :
  ("error-message" =? id) = false -> keeps_primary (set_textContent id v).
Proof.
  intros H w. unfold same_primary. cbn. unfold upd. now rewrite H.
Qed.

Lemma keeps_set_see_also_list (items : list (string * string)) :
  keeps_primary (set_see_also_list items).
Proof. intros w. now repeat split. Qed.

Create HintDb frame.

Ltac frame :=
  repeat first
    [ solve [auto 1 with frame nocore]
    | apply keeps_ret | apply keeps_throw | apply keeps_lift | apply keeps_gets
    | apply keeps_on_this | apply keeps_on_viewer | apply keeps_console_log
    | apply keeps_set_see_also_list
    | apply keeps_set_display; reflexivity
    | apply keeps_set_textContent; reflexivity
    | apply keeps_bind; [|intros ?]
    | apply keeps_try_catch; [|intros ?]
    | match goal with
      | |- keeps_primary (match ?x with _ => _ end) => destruct x
      end ].

(** *** Steps that never throw *)

Lemma swallows_try_catch (m : M unit) (handler : string -> M unit) :
  (forall e, swallows (handler e)) -> swallows (try_catch m handler).
Proof.
  intros Hh w. unfold try_catch.
  destruct (m w) as [[[]|e] w1]; [reflexivity | apply Hh].
Qed.

Lemma swallows_modify (f : World -> World) : swallows (modify f).
Proof. intros w. reflexivity. Qed.

Lemma swallows_seq (m k : M unit) :
  swallows m -> swallows k -> swallows (bind m (fun _ => k)).
Proof.
  intros Hm Hk w. unfold bind. specialize (Hm w).
  destruct (m w) as [[[]|e] w1]; [apply Hk | discriminate].
Qed.

Lemma swallows_gets_bind {A} (f : World -> A) (k : A -> M unit) :
  (forall a, swallows (k a)) -> swallows (bind (gets f) k).
Proof. intros Hk w. apply Hk. Qed.

Lemma isolated_iff (m : M unit) : isolated m <-> swallows m /\ keeps_primary m.
Proof.
  split.
  - intros H. split; intros w; apply H.
  - intros [H1 H2] w. split; [apply H1 | apply H2].
Qed.

Lemma isolated_seq (m k : M unit) :
  isolated m -> isolated k -> isolated (bind m (fun _ => k)).
Proof.
  rewrite !isolated_iff. intros [Sm Km] [Sk Kk]. split.
  - now apply swallows_seq.
  - apply keeps_bind; [exact Km | intros _; exact Kk].
Qed.

(** *** The best-effort steps *)

Section StepFacts.
Context {P : Platform}.
Variable CONFIG : Config.

Lemma keeps_transform_in_place (definition : string) :
  keeps_primary (transform_in_place definition).
Proof. unfold transform_in_place, set_geojson. frame. Qed.

#[local] Hint Resolve keeps_transform_in_place : frame.

Lemma keeps_initializeMap (wktLiteral : string) :
  keeps_primary (initializeMap wktLiteral).
Proof.
  unfold initializeMap, transformCoordinates, addGeoJSONToMap,
    set_geojson, set_the_map, set_geoJsonLayer, set_epsg_requests.
  frame.
Qed.

#[local] Hint Resolve keeps_initializeMap : frame.

Lemma swallows_initializeMap (wktLiteral : string) :
  swallows (initializeMap wktLiteral).
Proof.
  unfold initializeMap. apply swallows_try_catch.
  intros e. apply swallows_modify.
Qed.

Lemma keeps_geometry_lookup (node : option string) :
  keeps_primary (geometry_lookup CONFIG node).
Proof. unfold geometry_lookup, set_wktLiteral. frame. Qed.

#[local] Hint Resolve keeps_geometry_lookup : frame.

Lemma keeps_same_class_lookup (typeURI : string) :
  keeps_primary (same_class_lookup CONFIG typeURI).
Proof. unfold same_class_lookup, renderSeeAlso. frame. Qed.

#[local] Hint Resolve keeps_same_class_lookup : frame.

Lemma isolated_initializeMap (wktLiteral : string) :
  isolated (initializeMap wktLiteral).
Proof.
  apply isolated_iff. split;
    [apply swallows_initializeMap | apply keeps_initializeMap].
Qed.

Lemma isolated_checkForGeometry : isolated (checkForGeometry CONFIG).
Proof.
  apply isolated_iff. unfold checkForGeometry. split.
  - apply swallows_gets_bind. intros node.
    destruct (negb _); [intros w; reflexivity|].
    apply swallows_try_catch. intros e. apply swallows_modify.
  - frame.
Qed.

Lemma isolated_loadSameClassResources : isolated (loadSameClassResources CONFIG).
Proof.
  apply isolated_iff. unfold loadSameClassResources. split.
  - apply swallows_gets_bind. intros [|typeURI tys]; [intros w; reflexivity|].
    apply swallows_try_catch. intros e.
    apply swallows_seq; apply swallows_modify.
  - frame.
Qed.

(** A throw of the geometry lookup happens before anything is written. *)
Lemma geometry_lookup_throws (node : option string) (w w1 : World) (e : string) :
  geometry_lookup CONFIG node w = (Throw e, w1) -> w1 = w.
Proof.
  unfold geometry_lookup.
  destruct (fetch _ "application/sparql-results+json") as [m|ok statusText body].
  - intros H. now inversion H.
  - destruct ok; cbn [negb]; [|intros H; now inversion H].
    unfold bind at 1. unfold lift at 1.
    destruct (bindings_of_json body) as [[|b bindings]|m].
    + intros H. discriminate.
    + destruct (obj_get "wkt" b) as [wkt|]; [|intros H; now inversion H].
      cbv [bind set_wktLiteral set_textContent set_display on_this on_document modify].
      match goal with
      | |- initializeMap wkt ?w3 = _ -> _ =>
          pose proof (swallows_initializeMap wkt w3) as Hs;
          destruct (initializeMap wkt w3) as [r w4]
      end.
      cbn [fst] in Hs. subst r. intros H. discriminate.
    + intros H. now inversion H.
Qed.

(** So does a throw of the same-class lookup. *)
Lemma same_class_lookup_throws (typeURI : string) (w w1 : World) (e : string) :
  same_class_lookup CONFIG typeURI w = (Throw e, w1) -> w1 = w.
Proof.
  unfold same_class_lookup. unfold bind at 1. unfold gets at 1.
  destruct (fetch _ "application/sparql-results+json") as [m|ok statusText body].
  - intros H. now inversion H.
  - destruct ok; cbn [negb]; [|intros H; now inversion H].
    unfold bind at 1. unfold lift at 1.
    destruct (bindings_of_json body) as [bindings|m]; [|intros H; now inversion H].
    unfold bind at 1. unfold lift at 1.
    match goal with
    | |- context [mapC_list ?f bindings] =>
        destruct (mapC_list f bindings) as [[|r resources]|m]
    end.
    + intros H. discriminate.
    + intros H. discriminate.
    + intros H. now inversion H.
Qed.

End StepFacts.

(** *** The primary load *)

Section LoadFacts.
Context {P : Platform}.
Variable CONFIG : Config.

Lemma loadResource_unfold (w : World) :
  loadResource CONFIG w =
    let w0 := snd (set_display "loading" "block" w) in
    match fetch (describe_url CONFIG w) "application/n-triples" with
    | Rejected e =>
        (console_log "error" ("Error loading resource: " ++ e) ;;
         showError ("Failed to load resource: " ++ e)) w0
    | Response false statusText _ =>
        (console_log "error" ("Error loading resource: "
                              ++ "SPARQL query failed: " ++ statusText) ;;
         showError ("Failed to load resource: "
                    ++ "SPARQL query failed: " ++ statusText)) w0
    | Response true _ body =>
        match N3_parse body with
        | Throw e =>
            (console_log "error" ("Error loading resource: " ++ e) ;;
             showError ("Failed to load resource: " ++ e)) w0
        | Normal [] =>
            showError ("No data found for resource: "
                       ++ template (resourceURI (this w))) w0
        | Normal (t :: ts) =>
            try_catch
              (set_triples (t :: ts) ;;
               parseResource ;;
               renderProperties ;;
               try_catch (initializeGraph (t :: ts))
                 (fun graphError =>
                    console_log "warn" ("Graph rendering failed: " ++ graphError)) ;;
               checkForGeometry CONFIG ;;
               loadSameClassResources CONFIG ;;
               set_display "loading" "none")
              (fun error =>
                 console_log "error" ("Error loading resource: " ++ error) ;;
                 showError ("Failed to load resource: " ++ error)) w0
        end
    end.
Proof.
  unfold loadResource, describe_url, executeSPARQLQuery.
  unfold try_catch at 1. unfold bind at 1. cbn [set_display on_document modify].
  unfold bind at 1. unfold gets at 1. cbn [this resourceURI].
  unfold bind at 1.
  destruct (fetch _ "application/n-triples") as [e|[|] statusText body];
    try reflexivity.
  cbn [negb]. unfold lift at 1.
  destruct (N3_parse body) as [[|t ts]|e]; reflexivity.
Qed.

(** C8.  A DESCRIBE response that parses to zero triples ends the load in
    the "not found" state: the error section shows [No data found for
    resource: <uri>], nothing is logged, and no error was thrown.  An HTTP
    failure ends it with [Failed to load resource: SPARQL query failed:]
    followed by the endpoint's status text, and a parse error or a network
    failure with [Failed to load resource:] followed by the error text; the
    "not found" message differs from every one of these. *)
Theorem loadResource_not_found_versus_failure (w : World) :
  let u := template (resourceURI (this w)) in
  let url := describe_url CONFIG w in
  let w' := snd (loadResource CONFIG w) in
  (forall statusText body,
     fetch url "application/n-triples" = Response true statusText body ->
     N3_parse body = Normal [] ->
     fst (loadResource CONFIG w) = Normal tt /\
     display (document w') "error" = "block" /\
     textContent (document w') "error-message"
     = "No data found for resource: " ++ u /\
     console w' = console w) /\
  (forall statusText body,
     fetch url "application/n-triples" = Response false statusText body ->
     display (document w') "error" = "block" /\
     textContent (document w') "error-message"
     = "Failed to load resource: SPARQL query failed: " ++ statusText) /\
  (forall statusText body e,
     fetch url "application/n-triples" = Response true statusText body ->
     N3_parse body = Throw e ->
     display (document w') "error" = "block" /\
     textContent (document w') "error-message" = "Failed to load resource: " ++ e) /\
  (forall e,
     fetch url "application/n-triples" = Rejected e ->
     display (document w') "error" = "block" /\
     textContent (document w') "error-message" = "Failed to load resource: " ++ e) /\
  (forall e,
     "No data found for resource: " ++ u <> "Failed to load resource: " ++ e).
Proof.
  intros u url w'. subst w'. rewrite loadResource_unfold. fold url.
  split; [|split; [|split; [|split]]].
  - intros statusText body Hf Hp. rewrite Hf, Hp. now repeat split.
  - intros statusText body Hf. rewrite Hf. now repeat split.
  - intros statusText body e Hf Hp. rewrite Hf, Hp. now repeat split.
  - intros e Hf. rewrite Hf. now repeat split.
  - intros e H. discriminate H.
Qed.

End LoadFacts.

Lemma loadResource_not_found_versus_failure_witness :
  textContent (document (snd (loadResource (P := Doubles.empty_endpoint)
     Doubles.example_CONFIG Doubles.resolved))) "error-message"
  = "No data found for resource: http://example.org/r" /\
  textContent (document (snd (loadResource (P := Doubles.unavailable)
     Doubles.example_CONFIG Doubles.resolved))) "error-message"
  = "Failed to load resource: SPARQL query failed: Service Unavailable".
Proof.
  split.
  - exact (proj1 (proj2 (proj2 (proj1
      (loadResource_not_found_versus_failure (P := Doubles.empty_endpoint)
         Doubles.example_CONFIG Doubles.resolved) "OK" "" eq_refl eq_refl)))).
  - exact (proj2 (proj1 (proj2
      (loadResource_not_found_versus_failure (P := Doubles.unavailable)
         Doubles.example_CONFIG Doubles.resolved)) "Service Unavailable" ""
      eq_refl)).
Defined.

(** *** Isolation of the best-effort steps within a load *)

Lemma bind_Normal {A B} (m : M A) (k : A -> M B) (w w1 : World) (a : A) :
  m w = (Normal a, w1) -> bind m k w = k a w1.
Proof. intros H. unfold bind. now rewrite H. Qed.

Lemma parseResource_frame (w : World) :
  exists w2, parseResource w = (Normal tt, w2) /\
    document w2 = document w /\
    resourceURI (this w2) = resourceURI (this w) /\
    triples (this w2) = triples (this w).
Proof.
  cbv beta iota zeta delta
    [parseResource bind gets set_types set_geometryNode on_this modify ret].
  destruct (filter (fun t => value (predicate t) =? NS.GSP ++ "hasGeometry")
                   (triples (this w)));
    eexists; repeat split.
Qed.

Section IsolationFacts.
Context {P : Platform}.
Variable CONFIG : Config.

Lemma isolated_graph (quads : list triple) :
  isolated (try_catch (initializeGraph quads)
              (fun graphError =>
                 console_log "warn" ("Graph rendering failed: " ++ graphError))).
Proof.
  apply isolated_iff. split.
  - apply swallows_try_catch. intros e. apply swallows_modify.
  - unfold initializeGraph. frame.
Qed.

Lemma isolated_after_render (quads : list triple) :
  isolated
    (try_catch (initializeGraph quads)
       (fun graphError =>
          console_log "warn" ("Graph rendering failed: " ++ graphError)) ;;
     checkForGeometry CONFIG ;;
     loadSameClassResources CONFIG ;;
     set_display "loading" "none").
Proof.
  apply isolated_seq; [apply isolated_graph|].
  apply isolated_seq; [apply isolated_checkForGeometry|].
  apply isolated_seq; [apply isolated_loadSameClassResources|].
  apply isolated_iff. split; [apply swallows_modify|].
  now apply keeps_set_display.
Qed.

(** A load whose DESCRIBE query returns triples that [renderProperties]
    can group ends with the property table rendered and the error state as
    it was, whatever the best-effort steps do. *)
Lemma loadResource_renders (w : World) statusText body t ts grouped :
  fetch (describe_url CONFIG w) "application/n-triples"
  = Response true statusText body ->
  N3_parse body = Normal (t :: ts) ->
  grouped_of (resourceURI (this w)) (t :: ts) = Normal grouped ->
  let w' := snd (loadResource CONFIG w) in
  fst (loadResource CONFIG w) = Normal tt /\
  display (document w') "error" = display (document w) "error" /\
  textContent (document w') "error-message"
  = textContent (document w) "error-message" /\
  display (document w') "properties" = "block" /\
  properties_tbody (document w') = rows_of grouped.
Proof.
  intros Hf Hp Hg w'. subst w'.
  assert (H : exists w4,
    loadResource CONFIG w = (Normal tt, w4) /\
    display (document w4) "error" = display (document w) "error" /\
    textContent (document w4) "error-message"
    = textContent (document w) "error-message" /\
    display (document w4) "properties" = "block" /\
    properties_tbody (document w4) = rows_of grouped).
  { rewrite loadResource_unfold, Hf, Hp.
    cbv zeta. unfold try_catch at 1.
    set (w0 := snd (set_display "loading" "block" w)).
    rewrite (bind_Normal (set_triples (t :: ts)) _ w0 _ tt eq_refl).
    match goal with
    | |- context [bind parseResource ?k ?w1] =>
        destruct (parseResource_frame w1) as (w2 & Hrun & Hdoc & Huri & Hts);
        rewrite (bind_Normal parseResource k w1 w2 tt Hrun)
    end.
    assert (Hg2 : grouped_of (resourceURI (this w2)) (triples (this w2))
                  = Normal grouped)
      by (rewrite Huri, Hts; exact Hg).
    rewrite (bind_Normal renderProperties _ w2 _ tt (renderProperties_ok w2 grouped Hg2)).
    match goal with
    | |- context [bind ?m ?k ?w3] =>
        destruct (isolated_after_render (t :: ts) w3) as [Hn (Ha & Hb & Hc & Hd)];
        destruct (bind m k w3) as [r w4]
    end.
    cbn [fst snd] in Hn, Ha, Hb, Hc, Hd. subst r. exists w4.
    split; [reflexivity|].
    rewrite Ha, Hb, Hc, Hd. cbn.
    rewrite Hdoc. cbn. now repeat split. }
  destruct H as (w4 & E & H). now rewrite E.
Qed.

(** A load whose DESCRIBE query returns triples that [renderProperties]
    cannot group ends in the error state, with the table body cleared and
    the properties section as it was. *)
Lemma loadResource_render_fails (w : World) statusText body t ts e :
  fetch (describe_url CONFIG w) "application/n-triples"
  = Response true statusText body ->
  N3_parse body = Normal (t :: ts) ->
  grouped_of (resourceURI (this w)) (t :: ts) = Throw e ->
  let w' := snd (loadResource CONFIG w) in
  fst (loadResource CONFIG w) = Normal tt /\
  display (document w') "loading" = "none" /\
  display (document w') "error" = "block" /\
  textContent (document w') "error-message" = "Failed to load resource: " ++ e /\
  display (document w') "properties" = display (document w) "properties" /\
  properties_tbody (document w') = [] /\
  console w'
  = (console w ++ [("error", ("Error loading resource: " ++ e)%string)])%list.
Proof.
  intros Hf Hp Hg w'. subst w'.
  assert (H : exists w4,
    loadResource CONFIG w = (Normal tt, w4) /\
    display (document w4) "loading" = "none" /\
    display (document w4) "error" = "block" /\
    textContent (document w4) "error-message" = "Failed to load resource: " ++ e /\
    display (document w4) "properties" = display (document w) "properties" /\
    properties_tbody (document w4) = [] /\
    console w4
    = (console w ++ [("error", ("Error loading resource: " ++ e)%string)])%list).
  { rewrite loadResource_unfold, Hf, Hp.
    cbv zeta. unfold try_catch at 1.
    set (w0 := snd (set_display "loading" "block" w)).
    rewrite (bind_Normal (set_triples (t :: ts)) _ w0 _ tt eq_refl).
    match goal with
    | |- context [bind parseResource ?k ?w1] =>
        destruct (parseResource_frame w1) as (w2 & Hrun & Hdoc & Huri & Hts);
        assert (Hcon : console w2 = console w1)
          by (revert Hrun;
              cbv beta iota zeta delta
                [parseResource bind gets set_types set_geometryNode on_this
                 modify ret];
              destruct (filter _ _); intros Hr; inversion Hr; reflexivity);
        rewrite (bind_Normal parseResource k w1 w2 tt Hrun)
    end.
    assert (Hg2 : grouped_of (resourceURI (this w2)) (triples (this w2)) = Throw e)
      by (rewrite Huri, Hts; exact Hg).
    unfold bind at 1. rewrite (renderProperties_throw w2 e Hg2).
    eexists. split; [reflexivity|].
    cbn [document console display textContent properties_tbody upd].
    rewrite Hdoc, Hcon. subst w0. cbn. now repeat split. }
  destruct H as (w4 & E & H). now rewrite E.
Qed.

End IsolationFacts.

Section BestEffort.
Context {P : Platform}.
Variable CONFIG : Config.

(** [initializeMap] writes to the viewer and the console only. *)
Lemma initializeMap_document (wktLiteral : string) (w : World) :
  document (snd (initializeMap wktLiteral w)) = document w /\
  this (snd (initializeMap wktLiteral w)) = this w.
Proof.
  unfold initializeMap, try_catch, bind, lift.
  destruct (parseWKT wktLiteral) as [[[g|] srid]|e]; cbn [fst snd];
    try (split; reflexivity).
  destruct (srid_and_not_4326 srid); [|split; reflexivity].
  destruct srid as [n|]; [|split; reflexivity].
  unfold transformCoordinates.
  destruct (commonProjections n) as [definition|]; [|split; reflexivity].
  unfold transform_in_place, bind, gets, lift. cbn.
  destruct (transformGeoJSON g definition); split; reflexivity.
Qed.

Lemma checkForGeometry_lookup_failure (w w1 : World) (e : string) :
  points_somewhere (geometryNode (this w)) = true ->
  geometry_lookup CONFIG (geometryNode (this w)) w = (Throw e, w1) ->
  checkForGeometry CONFIG w =
    (Normal tt,
     mkWorld (this w) (document w) (PREFIXES w) (viewer w)
       (console w ++ [("error", "Error fetching geometry: " ++ e)])).
Proof.
  intros Hn Hl. pose proof (geometry_lookup_throws CONFIG _ _ _ _ Hl) as ->.
  unfold checkForGeometry, bind at 1, gets at 1.
  unfold points_somewhere in Hn. rewrite Hn. cbn [negb].
  unfold try_catch. now rewrite Hl.
Qed.

Lemma loadSameClassResources_lookup_failure (w w1 : World) typeURI rest (e : string) :
  types (this w) = typeURI :: rest ->
  same_class_lookup CONFIG typeURI w = (Throw e, w1) ->
  loadSameClassResources CONFIG w =
    (Normal tt,
     snd (set_display "see-also-loading" "none"
            (mkWorld (this w) (document w) (PREFIXES w) (viewer w)
               (console w ++ [("error",
                  "Error loading same-class resources: " ++ e)])))).
Proof.
  intros Ht Hl. pose proof (same_class_lookup_throws CONFIG _ _ _ _ Hl) as ->.
  unfold loadSameClassResources, bind at 1, gets at 1. rewrite Ht.
  unfold try_catch. now rewrite Hl.
Qed.

Lemma checkForGeometry_reveals_map (w : World) statusText body b bindings wkt :
  points_somewhere (geometryNode (this w)) = true ->
  fetch (wkt_url CONFIG (geometryNode (this w))) "application/sparql-results+json"
  = Response true statusText body ->
  bindings_of_json body = Normal (b :: bindings) ->
  obj_get "wkt" b = Some wkt ->
  display (document (snd (checkForGeometry CONFIG w))) "map" = "block" /\
  textContent (document (snd (checkForGeometry CONFIG w))) "wkt-code" = wkt /\
  wktLiteral (this (snd (checkForGeometry CONFIG w))) = Some wkt.
Proof.
  intros Hn Hf Hb Hw.
  assert (H : exists w4,
    checkForGeometry CONFIG w = (Normal tt, w4) /\
    display (document w4) "map" = "block" /\
    textContent (document w4) "wkt-code" = wkt /\
    wktLiteral (this w4) = Some wkt).
  { unfold checkForGeometry, bind at 1, gets at 1.
    unfold points_somewhere in Hn. rewrite Hn. cbn [negb].
    unfold try_catch, geometry_lookup.
    fold (wkt_url CONFIG (geometryNode (this w))).
    rewrite Hf. cbn [negb]. unfold bind at 1. unfold lift at 1. rewrite Hb, Hw.
    cbv [bind set_wktLiteral set_textContent set_display on_this on_document modify].
    match goal with
    | |- context [initializeMap wkt ?w3] =>
        destruct (initializeMap_document wkt w3) as [Hd Ht];
        pose proof (swallows_initializeMap wkt w3) as Hs;
        destruct (initializeMap wkt w3) as [r w4]
    end.
    cbn [fst snd] in Hd, Ht, Hs. subst r. exists w4.
    rewrite Hd, Ht. now repeat split. }
  destruct H as (w4 & E & H). now rewrite E.
Qed.

Lemma initializeMap_map_failure (wktLiteral text : string) (w : World) :
  map_failure wktLiteral text ->
  fst (initializeMap wktLiteral w) = Normal tt /\
  console (snd (initializeMap wktLiteral w))
  = (console w ++ [("error", text)])%list /\
  geoJsonLayer (viewer (snd (initializeMap wktLiteral w)))
  = geoJsonLayer (viewer w).
Proof.
  unfold initializeMap, try_catch, bind, lift.
  intros [(e & H & ->)|[(srid & H & ->)|(g & x & definition & e & H & Hs & Hd & Ht & ->)]];
    rewrite H; cbn [fst snd].
  - now repeat split.
  - now repeat split.
  - rewrite Hs. unfold transformCoordinates. rewrite Hd.
    unfold transform_in_place, bind, gets, lift. cbn. rewrite Ht.
    now repeat split.
Qed.

Lemma checkForGeometry_map_failure
  (w : World) statusText body b bindings wkt text :
  points_somewhere (geometryNode (this w)) = true ->
  fetch (wkt_url CONFIG (geometryNode (this w))) "application/sparql-results+json"
  = Response true statusText body ->
  bindings_of_json body = Normal (b :: bindings) ->
  obj_get "wkt" b = Some wkt ->
  map_failure wkt text ->
  console (snd (checkForGeometry CONFIG w))
  = (console w ++ [("error", text)])%list /\
  geoJsonLayer (viewer (snd (checkForGeometry CONFIG w)))
  = geoJsonLayer (viewer w).
Proof.
  intros Hn Hf Hb Hw Hm.
  assert (H : exists w4,
    checkForGeometry CONFIG w = (Normal tt, w4) /\
    console w4 = (console w ++ [("error", text)])%list /\
    geoJsonLayer (viewer w4) = geoJsonLayer (viewer w)).
  { unfold checkForGeometry, bind at 1, gets at 1.
    unfold points_somewhere in Hn. rewrite Hn. cbn [negb].
    unfold try_catch, geometry_lookup.
    fold (wkt_url CONFIG (geometryNode (this w))).
    rewrite Hf. cbn [negb]. unfold bind at 1. unfold lift at 1. rewrite Hb, Hw.
    cbv [bind set_wktLiteral set_textContent set_display on_this on_document modify].
    match goal with
    | |- context [initializeMap wkt ?w3] =>
        destruct (initializeMap_map_failure wkt text w3 Hm) as (Hr & Hc & Hl);
        destruct (initializeMap wkt w3) as [r w4]
    end.
    cbn [fst snd] in Hr, Hc, Hl. subst r. exists w4.
    split; [reflexivity|]. split; [exact Hc | exact Hl]. }
  destruct H as (w4 & E & H). now rewrite E.
Qed.

(** C9, as amended.  The geometry check and the related-resources lookup
    never throw and never touch the page-level error state or the rendered
    property table, and the same holds of [initializeMap]; hence a load
    whose DESCRIBE query returned triples that the table can hold ends with
    the table rendered and the error state as before, whatever happens in
    these steps.  When the lookup itself fails (the request, its status,
    the decoding of its result), the failure is logged and the
    corresponding section stays as it was.  Once the WKT literal has been
    fetched the map section is revealed with the literal's text, before the
    map is initialised: a failure there -- the WKT library throws or
    returns no geometry, or the conversion of the coordinates throws -- is
    logged and swallowed with the section displayed and without a new
    layer. *)
Theorem best_effort_steps_are_isolated (w : World) :
  isolated (checkForGeometry CONFIG) /\
  isolated (loadSameClassResources CONFIG) /\
  (forall wktLiteral, isolated (initializeMap wktLiteral)) /\
  (forall statusText body t ts grouped,
     fetch (describe_url CONFIG w) "application/n-triples"
     = Response true statusText body ->
     N3_parse body = Normal (t :: ts) ->
     grouped_of (resourceURI (this w)) (t :: ts) = Normal grouped ->
     let w' := snd (loadResource CONFIG w) in
     fst (loadResource CONFIG w) = Normal tt /\
     display (document w') "error" = display (document w) "error" /\
     textContent (document w') "error-message"
     = textContent (document w) "error-message" /\
     display (document w') "properties" = "block" /\
     properties_tbody (document w') = rows_of grouped) /\
  (forall e w1,
     points_somewhere (geometryNode (this w)) = true ->
     geometry_lookup CONFIG (geometryNode (this w)) w = (Throw e, w1) ->
     let wg := snd (checkForGeometry CONFIG w) in
     console wg
     = (console w ++ [("error", ("Error fetching geometry: " ++ e)%string)])%list /\
     display (document wg) "map" = display (document w) "map" /\
     geoJsonLayer (viewer wg) = geoJsonLayer (viewer w)) /\
  (forall typeURI rest e w1,
     types (this w) = typeURI :: rest ->
     same_class_lookup CONFIG typeURI w = (Throw e, w1) ->
     let ws := snd (loadSameClassResources CONFIG w) in
     console ws
     = (console w ++ [("error",
          ("Error loading same-class resources: " ++ e)%string)])%list /\
     display (document ws) "see-also" = display (document w) "see-also" /\
     see_also_list (document ws) = see_also_list (document w)) /\
  (forall statusText body b bindings wkt,
     points_somewhere (geometryNode (this w)) = true ->
     fetch (wkt_url CONFIG (geometryNode (this w))) "application/sparql-results+json"
     = Response true statusText body ->
     bindings_of_json body = Normal (b :: bindings) ->
     obj_get "wkt" b = Some wkt ->
     let wg := snd (checkForGeometry CONFIG w) in
     display (document wg) "map" = "block" /\
     textContent (document wg) "wkt-code" = wkt /\
     wktLiteral (this wg) = Some wkt /\
     forall text,
       map_failure wkt text ->
       console wg = (console w ++ [("error", text)])%list /\
       geoJsonLayer (viewer wg) = geoJsonLayer (viewer w)).
Proof.
  split; [apply isolated_checkForGeometry|].
  split; [apply isolated_loadSameClassResources|].
  split; [apply isolated_initializeMap|].
  split; [intros; now apply loadResource_renders with statusText body t ts|].
  split; [|split].
  - intros e w1 Hn Hl wg. subst wg.
    now rewrite (checkForGeometry_lookup_failure w w1 e Hn Hl).
  - intros typeURI rest e w1 Ht Hl ws. subst ws.
    now rewrite (loadSameClassResources_lookup_failure w w1 typeURI rest e Ht Hl).
  - intros statusText body b bindings wkt Hn Hf Hb Hw wg. subst wg.
    destruct (checkForGeometry_reveals_map w statusText body b bindings wkt
                Hn Hf Hb Hw) as (H1 & H2 & H3).
    split; [exact H1|]. split; [exact H2|]. split; [exact H3|].
    intros text Hm.
    now apply checkForGeometry_map_failure with statusText body b bindings wkt.
Qed.

End BestEffort.

(** C9, as stated, fails when the fetched literal does not parse: the
    failure is logged and swallowed -- the error state stays unset -- yet
    the map section, hidden before, is displayed afterwards, with no
    geometry layer. *)
Lemma checkForGeometry_shows_map_on_parse_failure :
  display (document Doubles.with_geometry) "map" = "none" /\
  fst (checkForGeometry (P := Doubles.garbled_geometry) Doubles.example_CONFIG
         Doubles.with_geometry)
  = Normal tt /\
  List.map fst
    (console (snd (checkForGeometry (P := Doubles.garbled_geometry)
                     Doubles.example_CONFIG Doubles.with_geometry)))
  = ["error"] /\
  display (document (snd (checkForGeometry (P := Doubles.garbled_geometry)
                            Doubles.example_CONFIG Doubles.with_geometry))) "error"
  = "none" /\
  geoJsonLayer (viewer (snd (checkForGeometry (P := Doubles.garbled_geometry)
                               Doubles.example_CONFIG Doubles.with_geometry)))
  = None /\
  display (document (snd (checkForGeometry (P := Doubles.garbled_geometry)
                            Doubles.example_CONFIG Doubles.with_geometry))) "map"
  = "block".
Proof.
  split; [reflexivity|]. split; [reflexivity|]. split; [reflexivity|].
  split; [reflexivity|]. split; reflexivity.
Qed.

Lemma best_effort_steps_are_isolated_witness :
  console (snd (checkForGeometry (P := Doubles.offline) Doubles.example_CONFIG
                  Doubles.with_geometry))
  = [("error", "Error fetching geometry: Failed to fetch")] /\
  display (document (snd (checkForGeometry (P := Doubles.offline)
                            Doubles.example_CONFIG Doubles.with_geometry))) "map"
  = "none" /\
  geoJsonLayer (viewer (snd (checkForGeometry (P := Doubles.offline)
                               Doubles.example_CONFIG Doubles.with_geometry)))
  = None.
Proof.
  exact (proj1 (proj2 (proj2 (proj2 (proj2
           (best_effort_steps_are_isolated (P := Doubles.offline)
              Doubles.example_CONFIG Doubles.with_geometry)))))
           "Failed to fetch" Doubles.with_geometry eq_refl eq_refl).
Defined.

(* ===================================================================== *)
(** * Further properties of the code *)
(* ===================================================================== *)

(** ** Links and resolution compose *)

Lemma startsWith_trans (u ns p : string) :
  startsWith u ns = true -> startsWith ns p = true -> startsWith u p = true.
Proof.
  intros Hu Hn. apply startsWith_iff in Hu as [r ->].
  apply startsWith_iff in Hn as [r' ->].
  apply startsWith_iff. exists (r' ++ r).
  clear. induction p as [|c p IH]; simpl; [reflexivity | now rewrite IH].
Qed.

Lemma startsWith_nonempty (u p : string) :
  startsWith u p = true -> p <> "" -> u <> "".
Proof.
  intros H Hp ->. destruct p as [|c p]; [congruence | discriminate].
Qed.

Section RoundTrips.
Context {P : Platform}.

(** X1.  In production -- the page is served at the entity namespace, and
    [config.js] takes the base from the page's origin -- following the
    local link of a URI below the namespace resolves to that URI again:
    for [u] the namespace, a slash and a non-empty [r] that is not [/] and
    carries no [http://] or [https://] scheme, [makeLocalLink(u)] is the
    path [/r], and [extractURIFromPath] on that path returns [u].  The
    namespace itself is linked to [/], which resolves to no URI. *)
Theorem local_link_resolves_back_in_production (endpoint ns path r : string) :
  let location := mkLocation ns path in
  let CONFIG := CONFIG_of endpoint ns location in
  (r <> "" -> r <> "/" ->
   startsWith r "http://" = false -> startsWith r "https://" = false ->
   makeLocalLink CONFIG location (ns ++ "/" ++ r) = Some ("/" ++ r) /\
   extractURIFromPath CONFIG (mkLocation ns ("/" ++ r))
   = Normal (Some (ns ++ "/" ++ r))) /\
  makeLocalLink CONFIG location ns = Some "/" /\
  extractURIFromPath CONFIG (mkLocation ns "/") = Normal None.
Proof.
  intros location CONFIG. split; [|split].
  - intros H1 H2 H3 H4. split.
    + unfold makeLocalLink. cbn [CONFIG CONFIG_of ENTITY_NS origin location].
      rewrite startsWith_append, substring_from_append, String.eqb_refl.
      reflexivity.
    + change ("/" ++ r) with (String "/" r) at 1.
      rewrite extractURIFromPath_unfold.
      apply String.eqb_neq in H1, H2. now rewrite H1, H2, H3, H4.
  - unfold makeLocalLink. cbn [CONFIG CONFIG_of ENTITY_NS origin location].
    pose proof (startsWith_append ns "") as Hs.
    pose proof (substring_from_append ns "") as Hd.
    assert (E : ns ++ "" = ns) by (clear; induction ns; simpl; congruence).
    rewrite E in Hs, Hd. now rewrite Hs, Hd, String.eqb_refl.
  - reflexivity.
Qed.

(** X2.  In testing -- the page's origin is not the entity namespace, and
    the namespace is an [http://] or [https://] URI -- [makeLocalLink(u)]
    for a URI [u] of the namespace is [/] followed by [u], and
    [extractURIFromPath] on a pathname that is this very string returns the
    percent-decoding of [u]: it returns [u] itself exactly when decoding
    leaves [u] unchanged.  Which pathname the browser derives from the
    link is outside the two functions and not part of the statement. *)
Theorem local_link_resolves_to_decoding_in_testing
  (CONFIG : Config) (location : Location) (u : string) :
  origin location <> ENTITY_NS CONFIG ->
  startsWith u (ENTITY_NS CONFIG) = true ->
  startsWith (ENTITY_NS CONFIG) "http://" = true \/
  startsWith (ENTITY_NS CONFIG) "https://" = true ->
  makeLocalLink CONFIG location u = Some ("/" ++ u) /\
  extractURIFromPath CONFIG (mkLocation (origin location) ("/" ++ u))
  = mapC Some (decodeURIComponent u) /\
  (extractURIFromPath CONFIG (mkLocation (origin location) ("/" ++ u))
   = Normal (Some u) <-> decodeURIComponent u = Normal u).
Proof.
  intros Ho Hu Hs.
  assert (Hscheme : startsWith u "http://" || startsWith u "https://" = true).
  { apply orb_true_iff.
    destruct Hs as [H|H]; [left|right]; now apply startsWith_trans with (ENTITY_NS CONFIG). }
  assert (Hne : (u =? "") || (u =? "/") = false).
  { destruct (String.eqb_spec u "") as [->|_]; [discriminate Hscheme|].
    destruct (String.eqb_spec u "/") as [->|_]; [discriminate Hscheme|].
    reflexivity. }
  assert (He : extractURIFromPath CONFIG (mkLocation (origin location) ("/" ++ u))
               = mapC Some (decodeURIComponent u)).
  { change ("/" ++ u) with (String "/" u).
    now rewrite extractURIFromPath_unfold, Hne, Hscheme. }
  split; [|split; [exact He|]].
  - unfold makeLocalLink. rewrite Hu. cbn [negb].
    apply String.eqb_neq in Ho. now rewrite Ho.
  - rewrite He. unfold mapC. destruct (decodeURIComponent u) as [d|e]; simpl.
    + split; intros H; inversion H; reflexivity.
    + split; discriminate.
Qed.

End RoundTrips.

Lemma local_link_resolves_back_in_production_witness :
  makeLocalLink Doubles.example_CONFIG (Doubles.production "/x")
    "https://data.matdata.eu/_net_1" = Some "/_net_1" /\
  extractURIFromPath (P := Doubles.offline) Doubles.example_CONFIG
    (Doubles.production "/_net_1")
  = Normal (Some "https://data.matdata.eu/_net_1").
Proof.
  apply (proj1 (local_link_resolves_back_in_production (P := Doubles.offline)
                  "https://jena.matdata.eu/rinf/sparql" "https://data.matdata.eu"
                  "/x" "_net_1")); (discriminate || reflexivity).
Defined.

Lemma local_link_resolves_to_decoding_in_testing_witness :
  makeLocalLink Doubles.testing_CONFIG (Doubles.testing "/x")
    "https://data.matdata.eu/a%20b" = Some "/https://data.matdata.eu/a%20b" /\
  extractURIFromPath (P := Doubles.offline) Doubles.testing_CONFIG
    (Doubles.testing "/https://data.matdata.eu/a%20b")
  = Normal (Some "https://data.matdata.eu/a b").
Proof.
  destruct (local_link_resolves_to_decoding_in_testing (P := Doubles.offline)
              Doubles.testing_CONFIG (Doubles.testing "/x")
              "https://data.matdata.eu/a%20b") as (H1 & H2 & _).
  - discriminate.
  - reflexivity.
  - right. reflexivity.
  - split; [exact H1 | exact H2].
Defined.

(** ** Overlapping namespaces *)

Lemma shortenURI_drop_unmatched (mid after : list (string * string)) ns p uri :
  startsWith uri ns = false ->
  shortenURI (mid ++ (ns, p) :: after) uri = shortenURI (mid ++ after) uri.
Proof.
  intros H. induction mid as [|[ns' p'] mid IH]; simpl.
  - now rewrite H.
  - now rewrite IH.
Qed.

(** X3.  An entry of the prefix map whose namespace extends the namespace of
    an earlier entry is never used: whatever the URI, shortening gives the
    same result with and without the later entry, because a URI that starts
    with the longer namespace starts with the shorter one, which the scan
    meets first. *)
Theorem shortenURI_earlier_namespace_masks_longer
  (before mid after : list (string * string)) (ns1 p1 ns2 p2 uri : string) :
  startsWith ns2 ns1 = true ->
  shortenURI (before ++ (ns1, p1) :: mid ++ (ns2, p2) :: after) uri
  = shortenURI (before ++ (ns1, p1) :: mid ++ after) uri.
Proof.
  intros Hext. induction before as [|[ns p] before IH]; simpl.
  - destruct (startsWith uri ns1) eqn:E1; [reflexivity|].
    apply shortenURI_drop_unmatched.
    destruct (startsWith uri ns2) eqn:E2; [|reflexivity].
    now rewrite (startsWith_trans uri ns2 ns1 E2 Hext) in E1.
  - now rewrite IH.
Qed.

Lemma shortenURI_earlier_namespace_masks_longer_witness :
  shortenURI [("http://www.w3.org/", "w3");
              ("http://www.w3.org/2000/01/rdf-schema#", "rdfs")]
             "http://www.w3.org/2000/01/rdf-schema#label"
  = shortenURI [("http://www.w3.org/", "w3")]
               "http://www.w3.org/2000/01/rdf-schema#label".
Proof.
  exact (shortenURI_earlier_namespace_masks_longer [] [] []
           "http://www.w3.org/" "w3" "http://www.w3.org/2000/01/rdf-schema#" "rdfs"
           "http://www.w3.org/2000/01/rdf-schema#label" eq_refl).
Defined.

(** ** Start-up *)

Section StartUp.
Context {P : Platform}.
Variable CONFIG : Config.
Variable location : Location.

Lemma loadPrefixes_run (w : World) :
  loadPrefixes w =
    match fetch "/assets/data/prefixes.json" "" with
    | Response true _ body =>
        match prefixes_of_json body with
        | Normal p =>
            (Normal tt, mkWorld (this w) (document w) p (viewer w) (console w))
        | Throw _ =>
            (Normal tt,
             mkWorld (this w) (document w) (PREFIXES w) (viewer w)
               (console w ++ [("warn", "Could not load prefixes.json, using defaults")]))
        end
    | Response false _ _ => (Normal tt, w)
    | Rejected _ =>
        (Normal tt,
         mkWorld (this w) (document w) (PREFIXES w) (viewer w)
           (console w ++ [("warn", "Could not load prefixes.json, using defaults")]))
    end.
Proof.
  unfold loadPrefixes, try_catch.
  destruct (fetch "/assets/data/prefixes.json" "") as [e|[|] statusText body];
    try reflexivity.
  unfold bind, lift. now destruct (prefixes_of_json body).
Qed.

Lemma loadPrefixes_frame (w : World) :
  fst (loadPrefixes w) = Normal tt /\
  this (snd (loadPrefixes w)) = this w /\
  document (snd (loadPrefixes w)) = document w /\
  viewer (snd (loadPrefixes w)) = viewer w.
Proof.
  rewrite loadPrefixes_run.
  destruct (fetch "/assets/data/prefixes.json" "") as [e|[|] statusText body];
    try (now repeat split).
  destruct (prefixes_of_json body); now repeat split.
Qed.

(** X4.  Loading the prefix map never fails the page: [loadPrefixes] never
    throws and touches neither the application object, the document nor the
    map.  A response that is [ok] and decodes replaces [PREFIXES] by the
    decoded map; in every other case [PREFIXES] stays what it was, so from
    the initial empty map every URI is then displayed in full. *)
Theorem loadPrefixes_degrades_to_full_URIs (w : World) :
  let w' := snd (loadPrefixes w) in
  fst (loadPrefixes w) = Normal tt /\
  this w' = this w /\ document w' = document w /\ viewer w' = viewer w /\
  (forall statusText body p,
     fetch "/assets/data/prefixes.json" "" = Response true statusText body ->
     prefixes_of_json body = Normal p ->
     PREFIXES w' = p /\ console w' = console w) /\
  ((forall statusText body p,
      fetch "/assets/data/prefixes.json" "" = Response true statusText body ->
      prefixes_of_json body <> Normal p) ->
   PREFIXES w' = PREFIXES w /\
   (PREFIXES w = [] -> forall uri, shortenURI (PREFIXES w') uri = uri)).
Proof.
  intros w'. subst w'.
  destruct (loadPrefixes_frame w) as (Hn & Ht & Hd & Hv).
  split; [exact Hn|]. split; [exact Ht|]. split; [exact Hd|]. split; [exact Hv|].
  rewrite loadPrefixes_run.
  destruct (fetch "/assets/data/prefixes.json" "") as [e|[|] statusText body].
  - split; [intros st b p H; discriminate H|].
    intros _. split; [reflexivity|]. intros E uri. cbn. now rewrite E.
  - destruct (prefixes_of_json body) as [p|e] eqn:Ep.
    + split.
      * intros st b p' H Hp. inversion H; subst.
        rewrite Ep in Hp. inversion Hp. now split.
      * intros H. now elim (H statusText body p eq_refl).
    + split.
      * intros st b p' H Hp. inversion H; subst. congruence.
      * intros _. split; [reflexivity|]. intros E uri. cbn. now rewrite E.
  - split; [intros st b p H; discriminate H|].
    intros _. split; [reflexivity|]. intros E uri. cbn [snd]. now rewrite E.
Qed.

Lemma swallows_showError (message : string) : swallows (showError message).
Proof. intros w. reflexivity. Qed.

Lemma swallows_loadResource : swallows (loadResource CONFIG).
Proof.
  unfold loadResource. apply swallows_try_catch. intros e.
  apply swallows_seq; [apply swallows_modify | apply swallows_showError].
Qed.

Lemma swallows_display_and_load : swallows (displayURI ;; loadResource CONFIG).
Proof.
  apply swallows_seq; [|apply swallows_loadResource].
  unfold displayURI. apply swallows_gets_bind. intros u.
  apply swallows_seq; apply swallows_modify.
Qed.

Lemma extractURIFromPath_Throw (e : string) :
  extractURIFromPath CONFIG location = Throw e ->
  (startsWith (substring_from 1 (pathname location)) "http://" = true \/
   startsWith (substring_from 1 (pathname location)) "https://" = true) /\
  decodeURIComponent (substring_from 1 (pathname location)) = Throw e.
Proof.
  unfold extractURIFromPath.
  destruct (negb _ || _); [discriminate|].
  destruct (startsWith _ "http://" || startsWith _ "https://") eqn:E;
    [|discriminate].
  apply orb_true_iff in E. unfold mapC.
  destruct (decodeURIComponent _) as [d|e']; simpl; [discriminate|].
  intros H. inversion H. now split.
Qed.

Lemma init_run (w : World) :
  init CONFIG location w =
    let w1 := snd (loadPrefixes w) in
    match extractURIFromPath CONFIG location with
    | Throw e => (Throw e, w1)
    | Normal uri =>
        let w2 := snd (set_resourceURI uri w1) in
        if negb (points_somewhere uri)
        then showError "No URI specified. Please provide a resource URI in the path." w2
        else (displayURI ;; loadResource CONFIG) w2
    end.
Proof.
  unfold init. unfold bind at 1.
  pose proof (proj1 (loadPrefixes_frame w)) as Hn.
  destruct (loadPrefixes w) as [r w1]. cbn [fst snd] in *. subst r.
  unfold bind at 1, lift at 1.
  destruct (extractURIFromPath CONFIG location) as [uri|e]; [|reflexivity].
  unfold bind at 1. cbn [set_resourceURI on_this modify snd].
  unfold points_somewhere.
  destruct (negb match uri with Some u => truthy u | None => false end);
    reflexivity.
Qed.

(** X5.  [init] throws only when the path carries an [http://] or
    [https://] URI whose percent-decoding throws, with the decoder's error.
    Nothing catches it: the document and the application object are then
    exactly as before [init], with no error message shown. *)
Theorem init_throws_only_on_malformed_escape (w : World) (e : string) :
  (fst (init CONFIG location w) = Throw e <->
   extractURIFromPath CONFIG location = Throw e) /\
  (fst (init CONFIG location w) = Throw e ->
   (startsWith (substring_from 1 (pathname location)) "http://" = true \/
    startsWith (substring_from 1 (pathname location)) "https://" = true) /\
   decodeURIComponent (substring_from 1 (pathname location)) = Throw e /\
   document (snd (init CONFIG location w)) = document w /\
   this (snd (init CONFIG location w)) = this w).
Proof.
  assert (Hiff : fst (init CONFIG location w) = Throw e <->
                 extractURIFromPath CONFIG location = Throw e).
  { rewrite init_run. cbv zeta.
    destruct (extractURIFromPath CONFIG location) as [uri|e'].
    - destruct (negb (points_somewhere uri)).
      + split; discriminate.
      + split; [|discriminate].
        rewrite swallows_display_and_load. discriminate.
    - cbn [fst]. split; congruence. }
  split; [exact Hiff|].
  intros H. apply Hiff in H.
  destruct (extractURIFromPath_Throw e H) as [Hs Hd].
  split; [exact Hs|]. split; [exact Hd|].
  rewrite init_run, H. cbn [snd].
  destruct (loadPrefixes_frame w) as (_ & Ht & Hdoc & _).
  now split.
Qed.

End StartUp.

Lemma init_throws_only_on_malformed_escape_witness :
  fst (init (P := Doubles.offline) Doubles.testing_CONFIG
         (Doubles.testing "/http://example.org/%zz") Doubles.blank)
  = Throw "URI malformed" /\
  display (document (snd (init (P := Doubles.offline) Doubles.testing_CONFIG
             (Doubles.testing "/http://example.org/%zz") Doubles.blank))) "error"
  = "none".
Proof.
  pose proof (init_throws_only_on_malformed_escape (P := Doubles.offline)
                Doubles.testing_CONFIG (Doubles.testing "/http://example.org/%zz")
                Doubles.blank "URI malformed") as [Hiff Hrest].
  assert (H : fst (init (P := Doubles.offline) Doubles.testing_CONFIG
                     (Doubles.testing "/http://example.org/%zz") Doubles.blank)
              = Throw "URI malformed") by (apply Hiff; reflexivity).
  split; [exact H|].
  destruct (Hrest H) as (_ & _ & Hd & _). now rewrite Hd.
Defined.

Section LoadOutcomes.
Context {P : Platform}.
Variable CONFIG : Config.
Variable location : Location.

(** X6.  When the path supplies no URI, [init] ends normally with the
    message [No URI specified...] in the displayed error section and the
    spinner hidden; the resource stays [null], and neither the triples nor
    the property table are touched. *)
Theorem init_without_URI_shows_error (w : World) :
  extractURIFromPath CONFIG location = Normal None ->
  let w' := snd (init CONFIG location w) in
  fst (init CONFIG location w) = Normal tt /\
  display (document w') "error" = "block" /\
  textContent (document w') "error-message"
  = "No URI specified. Please provide a resource URI in the path." /\
  display (document w') "loading" = "none" /\
  resourceURI (this w') = None /\
  triples (this w') = triples (this w) /\
  properties_tbody (document w') = properties_tbody (document w).
Proof.
  intros H w'. subst w'. rewrite init_run, H. cbv zeta. cbn [points_somewhere negb].
  destruct (loadPrefixes_frame w) as (_ & Ht & Hd & _).
  cbn. rewrite Ht, Hd. now repeat split.
Qed.

(** After a step that never throws, the next step runs. *)
Lemma seq_runs_next (m k : M unit) (w : World) :
  swallows m -> bind m (fun _ => k) w = k (snd (m w)).
Proof.
  intros Hm. unfold bind. specialize (Hm w).
  destruct (m w) as [[[]|e] w1]; [reflexivity | discriminate].
Qed.

Lemma after_render_hides_spinner (quads : list triple) (w : World) :
  display (document (snd
    ((try_catch (initializeGraph quads)
        (fun graphError =>
           console_log "warn" ("Graph rendering failed: " ++ graphError)) ;;
      checkForGeometry CONFIG ;;
      loadSameClassResources CONFIG ;;
      set_display "loading" "none") w))) "loading" = "none".
Proof.
  rewrite seq_runs_next by apply isolated_iff, isolated_graph.
  rewrite seq_runs_next by apply isolated_iff, isolated_checkForGeometry.
  rewrite seq_runs_next by apply isolated_iff, isolated_loadSameClassResources.
  reflexivity.
Qed.

(** X7.  [loadResource] never throws and always ends with the spinner
    hidden.  It ends in one of two ways: with the error section displayed,
    the properties section as before the load and the table body either
    exactly as before or -- when rendering the table threw -- cleared; or
    with the property table displayed and the error section as before the
    load.  A load never shows both the table it rendered and an error of
    its own. *)
Theorem loadResource_always_settles (w : World) :
  let w' := snd (loadResource CONFIG w) in
  fst (loadResource CONFIG w) = Normal tt /\
  display (document w') "loading" = "none" /\
  ((display (document w') "error" = "block" /\
    (properties_tbody (document w') = properties_tbody (document w) \/
     properties_tbody (document w') = []) /\
    display (document w') "properties" = display (document w) "properties") \/
   (display (document w') "properties" = "block" /\
    display (document w') "error" = display (document w) "error" /\
    textContent (document w') "error-message"
    = textContent (document w) "error-message")).
Proof.
  intros w'. subst w'. split; [apply swallows_loadResource|].
  destruct (fetch (describe_url CONFIG w) "application/n-triples")
    as [e|[|] statusText body] eqn:Hf.
  - rewrite loadResource_unfold, Hf. split; [reflexivity|]. left.
    split; [reflexivity|]. split; [now left | reflexivity].
  - destruct (N3_parse body) as [[|t ts]|e] eqn:Hp.
    + rewrite loadResource_unfold, Hf, Hp. split; [reflexivity|]. left.
      split; [reflexivity|]. split; [now left | reflexivity].
    + destruct (grouped_of (resourceURI (this w)) (t :: ts)) as [grouped|e] eqn:Hg.
      * split.
        -- rewrite loadResource_unfold, Hf, Hp. cbv zeta. unfold try_catch at 1.
           set (w0 := snd (set_display "loading" "block" w)).
           rewrite (bind_Normal (set_triples (t :: ts)) _ w0 _ tt eq_refl).
           match goal with
           | |- context [bind parseResource ?k ?w1] =>
               destruct (parseResource_frame w1) as (w2 & Hrun & _ & Huri & Hts);
               rewrite (bind_Normal parseResource k w1 w2 tt Hrun)
           end.
           assert (Hg2 : grouped_of (resourceURI (this w2)) (triples (this w2))
                         = Normal grouped)
             by (rewrite Huri, Hts; exact Hg).
           rewrite (bind_Normal renderProperties _ w2 _ tt
                      (renderProperties_ok w2 grouped Hg2)).
           match goal with
           | |- context [bind ?m ?k ?w3] =>
               pose proof (after_render_hides_spinner (t :: ts) w3) as Hl;
               pose proof (proj1 (isolated_after_render CONFIG (t :: ts) w3)) as Hn;
               destruct (bind m k w3) as [r w4]
           end.
           cbn [fst snd] in Hl, Hn. subst r. exact Hl.
        -- right.
           destruct (loadResource_renders CONFIG w statusText body t ts grouped
                       Hf Hp Hg) as (_ & He & Hm & Hpr & _).
           now repeat split.
      * destruct (loadResource_render_fails CONFIG w statusText body t ts e
                    Hf Hp Hg) as (_ & Hl & He & _ & Hpr & Htb & _).
        split; [exact Hl|]. left.
        split; [exact He|]. split; [now right | exact Hpr].
    + rewrite loadResource_unfold, Hf, Hp. split; [reflexivity|]. left.
      split; [reflexivity|]. split; [now left | reflexivity].
  - rewrite loadResource_unfold, Hf. split; [reflexivity|]. left.
    split; [reflexivity|]. split; [now left | reflexivity].
Qed.

End LoadOutcomes.

Lemma init_without_URI_shows_error_witness :
  textContent (document (snd (init (P := Doubles.offline) Doubles.example_CONFIG
     (Doubles.production "//") Doubles.blank))) "error-message"
  = "No URI specified. Please provide a resource URI in the path." /\
  resourceURI (this (snd (init (P := Doubles.offline) Doubles.example_CONFIG
     (Doubles.production "//") Doubles.blank))) = None.
Proof.
  destruct (init_without_URI_shows_error (P := Doubles.offline)
              Doubles.example_CONFIG (Doubles.production "//") Doubles.blank
              eq_refl) as (_ & _ & Hm & _ & Hr & _).
  split; [exact Hm | exact Hr].
Defined.

(** ** What the derived views depend on *)

Lemma filter_on_image {A B} (g : A -> B) (f : B -> bool) (h : B -> string) (l : list A) :
  List.map (fun a => h (g a)) (filter (fun a => f (g a)) l)
  = List.map h (filter f (List.map g l)).
Proof.
  induction l as [|a l IH]; simpl; [reflexivity|].
  destruct (f (g a)); simpl; now rewrite IH.
Qed.

Lemma parseResource_views (w : World) :
  types (this (snd (parseResource w)))
  = List.map (fun po => value (snd po))
      (filter (fun po => value (fst po) =? NS.RDF ++ "type")
              (List.map predicate_and_object (triples (this w)))) /\
  geometryNode (this (snd (parseResource w)))
  = match List.map (fun po => value (snd po))
            (filter (fun po => value (fst po) =? NS.GSP ++ "hasGeometry")
                    (List.map predicate_and_object (triples (this w)))) with
    | v :: _ => Some v
    | [] => geometryNode (this w)
    end.
Proof.
  rewrite <- !(filter_on_image predicate_and_object
                 (fun po => value (fst po) =? _) (fun po => value (snd po))).
  cbv beta iota zeta delta
    [parseResource bind gets set_types set_geometryNode on_this modify ret
     predicate_and_object fst snd].
  destruct (filter (fun t => value (predicate t) =? NS.GSP ++ "hasGeometry")
                   (triples (this w))); split; reflexivity.
Qed.

(** X8.  [parseResource] does not look at subjects: two descriptions whose
    triples agree, one by one, in predicate and object give the same type
    list and the same geometry pointer, whatever their subjects -- a type
    or geometry stated of some other resource in the DESCRIBE result counts
    like one stated of the page's resource. *)
Theorem parseResource_ignores_subjects (w1 w2 : World) :
  List.map predicate_and_object (triples (this w1))
  = List.map predicate_and_object (triples (this w2)) ->
  geometryNode (this w1) = geometryNode (this w2) ->
  types (this (snd (parseResource w1))) = types (this (snd (parseResource w2))) /\
  geometryNode (this (snd (parseResource w1)))
  = geometryNode (this (snd (parseResource w2))).
Proof.
  intros Ht Hg.
  destruct (parseResource_views w1) as [T1 G1].
  destruct (parseResource_views w2) as [T2 G2].
  rewrite T1, T2, G1, G2, Ht, Hg. now split.
Qed.

Lemma parseResource_ignores_subjects_witness :
  types (this (snd (parseResource (Doubles.described "http://example.org/r"))))
  = types (this (snd (parseResource (Doubles.described "http://example.org/other")))) /\
  geometryNode (this (snd (parseResource (Doubles.described "http://example.org/r"))))
  = geometryNode (this (snd (parseResource (Doubles.described "http://example.org/other")))).
Proof.
  exact (parseResource_ignores_subjects
           (Doubles.described "http://example.org/r")
           (Doubles.described "http://example.org/other") eq_refl eq_refl).
Defined.

(** The table is determined by the value sequences of the predicates. *)
Lemma rows_of_determined (g1 g2 : list (string * list term)) :
  NoDup (keys g1) -> NoDup (keys g2) ->
  (forall p, In p (keys g1) <-> In p (keys g2)) ->
  (forall p, values_under p g1 = values_under p g2) ->
  rows_of g1 = rows_of g2.
Proof.
  intros N1 N2 Hk Hv. unfold rows_of.
  assert (E : KeySort.sort (keys g1) = KeySort.sort (keys g2)).
  { apply strictly_sorted_unique.
    - apply StronglySorted_strict; [now apply sort_keys_NoDup | apply sort_keys_sorted].
    - apply StronglySorted_strict; [now apply sort_keys_NoDup | apply sort_keys_sorted].
    - intros k. now rewrite !sort_keys_In. }
  rewrite E. apply map_ext. intros p. f_equal. apply Hv.
Qed.

Lemma fold_group_key_iff_values (uri : option string) (ts : list triple) (p : string) :
  In p (keys (own_groups uri ts)) <-> filter (about uri p) ts <> [].
Proof.
  unfold own_groups. rewrite fold_group_keys. split.
  - intros [[]|(t & Hin & Ht)] E.
    assert (Hf : In t (filter (about uri p) ts)) by (apply filter_In; now split).
    now rewrite E in Hf.
  - intros Hne. right. destruct (filter (about uri p) ts) as [|t l] eqn:E;
      [congruence|].
    assert (Hf : In t (filter (about uri p) ts)) by (rewrite E; now left).
    apply filter_In in Hf as [Hin Ht]. now exists t.
Qed.

(** Whether the grouping throws is determined by the value sequences too. *)
Lemma clashes_iff (uri : option string) (ts : list triple) :
  clashes uri ts = true <->
  exists p, inherited p = true /\ filter (about uri p) ts <> [].
Proof.
  unfold clashes. rewrite existsb_exists. split.
  - intros (t & Hin & Hc). unfold clash in Hc.
    apply andb_true_iff in Hc as [Hs Hi].
    exists (value (predicate t)). split; [exact Hi|]. intros E.
    assert (Hf : In t (filter (about uri (value (predicate t))) ts)).
    { apply filter_In. split; [exact Hin|].
      unfold about. now rewrite Hs, String.eqb_refl. }
    now rewrite E in Hf.
  - intros (p & Hi & Hne).
    destruct (filter (about uri p) ts) as [|t l] eqn:E; [congruence|].
    assert (Hf : In t (filter (about uri p) ts)) by (rewrite E; now left).
    apply filter_In in Hf as [Hin Ha]. exists t. split; [exact Hin|].
    unfold about in Ha. apply andb_true_iff in Ha as [Hs He].
    apply String.eqb_eq in He. unfold clash. now rewrite Hs, He.
Qed.

(** X9.  The rendered property table depends only on, for each predicate,
    the sequence of the resource's triples with that predicate: two triple
    lists that agree on these sequences render the same rows.  So triples
    about other subjects, and the way triples of different predicates are
    interleaved in the response, do not show in the table. *)
Theorem renderProperties_depends_on_value_sequences (w1 w2 : World) :
  (forall p,
     filter (about (resourceURI (this w1)) p) (triples (this w1))
     = filter (about (resourceURI (this w2)) p) (triples (this w2))) ->
  properties_tbody (document (snd (renderProperties w1)))
  = properties_tbody (document (snd (renderProperties w2))).
Proof.
  intros H.
  assert (Hc : clashes (resourceURI (this w1)) (triples (this w1))
               = clashes (resourceURI (this w2)) (triples (this w2))).
  { apply eq_true_iff_eq. rewrite !clashes_iff.
    split; intros (p & Hi & Hne); exists p; (split; [exact Hi|]);
      [rewrite <- H | rewrite H]; exact Hne. }
  destruct (clashes (resourceURI (this w2)) (triples (this w2))) eqn:Hc2.
  - rewrite (renderProperties_throw w1 "grouped[pred].push is not a function"),
      (renderProperties_throw w2 "grouped[pred].push is not a function");
      [reflexivity | |]; now rewrite grouped_of_cases, ?Hc, ?Hc2.
  - rewrite (proj2 (renderProperties_run w1 Hc)),
      (proj2 (renderProperties_run w2 Hc2)).
    apply rows_of_determined.
    + apply fold_group_NoDup. constructor.
    + apply fold_group_NoDup. constructor.
    + intros p. now rewrite !fold_group_key_iff_values, H.
    + intros p. unfold own_groups. now rewrite !fold_group_values, H.
Qed.

Lemma renderProperties_depends_on_value_sequences_witness :
  properties_tbody (document (snd (renderProperties Doubles.interleaved_a)))
  = properties_tbody (document (snd (renderProperties Doubles.interleaved_b))).
Proof.
  apply renderProperties_depends_on_value_sequences.
  intros p.
  cbv [Doubles.interleaved_a Doubles.interleaved_b Doubles.with_app
       this resourceURI triples filter about strict_eq value subject predicate
       iri plain].
  assert (Hs : ("http://example.org/s" =? "http://example.org/r") = false)
    by reflexivity.
  rewrite Hs, !String.eqb_refl. cbv [andb].
  destruct (String.eqb_spec "http://example.org/p" p) as [<-|Hp];
    [reflexivity|].
  destruct ("http://example.org/q" =? p); reflexivity.
Defined.

(** ** The best-effort steps when there is nothing to show *)

Section NothingToShow.
Context {P : Platform}.
Variable CONFIG : Config.

(** X10.  [checkForGeometry] leaves the page exactly as it is when the
    resource has no geometry pointer (null or empty), and also when the
    endpoint answers the WKT query with no solution: no section is
    revealed and nothing is logged. *)
Theorem checkForGeometry_without_geometry (w : World) :
  (points_somewhere (geometryNode (this w)) = false ->
   checkForGeometry CONFIG w = (Normal tt, w)) /\
  (forall statusText body,
     fetch (wkt_url CONFIG (geometryNode (this w))) "application/sparql-results+json"
     = Response true statusText body ->
     bindings_of_json body = Normal [] ->
     checkForGeometry CONFIG w = (Normal tt, w)).
Proof.
  split.
  - intros Hn. unfold checkForGeometry, bind, gets.
    unfold points_somewhere in Hn. now rewrite Hn.
  - intros statusText body Hf Hb. unfold checkForGeometry, bind at 1, gets at 1.
    destruct (negb _); [reflexivity|].
    unfold try_catch, geometry_lookup.
    fold (wkt_url CONFIG (geometryNode (this w))).
    rewrite Hf. cbn [negb]. unfold bind, lift. now rewrite Hb.
Qed.

Lemma loadSameClassResources_found (w : World) typeURI rest statusText body bindings r rs :
  types (this w) = typeURI :: rest ->
  fetch (same_class_url CONFIG typeURI (resourceURI (this w)))
        "application/sparql-results+json" = Response true statusText body ->
  bindings_of_json body = Normal bindings ->
  resources_of bindings = Normal (r :: rs) ->
  loadSameClassResources CONFIG w =
    (Normal tt,
     snd ((set_display "see-also-loading" "none" ;;
           set_see_also_list (List.map (fun x => (x, typeURI)) (r :: rs)) ;;
           set_display "see-also" "block") w)).
Proof.
  intros Ht Hf Hb Hr.
  unfold loadSameClassResources, bind at 1, gets at 1. rewrite Ht.
  unfold try_catch, same_class_lookup. unfold bind at 1, gets at 1.
  fold (same_class_url CONFIG typeURI (resourceURI (this w))).
  rewrite Hf. cbn [negb]. unfold bind at 1, lift at 1. rewrite Hb.
  unfold bind at 1, lift at 1. fold (resources_of bindings). rewrite Hr.
  reflexivity.
Qed.

(** X11.  [loadSameClassResources] asks only for the first type of the
    resource.  With no type it leaves the page exactly as it is.  When the
    endpoint returns resources, the see-also list holds them in the order
    returned, each with that first type, the section is displayed and its
    loading indicator hidden.  When the endpoint returns no solution the
    page is left exactly as it is: the section stays hidden and its loading
    indicator is not hidden either. *)
Theorem loadSameClassResources_lists_first_type (w : World) :
  (types (this w) = [] -> loadSameClassResources CONFIG w = (Normal tt, w)) /\
  (forall typeURI rest statusText body bindings r rs,
     types (this w) = typeURI :: rest ->
     fetch (same_class_url CONFIG typeURI (resourceURI (this w)))
           "application/sparql-results+json" = Response true statusText body ->
     bindings_of_json body = Normal bindings ->
     resources_of bindings = Normal (r :: rs) ->
     let w' := snd (loadSameClassResources CONFIG w) in
     see_also_list (document w') = List.map (fun x => (x, typeURI)) (r :: rs) /\
     display (document w') "see-also" = "block" /\
     display (document w') "see-also-loading" = "none" /\
     console w' = console w) /\
  (forall typeURI rest statusText body,
     types (this w) = typeURI :: rest ->
     fetch (same_class_url CONFIG typeURI (resourceURI (this w)))
           "application/sparql-results+json" = Response true statusText body ->
     bindings_of_json body = Normal [] ->
     loadSameClassResources CONFIG w = (Normal tt, w)).
Proof.
  split; [|split].
  - intros Ht. unfold loadSameClassResources, bind, gets. now rewrite Ht.
  - intros typeURI rest statusText body bindings r rs Ht Hf Hb Hr w'. subst w'.
    rewrite (loadSameClassResources_found w typeURI rest statusText body
               bindings r rs Ht Hf Hb Hr).
    now repeat split.
  - intros typeURI rest statusText body Ht Hf Hb.
    unfold loadSameClassResources, bind at 1, gets at 1. rewrite Ht.
    unfold try_catch, same_class_lookup. unfold bind at 1, gets at 1.
    fold (same_class_url CONFIG typeURI (resourceURI (this w))).
    rewrite Hf. cbn [negb]. unfold bind at 1, lift at 1. rewrite Hb.
    reflexivity.
Qed.

End NothingToShow.

Lemma checkForGeometry_without_geometry_witness :
  checkForGeometry (P := Doubles.offline) Doubles.example_CONFIG Doubles.resolved
  = (Normal tt, Doubles.resolved).
Proof.
  exact (proj1 (checkForGeometry_without_geometry (P := Doubles.offline)
                  Doubles.example_CONFIG Doubles.resolved) eq_refl).
Defined.

Lemma loadSameClassResources_lists_first_type_witness :
  see_also_list (document (snd (loadSameClassResources
     (P := Doubles.related_endpoint) Doubles.example_CONFIG Doubles.with_geometry)))
  = [("http://example.org/a", "http://example.org/C");
     ("http://example.org/b", "http://example.org/C")].
Proof.
  exact (proj1 (proj1 (proj2 (loadSameClassResources_lists_first_type
           (P := Doubles.related_endpoint) Doubles.example_CONFIG
           Doubles.with_geometry))
           "http://example.org/C" [] "OK" "{}"
           [[("resource", "http://example.org/a")];
            [("resource", "http://example.org/b")]]
           "http://example.org/a" ["http://example.org/b"]
           eq_refl eq_refl eq_refl eq_refl)).
Defined.

(** ** Raw RDF downloads *)

Section Downloads.
Context {P : Platform}.
Variable CONFIG : Config.

Lemma showRDFFormat_run (accept label : string) (w : World) :
  showRDFFormat CONFIG accept label w =
    let w0 := snd ((set_textContent "rdf-viewer-title" label ;;
                    set_textContent "rdf-code" "Loading..." ;;
                    set_display "rdf-viewer" "block") w) in
    match fetch (describe_url CONFIG w) accept with
    | Rejected e =>
        set_textContent "rdf-code" ("Error fetching " ++ label ++ ": " ++ e) w0
    | Response false statusText _ =>
        set_textContent "rdf-code" ("Error fetching " ++ label ++ ": " ++ statusText) w0
    | Response true _ body => set_textContent "rdf-code" body w0
    end.
Proof.
  unfold showRDFFormat, describe_url.
  cbv [bind set_textContent set_display on_document modify try_catch gets throw
       snd this resourceURI].
  destruct (fetch _ accept) as [e|[|] statusText body]; reflexivity.
Qed.

(** X12.  [showRDFFormat] never throws and always leaves the viewer
    displayed under the format's label.  It asks the URL of the primary
    DESCRIBE request with the format's [Accept] header; the code box then
    holds the response body when the response is [ok], and otherwise
    [Error fetching <label>:] followed by the status text or the network
    error.  The page-level error state, the property table and the
    application object are not touched. *)
Theorem showRDFFormat_shows_body_or_error (accept label : string) (w : World) :
  let w' := snd (showRDFFormat CONFIG accept label w) in
  fst (showRDFFormat CONFIG accept label w) = Normal tt /\
  display (document w') "rdf-viewer" = "block" /\
  textContent (document w') "rdf-viewer-title" = label /\
  same_primary w w' /\ this w' = this w /\
  (forall statusText body,
     fetch (describe_url CONFIG w) accept = Response true statusText body ->
     textContent (document w') "rdf-code" = body) /\
  (forall statusText body,
     fetch (describe_url CONFIG w) accept = Response false statusText body ->
     textContent (document w') "rdf-code"
     = "Error fetching " ++ label ++ ": " ++ statusText) /\
  (forall e,
     fetch (describe_url CONFIG w) accept = Rejected e ->
     textContent (document w') "rdf-code" = "Error fetching " ++ label ++ ": " ++ e).
Proof.
  intros w'. subst w'. rewrite showRDFFormat_run. cbv zeta.
  destruct (fetch (describe_url CONFIG w) accept) as [e|[|] statusText body];
    (split; [reflexivity|]); (split; [reflexivity|]); (split; [reflexivity|]);
    (split; [now repeat split|]); (split; [reflexivity|]);
    (split; [|split]); intros; try discriminate;
    match goal with H : _ = _ |- _ => inversion H; subst; reflexivity end.
Qed.

End Downloads.

(** ** Conversion of coordinates *)

Lemma mapC_list_app_gen {A B} (f : A -> completion B) (l1 l2 : list A) :
  mapC_list f (l1 ++ l2)%list
  = bindC (mapC_list f l1) (fun r1 =>
      bindC (mapC_list f l2) (fun r2 => Normal (r1 ++ r2)%list)).
Proof.
  induction l1 as [|a l1 IH].
  - simpl. destruct (mapC_list f l2); reflexivity.
  - simpl app. rewrite !mapC_list_cons. destruct (f a) as [b|e]; [|reflexivity].
    cbn [bindC]. rewrite IH.
    destruct (mapC_list f l1) as [r1|e]; [|reflexivity]. cbn [bindC].
    destruct (mapC_list f l2) as [r2|e]; reflexivity.
Qed.

(** A [map] that throws does so at the first element whose image throws. *)
Lemma mapC_list_Throw {A B} (f : A -> completion B) (l : list A) (e : string) :
  mapC_list f l = Throw e <->
  exists before a after,
    l = (before ++ a :: after)%list /\
    (forall x, In x before -> exists y, f x = Normal y) /\
    f a = Throw e.
Proof.
  split.
  - induction l as [|a l IH]; [discriminate|].
    rewrite mapC_list_cons. destruct (f a) as [b|e'] eqn:Ea.
    + cbn [bindC]. destruct (mapC_list f l) as [bs|e'']; [discriminate|].
      cbn [bindC]. intros H. inversion H; subst.
      destruct (IH eq_refl) as (before & x & after & -> & Hb & Hx).
      exists (a :: before), x, after. repeat split; [|exact Hx].
      intros y [<-|Hy]; [now exists b | now apply Hb].
    + cbn [bindC]. intros H. inversion H; subst.
      exists [], a, l. repeat split; [intros x []|exact Ea].
  - intros (before & a & after & -> & Hb & Ha).
    rewrite mapC_list_app_gen.
    destruct (mapC_list_total f before Hb) as [r Hr]. rewrite Hr. cbn [bindC].
    rewrite mapC_list_cons, Ha. reflexivity.
Qed.

Section ConversionFacts.
Variable transform : float * list float -> completion (float * list float).

Lemma transformCoords_as_positions (c : coords) :
  forall e, transformCoords transform c = Throw e ->
            mapC_list transform (positions c) = Throw e.
Proof.
  induction c as [x rest|cs IH] using coords_nested_ind; intros e H.
  - cbn [transformCoords] in H. unfold mapC in H. cbn [positions].
    rewrite mapC_list_cons.
    destruct (transform (x, rest)) as [q|e']; [discriminate|].
    cbn [bindC] in *. congruence.
  - cbn [transformCoords] in H. unfold mapC in H. cbn [positions].
    destruct (mapC_list (transformCoords transform) cs) as [cs'|e'] eqn:E;
      [discriminate|].
    cbn [bindC] in H. inversion H; subst. clear H.
    revert E. induction IH as [|c cs Hc _ IHcs]; [discriminate|].
    rewrite mapC_list_cons. cbn [flat_map]. rewrite mapC_list_app_gen.
    destruct (transformCoords transform c) as [c'|e'] eqn:Ec.
    + cbn [bindC].
      rewrite (proj2 (transformCoords_Normal transform c c' Ec)). cbn [bindC].
      destruct (mapC_list (transformCoords transform) cs) as [cs'|e'] eqn:Ecs;
        [discriminate|].
      cbn [bindC]. intros H. inversion H; subst.
      now rewrite (IHcs eq_refl).
    + cbn [bindC]. intros H. inversion H; subst.
      now rewrite (Hc e eq_refl).
Qed.

End ConversionFacts.

Section ConversionLaws.
Context {P : Platform}.

Lemma transformCoords_id (c : coords) :
  transformCoords (fun p => Normal p) c = Normal c.
Proof.
  induction c as [x rest|cs IH] using coords_nested_ind; [reflexivity|].
  cbn [transformCoords].
  assert (E : mapC_list (transformCoords (fun p => Normal p)) cs = Normal cs).
  { induction IH as [|c cs Hc _ IHcs]; [reflexivity|].
    now rewrite mapC_list_cons, Hc, IHcs. }
  now rewrite E.
Qed.

Lemma transformCoords_compose
  (f g : float * list float -> completion (float * list float)) (c : coords) :
  forall c', transformCoords f c = Normal c' ->
    transformCoords (fun p => bindC (f p) g) c = transformCoords g c'.
Proof.
  induction c as [x rest|cs IH] using coords_nested_ind; intros c' H.
  - cbn [transformCoords] in *. unfold mapC in *.
    destruct (f (x, rest)) as [[x' rest']|e]; [|discriminate].
    cbn [bindC] in *. inversion H; subst. reflexivity.
  - cbn [transformCoords] in H. unfold mapC in H.
    destruct (mapC_list (transformCoords f) cs) as [cs'|e] eqn:E; [|discriminate].
    cbn [bindC] in H. inversion H; subst. clear H.
    cbn [transformCoords]. f_equal.
    revert cs' E. induction IH as [|c cs Hc _ IHcs]; intros cs' E.
    + inversion E. reflexivity.
    + apply mapC_list_Normal_inv in E as (c' & cs0 & Hc' & Hcs0 & ->).
      rewrite !mapC_list_cons, (Hc c' Hc'), (IHcs cs0 Hcs0). reflexivity.
Qed.

(** X13.  The conversion of a coordinate array is functorial in the
    converter: the converter that returns every position as it is leaves
    the array as it is; when converting by [f] succeeds, converting the
    result by [g] gives what converting once by "[f], then [g]" gives; and
    when converting by [f] throws, so does converting by "[f], then [g]". *)
Theorem transformCoords_functorial
  (f g : float * list float -> completion (float * list float)) (c : coords) :
  transformCoords (fun p => Normal p) c = Normal c /\
  (forall c', transformCoords f c = Normal c' ->
     transformCoords (fun p => bindC (f p) g) c = transformCoords g c') /\
  (forall e, transformCoords f c = Throw e ->
     exists e', transformCoords (fun p => bindC (f p) g) c = Throw e').
Proof.
  split; [apply transformCoords_id|]. split; [apply transformCoords_compose|].
  intros e E.
  destruct (transformCoords (fun p => bindC (f p) g) c) as [c''|e'] eqn:E';
    [|now exists e'].
  exfalso.
  apply transformCoords_as_positions in E.
  apply mapC_list_Throw in E as (before & a & after & Hpos & Hb & Ha).
  destruct (transformCoords_Normal _ c c'' E') as [_ Hm].
  rewrite Hpos in Hm. rewrite mapC_list_app_gen in Hm.
  destruct (mapC_list (fun p => bindC (f p) g) before) as [r|e0];
    [|discriminate].
  cbn [bindC] in Hm. rewrite mapC_list_cons, Ha in Hm. discriminate.
Qed.

End ConversionLaws.

Section ConversionFailures.
Context {P : Platform}.

Lemma transformCoords_Throw_iff
  (transform : float * list float -> completion (float * list float))
  (c : coords) (e : string) :
  transformCoords transform c = Throw e <->
  mapC_list transform (positions c) = Throw e.
Proof.
  split; [apply transformCoords_as_positions|].
  intros H. destruct (transformCoords transform c) as [c'|e'] eqn:E.
  - rewrite (proj2 (transformCoords_Normal transform c c' E)) in H. discriminate.
  - apply transformCoords_as_positions in E. congruence.
Qed.

(** X14.  [transformGeoJSON] on a geometry with coordinates throws exactly
    when [proj4] has no converter for the projection, with that error, or
    when the converter throws on some position, with the error of the first
    such position in the order of the coordinate array; the positions
    before it were all converted. *)
Theorem transformGeoJSON_throws_first_failure
  (t : string) (c : coords) (definition e : string) :
  transformGeoJSON (Geometry t c) definition = Throw e <->
  proj4 definition = Throw e \/
  exists transform before p after,
    proj4 definition = Normal transform /\
    positions c = (before ++ p :: after)%list /\
    (forall q, In q before -> exists r, transform q = Normal r) /\
    transform p = Throw e.
Proof.
  cbn [transformGeoJSON].
  destruct (proj4 definition) as [transform|e'] eqn:Ep; cbn [bindC].
  - split.
    + intros H. right.
      assert (Ht : transformCoords transform c = Throw e).
      { destruct (transformCoords transform c); cbn [bindC] in H;
          [discriminate | congruence]. }
      apply transformCoords_Throw_iff, mapC_list_Throw in Ht
        as (before & p & after & Hpos & Hb & Hp).
      now exists transform, before, p, after.
    + intros [H|(tr & before & p & after & Htr & Hpos & Hb & Hp)];
        [discriminate|].
      inversion Htr; subst tr.
      assert (Ht : transformCoords transform c = Throw e).
      { apply transformCoords_Throw_iff, mapC_list_Throw.
        now exists before, p, after. }
      now rewrite Ht.
  - split.
    + intros H. left. congruence.
    + intros [H|(tr & _ & _ & _ & Htr & _)]; [congruence | discriminate].
Qed.

(** X15.  A failure inside [initializeMap] draws nothing.  When the WKT
    library throws or returns no geometry, the viewer is left exactly as it
    was -- the map is not even created -- and the failure is logged.  When
    the conversion of a geometry with an SRID of the built-in table throws,
    the layer stays what it was, the parsed geometry keeps its original
    coordinates, and the error is logged. *)
Theorem initializeMap_failure_draws_nothing (wktLiteral : string) (w : World) :
  (forall e,
     parseWKT wktLiteral = Throw e ->
     initializeMap wktLiteral w =
       (Normal tt,
        mkWorld (this w) (document w) (PREFIXES w) (viewer w)
          (console w ++ [("error", "Error initializing map: " ++ e)]))) /\
  (forall srid,
     parseWKT wktLiteral = Normal (None, srid) ->
     initializeMap wktLiteral w =
       (Normal tt,
        mkWorld (this w) (document w) (PREFIXES w) (viewer w)
          (console w ++ [("error", "Failed to parse WKT")]))) /\
  (forall g n definition e,
     parseWKT wktLiteral = Normal (Some g, Some n) ->
     srid_and_not_4326 (Some n) = true ->
     commonProjections n = Some definition ->
     transformGeoJSON g definition = Throw e ->
     initializeMap wktLiteral w =
       (Normal tt,
        mkWorld (this w) (document w) (PREFIXES w)
          (mkViewer true (geoJsonLayer (viewer w)) (Some g)
                    (epsg_requests (viewer w)))
          (console w ++ [("error", "Error initializing map: " ++ e)]))).
Proof.
  split; [|split].
  - intros e H. unfold initializeMap, try_catch, bind, lift. now rewrite H.
  - intros srid H. unfold initializeMap, try_catch, bind, lift. now rewrite H.
  - intros g n definition e H Hs Hd Ht.
    unfold initializeMap, try_catch, bind, lift. rewrite H. cbn [fst snd].
    rewrite Hs. unfold transformCoordinates. rewrite Hd.
    unfold transform_in_place, bind, gets, lift. cbn. now rewrite Ht.
Qed.

(** X16.  The answer to a projection request never throws and changes
    neither the document, the application object nor the layer on the map:
    the layer is not rebuilt.  The status of the response is not looked at:
    whatever was received is taken as the definition.  When the request
    fails, or the conversion with the received definition throws, the
    geometry object keeps its coordinates and the failure is logged.  The
    address requested and the text logged carry the SRID as a template
    literal prints the Number: in decimal digits when it is an integer
    below 2^53, and as the engine prints it otherwise. *)
Theorem epsg_answer_never_redraws (n : float) (w : World) :
  let w' := snd (epsg_answer n w) in
  fst (epsg_answer n w) = Normal tt /\
  document w' = document w /\ this w' = this w /\
  geoJsonLayer (viewer w') = geoJsonLayer (viewer w) /\
  (forall e,
     fetch ("https://epsg.io/" ++ template_number n ++ ".proj4") "" = Rejected e ->
     geojson (viewer w') = geojson (viewer w) /\
     console w' = (console w ++ [("error",
        ("Failed to fetch EPSG:" ++ template_number n ++ ": " ++ e)%string)])%list) /\
  (forall ok statusText proj4def g e,
     fetch ("https://epsg.io/" ++ template_number n ++ ".proj4") ""
     = Response ok statusText proj4def ->
     geojson (viewer w) = Some g ->
     transformGeoJSON g proj4def = Throw e ->
     geojson (viewer w') = Some g /\
     console w' = (console w ++ [("error",
        ("Failed to fetch EPSG:" ++ template_number n ++ ": " ++ e)%string)])%list).
Proof.
  intros w'. subst w'. unfold epsg_answer.
  destruct (fetch ("https://epsg.io/" ++ template_number n ++ ".proj4") "")
    as [e0|ok0 st0 def0].
  - split; [reflexivity|]. split; [reflexivity|]. split; [reflexivity|].
    split; [reflexivity|]. split.
    + intros e H. inversion H; subst. now split.
    + intros ok statusText proj4def g e H. discriminate H.
  - unfold try_catch, transform_in_place, bind, gets, lift. cbn [fst snd].
    destruct (geojson (viewer w)) as [g0|] eqn:Eg.
    + destruct (transformGeoJSON g0 def0) as [g'|e0] eqn:Et; cbn.
      * split; [reflexivity|]. split; [reflexivity|]. split; [reflexivity|].
        split; [reflexivity|]. split; [intros e H; discriminate H|].
        intros ok statusText proj4def g e H Hg Ht.
        inversion H; subst. inversion Hg; subst. congruence.
      * split; [reflexivity|]. split; [reflexivity|]. split; [reflexivity|].
        split; [reflexivity|]. split; [intros e H; discriminate H|].
        intros ok statusText proj4def g e H Hg Ht.
        inversion H; subst. inversion Hg; subst.
        rewrite Et in Ht. inversion Ht; subst. now split.
    + cbn. split; [reflexivity|]. split; [reflexivity|]. split; [reflexivity|].
      split; [reflexivity|]. split; [intros e H; discriminate H|].
      intros ok statusText proj4def g e H Hg. discriminate Hg.
Qed.

End ConversionFailures.

(** ** More on the spatial literal parser *)

Lemma no_line_terminator_app (a b : string) :
  no_line_terminator (a ++ b) = no_line_terminator a && no_line_terminator b.
Proof.
  induction a as [|c a IH]; [reflexivity|].
  cbn [append no_line_terminator]. now rewrite IH, andb_assoc.
Qed.

Lemma digits_no_line_terminator (d : string) :
  all_chars isDigit d = true -> no_line_terminator d = true.
Proof.
  induction d as [|c d IH]; [reflexivity|].
  cbn [all_chars no_line_terminator]. intros H.
  apply andb_true_iff in H as [Hc Hd]. rewrite (IH Hd), andb_true_r.
  destruct c as [[] [] [] [] [] [] [] []]; try discriminate Hc; reflexivity.
Qed.

Lemma eqb_ci_no_line_terminator (a b : ascii) :
  isLineTerminator a = false -> eqb_ci a b = true -> isLineTerminator b = false.
Proof.
  intros Ha H. destruct (isLineTerminator b) eqn:Eb; [exfalso|reflexivity].
  unfold eqb_ci in H. apply Ascii.eqb_eq in H.
  assert (Hb : b = ascii_of_nat 10 \/ b = ascii_of_nat 13)
    by (destruct b as [[] [] [] [] [] [] [] []]; try discriminate Eb;
        [right | left]; reflexivity).
  destruct Hb as [-> | ->];
    destruct a as [[] [] [] [] [] [] [] []]; cbv in Ha, H; congruence.
Qed.

Lemma same_ci_no_line_terminator (literal p : string) :
  no_line_terminator literal = true -> same_ci literal p = true ->
  no_line_terminator p = true.
Proof.
  revert p. induction literal as [|a literal IH]; intros [|b p] Hl H;
    try discriminate; [reflexivity|].
  cbn [same_ci] in H. cbn [no_line_terminator] in Hl |- *.
  apply andb_true_iff in H as [Hc Hs]. apply andb_true_iff in Hl as [Ha Hl].
  apply negb_true_iff in Ha.
  rewrite (eqb_ci_no_line_terminator a b Ha Hc). now rewrite (IH p Hl Hs).
Qed.

Lemma match_ewkt_one_line (s d r : string) :
  match_ewkt s = Some (d, r) -> no_line_terminator s = true.
Proof.
  intros H. apply match_ewkt_iff in H as (p & -> & Hp & _ & Hd & _ & Hr).
  rewrite !no_line_terminator_app.
  rewrite (same_ci_no_line_terminator "SRID=" p eq_refl Hp).
  now rewrite (digits_no_line_terminator d Hd), Hr.
Qed.

Lemma ewkt_excludes_ogc (p t : string) :
  same_ci "SRID=" p = true -> match_ogc (p ++ t) = None.
Proof.
  destruct p as [|b p]; [discriminate|].
  cbn [same_ci]. intros H. apply andb_true_iff in H as [Hb _].
  unfold match_ogc. cbn [append strip_ci].
  destruct b as [[] [] [] [] [] [] [] []]; try discriminate Hb; reflexivity.
Qed.

Lemma parseInt_leading_zeros (zs d : string) :
  all_chars (Ascii.eqb "0") zs = true -> parseInt (zs ++ d) = parseInt d.
Proof.
  unfold parseInt. induction zs as [|c zs IH]; [reflexivity|].
  cbn [all_chars]. intros H. apply andb_true_iff in H as [Hc Hz].
  apply Ascii.eqb_eq in Hc. subst c.
  cbn [append list_ascii_of_string fold_left].
  exact (IH Hz).
Qed.

Lemma all_chars_app (f : ascii -> bool) (a b : string) :
  all_chars f (a ++ b) = all_chars f a && all_chars f b.
Proof.
  induction a as [|c a IH]; [reflexivity|].
  cbn [append all_chars]. now rewrite IH, andb_assoc.
Qed.

Lemma zeros_are_digits (zs : string) :
  all_chars (Ascii.eqb "0") zs = true -> all_chars isDigit zs = true.
Proof.
  induction zs as [|c zs IH]; [reflexivity|].
  cbn [all_chars]. intros H. apply andb_true_iff in H as [Hc Hz].
  apply Ascii.eqb_eq in Hc. subst c. now rewrite (IH Hz).
Qed.

Section ParserEdges.
Context {P : Platform}.

(** X17.  The EWKT prefix is recognised only on a literal of one line.
    When the trimmed literal begins with [SRID=] and has a line break
    anywhere after it -- a geometry written over several lines -- neither
    pattern matches: the SRID is null and the whole text, prefix included,
    is what the WKT library is given. *)
Theorem parseWKT_multiline_EWKT_unrecognised (wktLiteral p r : string) :
  trim wktLiteral = p ++ r ->
  same_ci "SRID=" p = true ->
  no_line_terminator r = false ->
  parseWKT wktLiteral = parsed_as None (trim wktLiteral).
Proof.
  intros E Hp Hr. rewrite parseWKT_unfold.
  destruct (match_ewkt (trim wktLiteral)) as [[d1 r1]|] eqn:Em.
  - apply match_ewkt_one_line in Em.
    rewrite E, no_line_terminator_app, Hr, andb_false_r in Em. discriminate.
  - now rewrite E, (ewkt_excludes_ogc p r Hp).
Qed.

(** X18.  Zeros before the digits of an EWKT SRID change nothing in what
    [parseWKT] returns: the literal with the zeros and the literal without
    them give the same SRID and the same geometry, so [SRID=04326;...] is
    read as [SRID=4326;...] is. *)
Theorem parseWKT_SRID_leading_zeros (literal literal' p zs d r : string) :
  trim literal = p ++ (zs ++ d) ++ ";" ++ r ->
  trim literal' = p ++ d ++ ";" ++ r ->
  same_ci "SRID=" p = true ->
  all_chars (Ascii.eqb "0") zs = true ->
  d <> "" -> all_chars isDigit d = true ->
  r <> "" -> no_line_terminator r = true ->
  parseWKT literal = parseWKT literal'.
Proof.
  intros E E' Hp Hz Hd1 Hd2 Hr1 Hr2.
  assert (H : match_ewkt (trim literal) = Some (zs ++ d, r)).
  { apply match_ewkt_iff. exists p. split; [exact E|]. split; [exact Hp|].
    split; [destruct zs; [exact Hd1 | discriminate]|].
    split; [now rewrite all_chars_app, (zeros_are_digits zs Hz), Hd2|].
    now split. }
  assert (H' : match_ewkt (trim literal') = Some (d, r)).
  { apply match_ewkt_iff. exists p. auto 10. }
  rewrite !parseWKT_unfold, H, H', (parseInt_leading_zeros zs d Hz).
  reflexivity.
Qed.

End ParserEdges.

Lemma parseWKT_multiline_EWKT_unrecognised_witness :
  parseWKT (P := Doubles.offline)
    ("SRID=31370;LINESTRING(0 0," ++ newline ++ "1 1)")
  = parsed_as (P := Doubles.offline) None
      ("SRID=31370;LINESTRING(0 0," ++ newline ++ "1 1)").
Proof.
  exact (parseWKT_multiline_EWKT_unrecognised (P := Doubles.offline)
           ("SRID=31370;LINESTRING(0 0," ++ newline ++ "1 1)")
           "SRID=" ("31370;LINESTRING(0 0," ++ newline ++ "1 1)")
           eq_refl eq_refl eq_refl).
Defined.

Lemma parseWKT_SRID_leading_zeros_witness :
  parseWKT (P := Doubles.offline) " SRID=004326;POINT(1 2)"
  = parseWKT (P := Doubles.offline) "SRID=4326;POINT(1 2) ".
Proof.
  apply (parseWKT_SRID_leading_zeros (P := Doubles.offline)
           " SRID=004326;POINT(1 2)" "SRID=4326;POINT(1 2) "
           "SRID=" "00" "4326" "POINT(1 2)").
  - reflexivity.
  - reflexivity.
  - reflexivity.
  - reflexivity.
  - discriminate.
  - reflexivity.
  - discriminate.
  - reflexivity.
Defined.

(** ** The graph viewer's view of the triples *)

Lemma term_of_bound_object (t : term) :
  term_of_bound
    (mkBound (value t)
       (match kind t with
        | Literal => "literal" | BlankNode => "bnode" | NamedNode => "uri"
        end)
       (datatype t)
       (if truthy (language t) then Some (language t) else None)) = t.
Proof.
  destruct t as [k v l d]. unfold term_of_bound. cbn.
  assert (Hl : match (if truthy l then Some l else None) with
               | Some l' => l' | None => "" end = l).
  { destruct (truthy l) eqn:E; [reflexivity|].
    apply truthy_false in E. now subst. }
  rewrite Hl. now destruct k.
Qed.

Lemma term_of_bound_subject (t : term) :
  resource_term t = true ->
  term_of_bound
    (mkBound (value t)
       (match kind t with BlankNode => "bnode" | _ => "uri" end) None None) = t.
Proof.
  destruct t as [k v l d]. unfold resource_term, term_of_bound. cbn.
  destruct k, d; try discriminate; intros H; apply String.eqb_eq in H;
    now subst.
Qed.

Lemma term_of_bound_predicate (t : term) :
  iri_term t = true ->
  term_of_bound (mkBound (value t) "uri" None None) = t.
Proof.
  destruct t as [k v l d]. unfold iri_term, resource_term, term_of_bound. cbn.
  destruct k, d; try discriminate; intros H; apply String.eqb_eq in H;
    now subst.
Qed.

(** X19.  [quadsToBindings] loses nothing of RDF triples: it yields one
    binding per quad, in order; the object of every quad can be read back
    from its binding -- value, kind, datatype and language tag, an absent
    tag standing for the empty one; and when subjects are IRIs or blank
    nodes and predicates IRIs, the whole list of quads can be read back, so
    two such lists with the same bindings are the same list. *)
Theorem quadsToBindings_lossless (quads : list triple) :
  List.length (quadsToBindings quads) = List.length quads /\
  List.map (fun b => term_of_bound (binding_object b)) (quadsToBindings quads)
  = List.map object quads /\
  (forallb rdf_quad quads = true ->
   List.map quad_of_binding (quadsToBindings quads) = quads) /\
  (forall quads',
     forallb rdf_quad quads = true -> forallb rdf_quad quads' = true ->
     quadsToBindings quads = quadsToBindings quads' -> quads = quads').
Proof.
  assert (Hback : forall qs, forallb rdf_quad qs = true ->
                   List.map quad_of_binding (quadsToBindings qs) = qs).
  { induction qs as [|q qs IH]; [reflexivity|].
    cbn [forallb]. intros H. apply andb_true_iff in H as [Hq Hqs].
    unfold quadsToBindings in *. cbn [List.map]. rewrite (IH Hqs). f_equal.
    unfold rdf_quad in Hq. apply andb_true_iff in Hq as [Hs Hp].
    unfold quad_of_binding.
    cbn [binding_subject binding_predicate binding_object].
    rewrite (term_of_bound_subject _ Hs), (term_of_bound_predicate _ Hp),
      term_of_bound_object.
    now destruct q. }
  split; [apply length_map|]. split; [|split].
  - unfold quadsToBindings. rewrite map_map. apply map_ext.
    intros q. cbn [binding_object]. apply term_of_bound_object.
  - apply Hback.
  - intros quads' H H' E.
    rewrite <- (Hback quads H), <- (Hback quads' H'). now rewrite E.
Qed.

Lemma fold_inverted_get (prefixes o : list (string * string)) (name ns : string) :
  obj_get name
    (fold_left (fun o entry => obj_set (snd entry) (fst entry) o) prefixes o)
  = Some ns <->
  (exists before after,
     prefixes = (before ++ (ns, name) :: after)%list /\
     ~ In name (List.map snd after)) \/
  (~ In name (List.map snd prefixes) /\ obj_get name o = Some ns).
Proof.
  revert o. induction prefixes as [|[ns0 n0] prefixes IH]; intros o.
  - cbn [fold_left List.map]. split.
    + intros H. right. split; [intros []|exact H].
    + intros [(before & after & E & _)|[_ H]]; [|exact H].
      now destruct before.
  - cbn [fold_left fst snd]. rewrite IH. clear IH. cbn [List.map snd].
    split.
    + intros [(before & after & -> & Hn)|[Hn H]].
      * left. now exists ((ns0, n0) :: before), after.
      * destruct (String.eqb_spec n0 name) as [->|Hne].
        -- rewrite obj_get_set_same in H. inversion H; subst.
           left. now exists [], prefixes.
        -- rewrite obj_get_set_other in H by congruence.
           right. split; [|exact H]. intros [E|Hin]; [congruence|now apply Hn].
    + intros [(before & after & E & Hn)|[Hn H]].
      * destruct before as [|e before]; cbn [app] in E; inversion E; subst.
        -- right. split; [exact Hn|apply obj_get_set_same].
        -- left. now exists before, after.
      * right. split; [intros Hin; apply Hn; now right|].
        rewrite obj_get_set_other; [exact H|].
        intros E. apply Hn. now left.
Qed.

(** X20.  The prefix map handed to the graph plugin gives, for a prefix
    name, the namespace of the last entry of [PREFIXES] with that name.
    Hence, when no two namespaces share a prefix name, the map holds
    exactly the entries of [PREFIXES], turned round; when two do, only the
    later namespace is known to the plugin. *)
Theorem invertedPrefixes_last_name_wins (prefixes : list (string * string)) :
  (forall name ns,
     obj_get name (invertedPrefixes prefixes) = Some ns <->
     exists before after,
       prefixes = (before ++ (ns, name) :: after)%list /\
       ~ In name (List.map snd after)) /\
  (NoDup (List.map snd prefixes) ->
   forall name ns,
     obj_get name (invertedPrefixes prefixes) = Some ns <->
     In (ns, name) prefixes).
Proof.
  assert (Hget : forall name ns,
     obj_get name (invertedPrefixes prefixes) = Some ns <->
     exists before after,
       prefixes = (before ++ (ns, name) :: after)%list /\
       ~ In name (List.map snd after)).
  { intros name ns. unfold invertedPrefixes. rewrite fold_inverted_get.
    split; [|intros H; now left].
    intros [H|[_ H]]; [exact H | discriminate H]. }
  split; [exact Hget|].
  intros Hnd name ns. rewrite Hget. split.
  - intros (before & after & -> & _). apply in_or_app. right. now left.
  - intros Hin. apply in_split in Hin as (before & after & ->).
    exists before, after. split; [reflexivity|].
    rewrite map_app in Hnd. cbn [List.map snd] in Hnd.
    apply NoDup_remove_2 in Hnd. intros Hin. apply Hnd.
    apply in_or_app. now right.
Qed.

(** ** Link markup *)

Lemma split_colon_cons (s : string) :
  exists piece pieces, split_colon s = piece :: pieces.
Proof.
  destruct s as [|c s]; cbn [split_colon]; [now eexists _, _|].
  destruct (Ascii.eqb c ":"); [now eexists _, _|].
  destruct (split_colon s); now eexists _, _.
Qed.

Lemma join_split_colon (s : string) : join_colon (split_colon s) = s.
Proof.
  unfold join_colon. induction s as [|c s IH]; [reflexivity|].
  cbn [split_colon]. destruct (split_colon_cons s) as (piece & pieces & E).
  rewrite E in IH |- *.
  destruct (Ascii.eqb_spec c ":") as [->|_].
  - change (String.concat ":" ("" :: piece :: pieces))
      with ("" ++ ":" ++ String.concat ":" (piece :: pieces)).
    now rewrite IH.
  - destruct pieces as [|piece' pieces].
    + cbn [String.concat] in IH |- *. now rewrite IH.
    + change (String.concat ":" (String c piece :: piece' :: pieces))
        with (String c (piece ++ ":" ++ String.concat ":" (piece' :: pieces))).
      change (String.concat ":" (piece :: piece' :: pieces))
        with (piece ++ ":" ++ String.concat ":" (piece' :: pieces)) in IH.
      now rewrite IH.
Qed.

Lemma split_colon_prefixed (prefix rest : string) :
  has_colon prefix = false ->
  split_colon (prefix ++ ":" ++ rest) = prefix :: split_colon rest.
Proof.
  induction prefix as [|c prefix IH]; cbn [has_colon]; intros H.
  - reflexivity.
  - apply orb_false_iff in H as [Hc Hp].
    cbn [append split_colon]. rewrite Hc.
    change (prefix ++ String ":" rest) with (prefix ++ ":" ++ rest).
    now rewrite (IH Hp).
Qed.

Lemma append_length (a b : string) :
  String.length (a ++ b) = String.length a + String.length b.
Proof. induction a as [|c a IH]; cbn; [reflexivity | now rewrite IH]. Qed.

Lemma append_associative (a b c : string) : (a ++ b) ++ c = a ++ b ++ c.
Proof. induction a as [|x a IH]; cbn [append]; [reflexivity | now rewrite IH]. Qed.

Lemma append_inv_tail (a b r : string) : a ++ r = b ++ r -> a = b.
Proof.
  revert b. induction a as [|c a IH]; intros [|c' b] H.
  - reflexivity.
  - apply (f_equal String.length) in H. cbn [append] in H.
    cbn [String.length] in H. rewrite append_length in H. lia.
  - apply (f_equal String.length) in H. cbn [append] in H.
    cbn [String.length] in H. rewrite append_length in H. lia.
  - cbn [append] in H. inversion H; subst. f_equal. now apply IH.
Qed.

Section Markup.
Variable CONFIG : Config.
Variable location : Location.

(** X21.  When the first namespace of [PREFIXES] that begins the URI has a
    prefix name without a colon, the markup of the link shows the URI in
    two spans: the prefix name with its colon, and the whole remainder of
    the URI after the namespace, colons included.  The one exception is a
    namespace that is its own prefix name followed by a colon: shortening
    then returns the URI itself, and the link shows the URI in full, as
    for a URI that was not shortened. *)
Theorem formatURI_spans
  (before after : list (string * string)) (namespace prefix uri : string) :
  let PREFIXES := (before ++ (namespace, prefix) :: after)%list in
  let href := href_of (makeLocalLink CONFIG location uri) uri in
  let target := target_of (makeLocalLink CONFIG location uri) in
  (forall e, In e before -> startsWith uri (fst e) = false) ->
  startsWith uri namespace = true ->
  has_colon prefix = false ->
  formatURI CONFIG location PREFIXES uri =
    if namespace =? prefix ++ ":" then
      "<a href=" ++ dq ++ href ++ dq ++ " class=" ++ dq ++ "property-uri" ++ dq
      ++ " title=" ++ dq ++ uri ++ dq ++ target ++ ">" ++ uri ++ "</a>"
    else
      "<a href=" ++ dq ++ href ++ dq ++ " class=" ++ dq ++ "property-uri" ++ dq
      ++ " title=" ++ dq ++ uri ++ dq ++ target ++ ">"
      ++ "<span class=" ++ dq ++ "property-prefix" ++ dq ++ ">"
      ++ prefix ++ ":</span>"
      ++ "<span class=" ++ dq ++ "property-label" ++ dq ++ ">"
      ++ substring_from (String.length namespace) uri ++ "</span></a>".
Proof.
  intros PREFIXES href target Hb Hm Hc. subst PREFIXES.
  unfold formatURI. fold href target.
  assert (Hs : shortenURI ((namespace, prefix) :: after) uri
               = prefix ++ ":" ++ substring_from (String.length namespace) uri).
  { cbn [shortenURI]. now rewrite Hm. }
  rewrite (shortenURI_skip before _ uri Hb), Hs.
  pose proof (startsWith_split uri namespace Hm) as Hu.
  set (rest := substring_from (String.length namespace) uri) in *.
  destruct (String.eqb_spec namespace (prefix ++ ":")) as [En|En].
  - assert (E : prefix ++ ":" ++ rest = uri).
    { rewrite Hu, En. now rewrite append_associative. }
    rewrite E, String.eqb_refl. reflexivity.
  - assert (E : (prefix ++ ":" ++ rest =? uri) = false).
    { apply String.eqb_neq. intros E. apply En.
      apply (append_inv_tail namespace (prefix ++ ":") rest).
      rewrite <- Hu, <- E. now rewrite append_associative. }
    rewrite E. cbn [negb].
    rewrite (split_colon_prefixed prefix rest Hc). cbn [hd tl].
    now rewrite join_split_colon.
Qed.

End Markup.

Lemma formatURI_spans_witness :
  formatURI Doubles.example_CONFIG (Doubles.production "/id/a")
    [("http://www.w3.org/2000/01/rdf-schema#", "rdfs");
     ("urn:", "urn")] "urn:isbn:12" =
  "<a href=" ++ dq ++ "urn:isbn:12" ++ dq ++ " class=" ++ dq ++ "property-uri"
  ++ dq ++ " title=" ++ dq ++ "urn:isbn:12" ++ dq
  ++ " target=" ++ dq ++ "_blank" ++ dq ++ " rel=" ++ dq
  ++ "noopener noreferrer" ++ dq ++ ">" ++ "urn:isbn:12" ++ "</a>".
Proof.
  apply (formatURI_spans Doubles.example_CONFIG (Doubles.production "/id/a")
           [("http://www.w3.org/2000/01/rdf-schema#", "rdfs")] []
           "urn:" "urn" "urn:isbn:12").
  - intros e [<-|[]]. reflexivity.
  - reflexivity.
  - reflexivity.
Defined.

(** ** Links *)

Lemma makeLocalLink_truthy (CONFIG : Config) (location : Location) (uri l : string) :
  makeLocalLink CONFIG location uri = Some l -> truthy l = true.
Proof.
  unfold makeLocalLink.
  destruct (startsWith uri (ENTITY_NS CONFIG)); cbn [negb]; [|discriminate].
  destruct (origin location =? ENTITY_NS CONFIG); intros H; inversion H.
  - unfold or_else.
    destruct (truthy (substring_from (String.length (ENTITY_NS CONFIG)) uri))
      eqn:E; [exact E | reflexivity].
  - reflexivity.
Qed.

Lemma makeLocalLink_None (CONFIG : Config) (location : Location) (uri : string) :
  makeLocalLink CONFIG location uri = None <->
  startsWith uri (ENTITY_NS CONFIG) = false.
Proof.
  unfold makeLocalLink.
  destruct (startsWith uri (ENTITY_NS CONFIG)); cbn [negb].
  - destruct (origin location =? ENTITY_NS CONFIG); split; discriminate.
  - split; reflexivity.
Qed.

Section Links.
Variable CONFIG : Config.
Variable location : Location.
Variable PREFIXES : list (string * string).

Lemma formatURI_shape (uri : string) :
  exists body,
    formatURI CONFIG location PREFIXES uri =
      "<a href=" ++ dq ++ href_of (makeLocalLink CONFIG location uri) uri ++ dq
      ++ " class=" ++ dq ++ "property-uri" ++ dq
      ++ " title=" ++ dq ++ uri ++ dq
      ++ target_of (makeLocalLink CONFIG location uri) ++ ">" ++ body ++ "</a>".
Proof.
  unfold formatURI.
  destruct (negb (shortenURI PREFIXES uri =? uri)).
  - exists ("<span class=" ++ dq ++ "property-prefix" ++ dq ++ ">"
            ++ hd EmptyString (split_colon (shortenURI PREFIXES uri)) ++ ":</span>"
            ++ "<span class=" ++ dq ++ "property-label" ++ dq ++ ">"
            ++ join_colon (tl (split_colon (shortenURI PREFIXES uri))) ++ "</span>").
    rewrite !append_associative. reflexivity.
  - exists uri. reflexivity.
Qed.

(** X22.  The three places that build a link to a URI -- [formatValue] for
    an IRI value, [renderSeeAlso] for a listed resource and [formatURI] for
    a predicate -- agree on it.  For a URI inside the entity namespace the
    address is the non-empty local link, the link opens in the same tab,
    and a click on a value or a listed resource navigates to that same
    address; for a URI outside it the address is the URI itself and the
    link opens in a new tab with [rel=noopener noreferrer], without a click
    handler.  The title is always the full URI. *)
Theorem links_agree (uri : string) :
  let a := resource_link CONFIG location PREFIXES uri in
  (forall node, kind node = NamedNode -> value node = uri ->
     formatValue CONFIG location PREFIXES node =
       mkValueSpan
         [Link (mkAnchor "value-uri" (a_title a) (a_textContent a) (a_href a)
                         (a_target a) (a_rel a) (a_onclick a))] None) /\
  (exists body,
     formatURI CONFIG location PREFIXES uri =
       "<a href=" ++ dq ++ a_href a ++ dq ++ " class=" ++ dq ++ "property-uri" ++ dq
       ++ " title=" ++ dq ++ a_title a ++ dq
       ++ match a_target a, a_rel a with
          | Some t, Some r => " target=" ++ dq ++ t ++ dq ++ " rel=" ++ dq ++ r ++ dq
          | _, _ => ""
          end
       ++ ">" ++ body ++ "</a>") /\
  a_title a = uri /\ a_textContent a = shortenURI PREFIXES uri /\
  (startsWith uri (ENTITY_NS CONFIG) = true ->
     makeLocalLink CONFIG location uri = Some (a_href a) /\
     a_href a <> "" /\
     a_target a = None /\ a_rel a = None /\ a_onclick a = Some (a_href a)) /\
  (startsWith uri (ENTITY_NS CONFIG) = false ->
     a_href a = uri /\ a_target a = Some "_blank" /\
     a_rel a = Some "noopener noreferrer" /\ a_onclick a = None).
Proof.
  intros a. subst a. destruct (formatURI_shape uri) as (body & Hbody).
  rewrite Hbody. clear Hbody. unfold resource_link, formatValue.
  destruct (makeLocalLink CONFIG location uri) as [l|] eqn:El.
  - pose proof (makeLocalLink_truthy _ _ _ _ El) as Hl.
    assert (Hin : startsWith uri (ENTITY_NS CONFIG) = true).
    { destruct (startsWith uri (ENTITY_NS CONFIG)) eqn:E; [reflexivity|].
      apply (proj2 (makeLocalLink_None CONFIG location uri)) in E.
      congruence. }
    unfold href_of, target_of, or_else. rewrite Hl.
    cbn [a_href a_title a_textContent a_target a_rel a_onclick].
    split; [|split; [|split; [|split; [|split]]]].
    + intros node Hk Hv. rewrite Hk, Hv, El, Hl. reflexivity.
    + exists body. reflexivity.
    + reflexivity.
    + reflexivity.
    + intros _. split; [reflexivity|]. split; [|auto].
      intros E. subst l. discriminate Hl.
    + intros E. congruence.
  - pose proof (proj1 (makeLocalLink_None _ _ _) El) as Hout.
    unfold href_of, target_of.
    cbn [a_href a_title a_textContent a_target a_rel a_onclick].
    split; [|split; [|split; [|split; [|split]]]].
    + intros node Hk Hv. rewrite Hk, Hv, El. reflexivity.
    + exists body. reflexivity.
    + reflexivity.
    + reflexivity.
    + intros E. congruence.
    + intros _. auto.
Qed.

(** X23.  What [formatValue] shows of a literal: always its value, first
    and verbatim; the language tag exactly when it is not empty; and the
    shortened datatype exactly when the literal has one other than
    [xsd:string] -- also beside a language tag, as for the
    [rdf:langString] that N3.js gives every tagged literal.  A literal is
    never shown as a link and an IRI never as a literal. *)
Theorem formatValue_literal_parts (node : term) :
  let s := formatValue CONFIG location PREFIXES node in
  (kind node = Literal ->
     hd_error (span_children s) = Some (Span "value-literal" (value node)) /\
     (forall t, In (Span "value-lang" t) (span_children s) <->
                language node <> "" /\ t = "@" ++ language node) /\
     (forall t, In (Span "value-datatype" t) (span_children s) <->
                exists d, datatype node = Some d /\
                          d <> NS.XSD ++ "string" /\
                          t = "^^" ++ shortenURI PREFIXES d) /\
     (forall a, ~ In (Link a) (span_children s))) /\
  (kind node = NamedNode ->
     forall c t, ~ In (Span c t) (span_children s)).
Proof.
  intros s. subst s. unfold formatValue. split.
  - intros Hk. rewrite Hk. cbn [span_children app hd_error].
    split; [reflexivity|]. split; [|split].
    + intros t. unfold truthy.
      destruct (String.eqb_spec (language node) "") as [E|E]; cbn [negb].
      * split; [|intros [H _]; congruence].
        cbn [In app]. intros [H|H]; [discriminate H|].
        destruct (datatype node) as [d|]; [|destruct H].
        destruct (negb (d =? NS.XSD ++ "string")); [|destruct H].
        destruct H as [H|[]]. discriminate H.
      * split.
        -- cbn [In app]. intros [H|[H|H]]; [discriminate H| |].
           ++ inversion H. now split.
           ++ destruct (datatype node) as [d|]; [|destruct H].
              destruct (negb (d =? NS.XSD ++ "string")); [|destruct H].
              destruct H as [H|[]]. discriminate H.
        -- intros [_ ->]. cbn [In app]. right. now left.
    + intros t. split.
      * cbn [In]. intros [H|H]; [discriminate H|].
        apply in_app_or in H as [H|H].
        -- destruct (truthy (language node)); [|destruct H].
           destruct H as [H|[]]. discriminate H.
        -- destruct (datatype node) as [d|]; [|destruct H].
           destruct (String.eqb_spec d (NS.XSD ++ "string")) as [E|E];
             cbn [negb] in H; [destruct H|].
           destruct H as [H|[]]. inversion H. now exists d.
      * intros (d & Hd & Hne & ->). rewrite Hd.
        apply String.eqb_neq in Hne. rewrite Hne. cbn [negb].
        right. apply in_or_app. right. now left.
    + intros a. cbn [In]. intros [H|H]; [discriminate H|].
      apply in_app_or in H as [H|H].
      * destruct (truthy (language node)); [|destruct H].
        destruct H as [H|[]]. discriminate H.
      * destruct (datatype node) as [d|]; [|destruct H].
        destruct (negb (d =? NS.XSD ++ "string")); [|destruct H].
        destruct H as [H|[]]. discriminate H.
  - intros Hk. rewrite Hk. intros c t.
    destruct (makeLocalLink CONFIG location (value node)) as [l|];
      [destruct (truthy l)|]; cbn [span_children In];
      intros [H|[]]; discriminate H.
Qed.

End Links.

(** ** The failures of the libraries, run *)

Lemma transformGeoJSON_throws_first_failure_witness :
  transformGeoJSON (P := Faults.failing_libraries)
    (Geometry "LineString" (Arr [Pos 0 [0%float]; Pos 1 [1%float]]))
    "+proj=longlat +datum=WGS84 +no_defs"
  = Throw "coordinates must be finite numbers" /\
  transformGeoJSON (P := Faults.failing_libraries)
    (Geometry "LineString" (Arr [Pos 0 [0%float]; Pos 1 [1%float]])) "<html>"
  = Throw "Could not parse to valid json".
Proof.
  split.
  - apply (proj2 (transformGeoJSON_throws_first_failure
                    (P := Faults.failing_libraries) _ _ _ _)).
    right.
    exists (fun _ => Throw "coordinates must be finite numbers"),
      [], (0%float, [0%float]), [(1%float, [1%float])].
    split; [reflexivity|]. split; [reflexivity|].
    split; [intros q []|reflexivity].
  - apply (proj2 (transformGeoJSON_throws_first_failure
                    (P := Faults.failing_libraries) _ _ _ _)).
    left. reflexivity.
Defined.

Lemma initializeMap_failure_draws_nothing_witness :
  initializeMap (P := Faults.failing_libraries) "POINT(" Faults.drawn
  = (Normal tt,
     mkWorld (this Faults.drawn) (document Faults.drawn) (PREFIXES Faults.drawn)
       (viewer Faults.drawn)
       [("error", "Error initializing map: Invalid WKT")]) /\
  initializeMap (P := Doubles.offline) "POINT EMPTY" Faults.drawn
  = (Normal tt,
     mkWorld (this Faults.drawn) (document Faults.drawn) (PREFIXES Faults.drawn)
       (viewer Faults.drawn)
       [("error", "Failed to parse WKT")]) /\
  geoJsonLayer (viewer (snd (initializeMap (P := Faults.failing_libraries)
                               "SRID=31370;POINT(1 2)" Doubles.blank))) = None.
Proof.
  split; [|split].
  - exact (proj1 (initializeMap_failure_draws_nothing
                    (P := Faults.failing_libraries) "POINT(" Faults.drawn)
             "Invalid WKT" eq_refl).
  - exact (proj1 (proj2 (initializeMap_failure_draws_nothing
                           (P := Doubles.offline) "POINT EMPTY" Faults.drawn))
             None eq_refl).
  - rewrite (proj2 (proj2 (initializeMap_failure_draws_nothing
                             (P := Faults.failing_libraries)
                             "SRID=31370;POINT(1 2)" Doubles.blank))
               (Doubles.point 1 2) 31370%float _
               "coordinates must be finite numbers"
               eq_refl eq_refl eq_refl eq_refl).
    reflexivity.
Defined.

Lemma epsg_answer_never_redraws_witness :
  geojson (viewer (snd (epsg_answer (P := Doubles.offline) 27700 Faults.drawn)))
  = Some (Doubles.point 1 2) /\
  console (snd (epsg_answer (P := Doubles.offline) 27700 Faults.drawn))
  = [("error", "Failed to fetch EPSG:27700: Failed to fetch")] /\
  console (snd (epsg_answer (P := Faults.failing_libraries) 27700 Faults.drawn))
  = [("error", "Failed to fetch EPSG:27700: Could not parse to valid json")].
Proof.
  pose proof (epsg_answer_never_redraws (P := Doubles.offline)
                27700 Faults.drawn) as H.
  pose proof (epsg_answer_never_redraws (P := Faults.failing_libraries)
                27700 Faults.drawn) as H'.
  cbv zeta in H, H'.
  destruct H as (_ & _ & _ & _ & Hr & _).
  destruct H' as (_ & _ & _ & _ & _ & Ht).
  destruct (Hr "Failed to fetch" eq_refl) as [Hg Hc].
  destruct (Ht false "Not Found" "<html>" (Doubles.point 1 2)
               "Could not parse to valid json" eq_refl eq_refl eq_refl)
    as [_ Hc'].
  split; [exact Hg|]. split; [exact Hc | exact Hc'].
Defined.

Lemma quadsToBindings_lossless_witness :
  List.map quad_of_binding
    (quadsToBindings
       [mkTriple (iri "http://example.org/r") (iri "http://example.org/p")
                 (mkTerm Literal "chat" "fr"
                    (Some "http://www.w3.org/1999/02/22-rdf-syntax-ns#langString"));
        mkTriple (mkTerm BlankNode "b0" "" None) (iri "http://example.org/p")
                 (iri "http://example.org/o")])
  = [mkTriple (iri "http://example.org/r") (iri "http://example.org/p")
              (mkTerm Literal "chat" "fr"
                 (Some "http://www.w3.org/1999/02/22-rdf-syntax-ns#langString"));
     mkTriple (mkTerm BlankNode "b0" "" None) (iri "http://example.org/p")
              (iri "http://example.org/o")].
Proof.
  exact (proj1 (proj2 (proj2 (quadsToBindings_lossless
           [mkTriple (iri "http://example.org/r") (iri "http://example.org/p")
                     (mkTerm Literal "chat" "fr"
                        (Some "http://www.w3.org/1999/02/22-rdf-syntax-ns#langString"));
            mkTriple (mkTerm BlankNode "b0" "" None) (iri "http://example.org/p")
                     (iri "http://example.org/o")]))) eq_refl).
Defined.

Lemma invertedPrefixes_last_name_wins_witness :
  obj_get "ex"
    (invertedPrefixes [("http://example.org/a#", "ex");
                       ("http://example.org/b#", "ex")])
  = Some "http://example.org/b#".
Proof.
  apply (proj2 (proj1 (invertedPrefixes_last_name_wins _) "ex"
                  "http://example.org/b#")).
  exists [("http://example.org/a#", "ex")], [].
  split; [reflexivity | intros []].
Defined.
